(** * TrustRootAssembler: a shallow embedding of [assemble/main.go]

    The Go program resolves the latest TUF metadata of a Sigstore mirror,
    downloads it, lets the TUF client build a local trust store, moves the
    verified targets next to the metadata, archives the directory, and
    prints a TrustRoot manifest.

    Conventions of the embedding
    - a Go [string] and a [[]byte] are both a [string] (a list of 8-bit
      characters), compared byte-wise;
    - a file-system path is the list of its components ([filepath.Join]
      concatenates and drops empty elements);
    - the file system is a tree of directories and regular files;
    - everything outside the process (network, TUF client library, clock,
      random names, gzip/tar byte encoding) is read from an [Env];
    - [main] runs in a small state monad over a [World] (file system plus
      the trace of calls made so far), with three outcomes: a value,
      [os.Exit] (deferred calls skipped) and a panic (deferred calls run). *)

From Stdlib Require Import String Ascii List ZArith Lia Bool Permutation.
From stdpp Require Import base strings pretty list.
Import ListNotations.
Open Scope string_scope.
Open Scope list_scope.

(* ================================================================== *)
(** * Part I: definitions *)
(* ================================================================== *)

(** ** Strings as byte sequences *)

Module Str.

Definition is_digit (c : ascii) : bool :=
  (48 <=? nat_of_ascii c)%nat && (nat_of_ascii c <=? 57)%nat.

Definition all_digits (s : string) : bool :=
  forallb is_digit (list_ascii_of_string s).

(** [strings.HasPrefix] followed by [strings.TrimPrefix]. *)
Fixpoint strip_prefix (p s : string) : option string :=
  match p, s with
  | EmptyString, _ => Some s
  | String a p', String b s' =>
      if Ascii.eqb a b then strip_prefix p' s' else None
  | String _ _, EmptyString => None
  end.

Definition has_prefix (p s : string) : bool :=
  match strip_prefix p s with Some _ => true | None => false end.

(** [strings.Split(s, sep)] for a one-byte separator. *)
Fixpoint Split (sep : ascii) (s : string) : list string :=
  match s with
  | EmptyString => [EmptyString]
  | String c s' =>
      let r := Split sep s' in
      if Ascii.eqb c sep then EmptyString :: r
      else match r with
           | l :: ls => String c l :: ls
           | [] => [String c EmptyString]
           end
  end.

(** [strings.Join(elems, sep)]. *)
Fixpoint Join (elems : list string) (sep : string) : string :=
  match elems with
  | [] => EmptyString
  | [e] => e
  | e :: rest => e ++ sep ++ Join rest sep
  end.

(** [strings.ReplaceAll(s, old, new)] for a non-empty [old]: scan from
    the left and replace every non-overlapping occurrence.  [skip] counts
    the bytes of the occurrence just replaced that are still to be
    dropped. *)
Fixpoint replace_go (old new : string) (skip : nat) (s : string) : string :=
  match s with
  | EmptyString => EmptyString
  | String c s' =>
      match skip with
      | S k => replace_go old new k s'
      | O =>
          if has_prefix old s
          then new ++ replace_go old new (String.length old - 1) s'
          else String c (replace_go old new 0 s')
      end
  end.

Definition ReplaceAll (s old new : string) : string :=
  match old with
  | EmptyString => s          (* not used by the program *)
  | _ => replace_go old new 0 s
  end.

(** [old] occurs in [s]. *)
Definition occurs (old s : string) : Prop :=
  exists pre post, s = pre +:+ old +:+ post.

(** [strings.Contains(s, old)]. *)
Fixpoint contains (old s : string) : bool :=
  has_prefix old s ||
  match s with
  | EmptyString => false
  | String _ s' => contains old s'
  end.

(** [sort.Strings]: ascending byte-wise order. *)
Fixpoint insert_sorted (x : string) (l : list string) : list string :=
  match l with
  | [] => [x]
  | y :: l' => if String.leb x y then x :: l else y :: insert_sorted x l'
  end.

Definition sort_Strings (l : list string) : list string :=
  fold_right insert_sorted [] l.

(** A list is ascending when every element is below all later ones. *)
Inductive ascending : list string -> Prop :=
| asc_nil : ascending []
| asc_cons x l :
    (forall y, In y l -> String.leb x y = true) -> ascending l -> ascending (x :: l).

(** Value of a decimal digit string, most significant digit first. *)
Definition digit_val (c : ascii) : N := (N_of_ascii c - 48)%N.

Fixpoint decimal_acc (acc : N) (s : string) : N :=
  match s with
  | EmptyString => acc
  | String c s' => decimal_acc (10 * acc + digit_val c)%N s'
  end.

Definition decimal (s : string) : N := decimal_acc 0 s.

(** The maximal run of digits a string starts with. *)
Fixpoint leading_digits (s : string) : string :=
  match s with
  | String c s' => if is_digit c then String c (leading_digits s') else EmptyString
  | EmptyString => EmptyString
  end.

End Str.

(** ** Errors *)

Definition path := list string.

Inductive error : Type :=
| ErrNet (msg : string)                    (* transport error of net/http *)
| ErrBody (msg : string)                   (* error while reading a response body *)
| ErrNotExist (p : path)
| ErrExist (p : path)
| ErrIsDir (p : path)
| ErrNotDir (p : path)
| ErrInvalid (p : path)
| ErrExternal (msg : string)               (* error reported by the TUF client *)
| ErrorfMirror (status : Z)                (* "failed to fetch mirror directory: %s" *)
| ErrorfNoMatch (pattern : string)         (* "no metadata files matching pattern %s found in mirror directory" *)
| ErrorfDownload (status : Z)              (* "failed to download file: %s" *)
| ErrorfCleanup (p : path) (e : error).    (* "error: could not remove TUF directory %s: %v" *)

(** ** The regular expression of [GetLatestMetadataName]

    [regexp.MustCompile(fmt.Sprintf(`(\d+\.%s)`, regexp.QuoteMeta(p)))]
    is: one or more ASCII digits, then the literal ["." ++ p]; the only
    capture group spans the whole match. *)

Module Regexp.

(** The literal part of the expression. *)
Definition literal (metadataPattern : string) : string :=
  "." ++ metadataPattern.

(** A match anchored at the start of [s]: the digits are greedy, and the
    matcher backs off one digit at a time when the literal does not
    follow. *)
Fixpoint match_here (lit s : string) : option string :=
  match s with
  | String c s' =>
      if Str.is_digit c then
        match match_here lit s' with
        | Some m => Some (String c m)
        | None => if Str.has_prefix lit s' then Some (String c lit) else None
        end
      else None
  | EmptyString => None
  end.

(** Leftmost match. *)
Fixpoint find (lit s : string) : option string :=
  match match_here lit s with
  | Some m => Some m
  | None =>
      match s with
      | String _ s' => find lit s'
      | EmptyString => None
      end
  end.

(** [re.FindStringSubmatch(line)]: [nil] without a match, else the match
    followed by the text of each capture group. *)
Definition FindStringSubmatch (metadataPattern line : string) : list string :=
  match find (literal metadataPattern) line with
  | Some m => [m; m]
  | None => []
  end.

End Regexp.

(** Lines 306-311 of [GetLatestMetadataName]: the loop that fills [files]. *)
Fixpoint collect_matches (metadataPattern : string) (lines : list string)
    (files : list string) : list string :=
  match lines with
  | [] => files
  | line :: rest =>
      let matches := Regexp.FindStringSubmatch metadataPattern line in
      if (0 <? List.length matches)%nat
      then collect_matches metadataPattern rest (files ++ [nth 1 matches EmptyString])
      else collect_matches metadataPattern rest files
  end.

Definition newline : ascii := ascii_of_nat 10.

Definition listMetadataFilenames (body metadataPattern : string) : list string :=
  collect_matches metadataPattern (Str.Split newline body) [].

(** ** The file system: a tree of directories and regular files *)

#[warnings="-register-all"]
Inductive node : Type :=
| File (data : string)
| Dir (entries : list (string * node)).

Module FS.

Fixpoint assoc {A} (name : string) (es : list (string * A)) : option A :=
  match es with
  | [] => None
  | (n, c) :: rest => if String.eqb n name then Some c else assoc name rest
  end.

(** Replace the entry called [name], or add it at the end. *)
Fixpoint assoc_set {A} (name : string) (v : A) (es : list (string * A))
    : list (string * A) :=
  match es with
  | [] => [(name, v)]
  | (n, c) :: rest =>
      if String.eqb n name then (name, v) :: rest
      else (n, c) :: assoc_set name v rest
  end.

Fixpoint assoc_del {A} (name : string) (es : list (string * A))
    : list (string * A) :=
  match es with
  | [] => []
  | (n, c) :: rest =>
      if String.eqb n name then assoc_del name rest
      else (n, c) :: assoc_del name rest
  end.

(** [os.Lstat]. *)
Fixpoint lookup (p : path) (t : node) : option node :=
  match p with
  | [] => Some t
  | n :: p' =>
      match t with
      | Dir es =>
          match assoc n es with
          | Some c => lookup p' c
          | None => None
          end
      | File _ => None
      end
  end.

(** Install [new] at [p]; the parent of [p] must be a directory. *)
Fixpoint put (p : path) (new : node) (t : node) : option node :=
  match p with
  | [] => Some new
  | n :: p' =>
      match t with
      | Dir es =>
          match p' with
          | [] => Some (Dir (assoc_set n new es))
          | _ :: _ =>
              match assoc n es with
              | Some c =>
                  match put p' new c with
                  | Some c' => Some (Dir (assoc_set n c' es))
                  | None => None
                  end
              | None => None
              end
          end
      | File _ => None
      end
  end.

(** Unlink [p] with everything below it; nothing happens when [p] does
    not exist. *)
Fixpoint remove (p : path) (t : node) : node :=
  match p with
  | [] => t
  | n :: p' =>
      match t with
      | Dir es =>
          match p' with
          | [] => Dir (assoc_del n es)
          | _ :: _ =>
              match assoc n es with
              | Some c => Dir (assoc_set n (remove p' c) es)
              | None => t
              end
          end
      | File _ => t
      end
  end.

(** What [os.Lstat] and a read of the file show at a path. *)
Inductive kind : Type :=
| KDir
| KFile (data : string).

Definition kind_of (t : node) : kind :=
  match t with
  | File d => KFile d
  | Dir _ => KDir
  end.

Definition stat (p : path) (t : node) : option kind :=
  match lookup p t with
  | Some c => Some (kind_of c)
  | None => None
  end.

Definition is_dir (t : node) : bool :=
  match t with Dir _ => true | File _ => false end.

(** The rest of [q] after the prefix [pre], when [pre] is a prefix. *)
Fixpoint strip (pre q : path) : option path :=
  match pre, q with
  | [], _ => Some q
  | a :: pre', b :: q' => if String.eqb a b then strip pre' q' else None
  | _ :: _, [] => None
  end.

(** Neither path is a prefix of the other. *)
Definition disjoint (p q : path) : Prop := strip p q = None /\ strip q p = None.

(** [T'] is [T] with the tree [c] at [rel]: below [rel] one sees [c],
    elsewhere what [T] shows. *)
Definition installs (rel : path) (c T T' : node) : Prop :=
  forall q, stat q T'
            = match strip rel q with
              | Some q' => stat q' c
              | None => stat q T
              end.

(** [filepath.Join(dir, elem)]: empty elements are ignored. *)
Definition Join (dir : path) (elems : list string) : path :=
  dir ++ List.filter (fun e => negb (String.eqb e EmptyString)) elems.

Definition names_of {A} (es : list (string * A)) : list string := map fst es.

Definition no_slash (n : string) : bool :=
  forallb (fun c => negb (Ascii.eqb c "/"%char)) (list_ascii_of_string n).

(** A name a directory entry can have. *)
Definition valid_name (n : string) : bool :=
  negb (String.eqb n EmptyString) && negb (String.eqb n ".") && negb (String.eqb n "..")
  && no_slash n.

Fixpoint nodupb (l : list string) : bool :=
  match l with
  | [] => true
  | x :: l' => negb (existsb (String.eqb x) l') && nodupb l'
  end.

(** A well-formed tree: every directory holds each name once, and only
    valid names. *)
Fixpoint wfb (t : node) : bool :=
  match t with
  | File _ => true
  | Dir es =>
      nodupb (names_of es)
      && forallb (fun e => valid_name (fst e) && wfb (snd e)) es
  end.

Definition wf (t : node) : Prop := wfb t = true.

End FS.

(** ** The tar stream

    The byte layout of tar and gzip is that of [archive/tar] and
    [compress/gzip]; here an archive is the sequence of headers and
    bodies handed to the [tar.Writer]. *)

Inductive Typeflag : Type := TypeReg | TypeDir.

Record Header : Type := mkHeader {
  Name : string;
  Typ : Typeflag;
  Size : nat
}.

Record tar_entry : Type := mkEntry {
  hdr : Header;
  payload : string
}.

Module Tar.

(** [tar.FileInfoHeader(info, "")]: the header carries the base name of
    the file, with a trailing slash for a directory. *)
Definition FileInfoHeader (name : string) (info : node) : Header :=
  match info with
  | File d => mkHeader name TypeReg (String.length d)
  | Dir _ => mkHeader (name ++ "/") TypeDir 0
  end.

Definition with_Name (h : Header) (n : string) : Header :=
  mkHeader n (Typ h) (Size h).

(** Stable insertion sort of directory entries by name, the order in
    which [filepath.Walk] reads a directory. *)
Fixpoint insert_by_name {A} (x : string * A) (l : list (string * A))
    : list (string * A) :=
  match l with
  | [] => [x]
  | y :: l' =>
      if String.leb (fst x) (fst y) then x :: l else y :: insert_by_name x l'
  end.

Definition sort_by_name {A} (l : list (string * A)) : list (string * A) :=
  fold_right insert_by_name [] l.

(** [filepath.Walk(src, fn)]: the calls of [fn], in order, as pairs of
    the path relative to [src] and the node found there. *)
Fixpoint Walk (rel : path) (t : node) : list (path * node) :=
  (rel, t) ::
  match t with
  | File _ => []
  | Dir es =>
      concat (map snd (sort_by_name
        (map (fun e => (fst e, Walk (rel ++ [fst e]) (snd e))) es)))
  end.

(** [filepath.Rel(src, path)] for a path below [src]. *)
Definition Rel (rel : path) : string :=
  match rel with
  | [] => "."
  | _ :: _ => Str.Join rel "/"
  end.

(** The callback of [CompressDirectory] (lines 222-257), on the entries
    written so far. *)
Definition visit (tw : list tar_entry) (call : path * node) : list tar_entry :=
  let '(rel, info) := call in
  let relPath := Rel rel in
  if String.eqb relPath "." then tw
  else
    let header := with_Name (FileInfoHeader (List.last rel EmptyString) info) relPath in
    match info with
    | File d => tw ++ [mkEntry header d]
    | Dir _ => tw ++ [mkEntry header EmptyString]
    end.

Definition archive_of (src : node) : list tar_entry :=
  fold_left visit (Walk [] src) [].

(** The entry written for a node that is not the root. *)
Definition entry_of (rel : path) (info : node) : tar_entry :=
  match info with
  | File d => mkEntry (mkHeader (Str.Join rel "/") TypeReg (String.length d)) d
  | Dir _ => mkEntry (mkHeader (Str.Join rel "/") TypeDir 0) EmptyString
  end.

(** The entries written for the subtree found at the relative path [rel]. *)
Definition emitted (rel : path) (t : node) : list tar_entry :=
  concat (map (visit []) (Walk rel t)).

(** Reading an archive back: unpacking the entries, in order, into an
    empty directory.  A directory entry makes a directory, a regular
    entry makes a file with the entry's bytes; the parent must be there
    and the name must be free. *)
Definition slash : ascii := "/"%char.

Definition extract_entry (t : node) (e : tar_entry) : option node :=
  let p := Str.Split slash (Name (hdr e)) in
  match FS.lookup p t with
  | Some _ => None
  | None =>
      match Typ (hdr e) with
      | TypeReg => FS.put p (File (payload e)) t
      | TypeDir => FS.put p (Dir []) t
      end
  end.

Fixpoint extract_into (t : node) (es : list tar_entry) : option node :=
  match es with
  | [] => Some t
  | e :: rest =>
      match extract_entry t e with
      | Some t' => extract_into t' rest
      | None => None
      end
  end.

Definition extract (es : list tar_entry) : option node :=
  extract_into (Dir []) es.

End Tar.

(** ** Base64

    [base64.StdEncoding] is the alphabet of RFC 4648, section 4, with [=]
    padding and no line breaks: every group of three bytes is read as
    four groups of six bits, most significant bit first. *)

Module Base64.

Definition encodeStd : string :=
  "ABCDEFGHIJKLMNOPQRSTUVWXYZabcdefghijklmnopqrstuvwxyz0123456789+/".

Definition pad : ascii := "="%char.

(** Six bits, most significant first. *)
Definition sextet : Type := (bool * bool * bool * bool * bool * bool)%type.

Definition bit (b : bool) : nat := if b then 1 else 0.

Definition index (x : sextet) : nat :=
  let '(b5, b4, b3, b2, b1, b0) := x in
  32 * bit b5 + 16 * bit b4 + 8 * bit b3 + 4 * bit b2 + 2 * bit b1 + bit b0.

Definition enc (x : sextet) : ascii :=
  match String.get (index x) encodeStd with
  | Some c => c
  | None => pad
  end.

Definition of_index (n : nat) : sextet :=
  (Nat.testbit n 5, Nat.testbit n 4, Nat.testbit n 3,
   Nat.testbit n 2, Nat.testbit n 1, Nat.testbit n 0).

Fixpoint index_of (c : ascii) (tbl : string) (i : nat) : option nat :=
  match tbl with
  | EmptyString => None
  | String d tbl' => if Ascii.eqb c d then Some i else index_of c tbl' (S i)
  end.

Definition dec (c : ascii) : option sextet :=
  match index_of c encodeStd 0 with
  | Some i => Some (of_index i)
  | None => None
  end.

(** [EncodeToString]. *)
Fixpoint EncodeToString (src : string) : string :=
  match src with
  | EmptyString => EmptyString
  | String (Ascii a0 a1 a2 a3 a4 a5 a6 a7) EmptyString =>
      String (enc (a7, a6, a5, a4, a3, a2))
      (String (enc (a1, a0, false, false, false, false))
      (String pad (String pad EmptyString)))
  | String (Ascii a0 a1 a2 a3 a4 a5 a6 a7)
      (String (Ascii b0 b1 b2 b3 b4 b5 b6 b7) EmptyString) =>
      String (enc (a7, a6, a5, a4, a3, a2))
      (String (enc (a1, a0, b7, b6, b5, b4))
      (String (enc (b3, b2, b1, b0, false, false))
      (String pad EmptyString)))
  | String (Ascii a0 a1 a2 a3 a4 a5 a6 a7)
      (String (Ascii b0 b1 b2 b3 b4 b5 b6 b7)
      (String (Ascii c0 c1 c2 c3 c4 c5 c6 c7) rest)) =>
      String (enc (a7, a6, a5, a4, a3, a2))
      (String (enc (a1, a0, b7, b6, b5, b4))
      (String (enc (b3, b2, b1, b0, c7, c6))
      (String (enc (c5, c4, c3, c2, c1, c0))
      (EncodeToString rest))))
  end.

Definition byte1 (x y : sextet) : ascii :=
  let '(x5, x4, x3, x2, x1, x0) := x in
  let '(y5, y4, _, _, _, _) := y in
  Ascii y4 y5 x0 x1 x2 x3 x4 x5.

Definition byte2 (y z : sextet) : ascii :=
  let '(_, _, y3, y2, y1, y0) := y in
  let '(z5, z4, z3, z2, _, _) := z in
  Ascii z2 z3 z4 z5 y0 y1 y2 y3.

Definition byte3 (z u : sextet) : ascii :=
  let '(_, _, _, _, z1, z0) := z in
  let '(u5, u4, u3, u2, u1, u0) := u in
  Ascii u0 u1 u2 u3 u4 u5 z0 z1.

(** [DecodeString]: groups of four characters; padding only closes the
    last group. *)
Fixpoint DecodeString (s : string) : option string :=
  match s with
  | EmptyString => Some EmptyString
  | String c1 (String c2 (String c3 (String c4 rest))) =>
      match dec c1, dec c2 with
      | Some x, Some y =>
          if Ascii.eqb c4 pad then
            match rest with
            | EmptyString =>
                if Ascii.eqb c3 pad then Some (String (byte1 x y) EmptyString)
                else
                  match dec c3 with
                  | Some z => Some (String (byte1 x y) (String (byte2 y z) EmptyString))
                  | None => None
                  end
            | String _ _ => None
            end
          else
            match dec c3, dec c4, DecodeString rest with
            | Some z, Some u, Some out =>
                Some (String (byte1 x y) (String (byte2 y z) (String (byte3 z u) out)))
            | _, _, _ => None
            end
      | _, _ => None
      end
  | _ => None
  end.

(** The characters of an encoding: the 64 of the standard alphabet and
    the padding character. *)
Definition std_char (c : ascii) : bool :=
  match index_of c encodeStd 0 with
  | Some _ => true
  | None => Ascii.eqb c pad
  end.

End Base64.

(** ** The world outside the process *)

Record Response : Type := mkResponse {
  StatusCode : Z;
  Body : string;                (* the bytes the body delivers *)
  BodyErr : option error        (* the error that ends the body, if any *)
}.

Inductive HttpResult : Type :=
| GetFailed (err : error)
| GetOK (resp : Response).

(** The trace of a run: the calls that leave the process, with their
    answers, and the returns of the functions of the program. *)
Inductive event : Type :=
| EvGet (url : string) (res : HttpResult)
| EvResolved (metadataPattern name : string) (err : option error)
| EvReturned (fn : string) (err : option error)
| EvMkdirTemp (p : path) (err : option error)
| EvCreateTemp (p : path) (err : option error)
| EvCreate (p : path) (err : option error)
| EvWrite (p : path) (data : string) (err : option error)
| EvReadFile (p : path) (err : option error)
| EvRemoveAll (p : path) (err : option error)
| EvRename (old new : path) (err : option error)
| EvTufInitialize (mirror : string) (root : option string) (err : option error)
| EvTufGetRootStatus (err : option error)
| EvStderr (msg : string)
| EvStdout (msg : string).

Record Env : Type := mkEnv {
  env_http : nat -> string -> HttpResult;   (* answer to the n-th http.Get of main.go *)
  env_home : path;                          (* $HOME *)
  env_tmpdir : path;                        (* os.TempDir() *)
  env_rand : nat -> string;                 (* random part of the n-th temporary name *)
  env_remove_fault : path -> option error;  (* a path RemoveAll cannot unlink *)
  env_tuf_initialize : string -> option string -> option node * option error;
                                            (* tuf.Initialize: the trust store it
                                               leaves under $HOME/.sigstore, its error *)
  env_tuf_status : string + error;          (* tuf.GetRootStatus *)
  env_marshal : string -> string + error;   (* json.MarshalIndent *)
  env_now : Z;                              (* time.Now().Unix() *)
  env_targz : list tar_entry -> string      (* bytes of the gzip-compressed tar stream *)
}.

Record World : Type := mkWorld {
  fs : node;
  gets : nat;                (* calls of http.Get made so far *)
  temps : nat;               (* temporary names drawn so far *)
  trace : list event
}.

Inductive outcome (A : Type) : Type :=
| Val (a : A)
| Exit (code : Z)            (* os.Exit: deferred calls do not run *)
| Panic (msg : string).      (* run-time panic: deferred calls run, status 2 *)

Arguments Val {A} a.
Arguments Exit {A} code.
Arguments Panic {A} msg.

Definition M (A : Type) : Type := Env -> World -> outcome A * World.

Definition ret {A} (a : A) : M A := fun _ w => (Val a, w).

Definition bind {A B} (m : M A) (k : A -> M B) : M B := fun env w =>
  match m env w with
  | (Val a, w') => k a env w'
  | (Exit c, w') => (Exit c, w')
  | (Panic msg, w') => (Panic msg, w')
  end.

Declare Scope go_scope.
Delimit Scope go_scope with go.
Notation "'let*' x ':=' c1 'in' c2" := (bind c1 (fun x => c2))
  (at level 10, x pattern, c1 at level 100, c2 at level 200) : go_scope.
Notation "c1 ;; c2" := (bind c1 (fun _ => c2))
  (at level 100, c2 at level 200, right associativity) : go_scope.
Open Scope go_scope.

(** [defer d] at the head of [body]: [d] runs when [body] returns or
    panics, not when the process exits through [os.Exit]. *)
Definition defer {A} (d : M unit) (body : M A) : M A := fun env w =>
  match body env w with
  | (Val a, w') => (Val a, snd (d env w'))
  | (Panic msg, w') => (Panic msg, snd (d env w'))
  | (Exit c, w') => (Exit c, w')
  end.

Definition exit_status {A} (o : outcome A) : Z :=
  match o with
  | Val _ => 0
  | Exit c => c
  | Panic _ => 2
  end.

Definition emit (e : event) : M unit := fun _ w =>
  (Val tt, mkWorld (fs w) (gets w) (temps w) (trace w ++ [e])).

Definition get_fs : M node := fun _ w => (Val (fs w), w).

Definition set_fs (t : node) : M unit := fun _ w =>
  (Val tt, mkWorld t (gets w) (temps w) (trace w)).

Definition ask : M Env := fun env w => (Val env, w).

Definition os_Exit {A} (code : Z) : M A := fun _ w => (Exit code, w).

Definition panic {A} (msg : string) : M A := fun _ w => (Panic msg, w).

(** [log.Printf] and [log.Fatalf], with the output set to stderr. *)
Definition log_Printf (msg : string) : M unit := emit (EvStderr msg).

Definition log_Fatalf {A} (msg : string) : M A :=
  emit (EvStderr msg) ;; os_Exit 1.

Definition fmt_Println (s : string) : M unit :=
  emit (EvStdout (s +:+ String newline EmptyString)).

(** [http.Get]. *)
Definition http_Get (url : string) : M HttpResult := fun env w =>
  let r := env_http env (gets w) url in
  (Val r, mkWorld (fs w) (S (gets w)) (temps w) (trace w ++ [EvGet url r])).

Definition fresh_name (prefix suffix : string) : M string := fun env w =>
  (Val (prefix +:+ env_rand env (temps w) +:+ suffix),
   mkWorld (fs w) (gets w) (S (temps w)) (trace w)).

(** A [*os.File]: nil, the zero value [&os.File{}], or an open file. *)
Inductive OsFile : Type :=
| NilFile
| ZeroFile
| Handle (name : path).

(** [f.Name()] dereferences the file. *)
Definition File_Name (f : OsFile) : M path :=
  match f with
  | Handle name => ret name
  | NilFile | ZeroFile => panic "invalid memory address or nil pointer dereference"
  end.

(** [os.MkdirTemp("", prefix*suffix)]: one draw of a random name. *)
Definition os_MkdirTemp (prefix suffix : string) : M (path * option error) :=
  let* env := ask in
  let* name := fresh_name prefix suffix in
  let* t := get_fs in
  let p := env_tmpdir env ++ [name] in
  match FS.lookup p t with
  | Some _ => emit (EvMkdirTemp p (Some (ErrExist p))) ;; ret ([], Some (ErrExist p))
  | None =>
      match FS.put p (Dir []) t with
      | Some t' => set_fs t' ;; emit (EvMkdirTemp p None) ;; ret (p, None)
      | None => emit (EvMkdirTemp p (Some (ErrNotExist p))) ;; ret ([], Some (ErrNotExist p))
      end
  end.

(** [os.CreateTemp("", prefix*suffix)]. *)
Definition os_CreateTemp (prefix suffix : string) : M (OsFile * option error) :=
  let* env := ask in
  let* name := fresh_name prefix suffix in
  let* t := get_fs in
  let p := env_tmpdir env ++ [name] in
  match FS.lookup p t with
  | Some _ => emit (EvCreateTemp p (Some (ErrExist p))) ;; ret (NilFile, Some (ErrExist p))
  | None =>
      match FS.put p (File EmptyString) t with
      | Some t' => set_fs t' ;; emit (EvCreateTemp p None) ;; ret (Handle p, None)
      | None => emit (EvCreateTemp p (Some (ErrNotExist p))) ;; ret (NilFile, Some (ErrNotExist p))
      end
  end.

(** [os.Create]: open for writing, create or truncate. *)
Definition os_Create (p : path) : M (OsFile * option error) :=
  let* t := get_fs in
  match FS.lookup p t with
  | Some (Dir _) => emit (EvCreate p (Some (ErrIsDir p))) ;; ret (NilFile, Some (ErrIsDir p))
  | _ =>
      match FS.put p (File EmptyString) t with
      | Some t' => set_fs t' ;; emit (EvCreate p None) ;; ret (Handle p, None)
      | None => emit (EvCreate p (Some (ErrNotExist p))) ;; ret (NilFile, Some (ErrNotExist p))
      end
  end.

(** [f.Write(data)] on a file that the program has just created and
    writes once, from the front: the handles of [main] and of
    [CompressDirectory] come from [os.Create] and [os.CreateTemp], so the
    file is found at the path it was created at and the write position is
    its end.  Handles that were moved, or whose file was unlinked or
    replaced, are outside this model. *)
Definition File_Write (f : OsFile) (data : string) : M (option error) :=
  match f with
  | Handle p =>
      let* t := get_fs in
      match FS.lookup p t with
      | Some (File old) =>
          match FS.put p (File (old +:+ data)) t with
          | Some t' => set_fs t' ;; emit (EvWrite p data None) ;; ret None
          | None => emit (EvWrite p data (Some (ErrNotExist p))) ;; ret (Some (ErrNotExist p))
          end
      | _ => emit (EvWrite p data (Some (ErrNotExist p))) ;; ret (Some (ErrNotExist p))
      end
  | NilFile => ret (Some (ErrInvalid []))
  | ZeroFile => panic "invalid memory address or nil pointer dereference"
  end.

(** [os.ReadFile]. *)
Definition os_ReadFile (p : path) : M (option string * option error) :=
  let* t := get_fs in
  match FS.lookup p t with
  | Some (File d) => emit (EvReadFile p None) ;; ret (Some d, None)
  | Some (Dir _) => emit (EvReadFile p (Some (ErrIsDir p))) ;; ret (None, Some (ErrIsDir p))
  | None => emit (EvReadFile p (Some (ErrNotExist p))) ;; ret (None, Some (ErrNotExist p))
  end.

(** [os.RemoveAll]: no error when the path does not exist.  A removal
    that fails is taken at the point where nothing has been unlinked yet;
    what [os.RemoveAll] may already have removed below the path when it
    reports an error is not modelled. *)
Definition os_RemoveAll (p : path) : M (option error) :=
  let* env := ask in
  match env_remove_fault env p with
  | Some e => emit (EvRemoveAll p (Some e)) ;; ret (Some e)
  | None =>
      let* t := get_fs in
      set_fs (FS.remove p t) ;; emit (EvRemoveAll p None) ;; ret None
  end.

(** [os.Rename] on Unix: an existing directory at [new] is refused, a
    directory does not replace a file, a file replaces a file. *)
Definition rename_fs (old new : path) (t : node) : node + error :=
  match FS.lookup old t with
  | None => inr (ErrNotExist old)
  | Some src =>
      match FS.lookup new t with
      | Some (Dir _) => inr (ErrExist new)
      | Some (File _) =>
          match src with
          | Dir _ => inr (ErrNotDir new)
          | File _ =>
              match FS.put new src (FS.remove old t) with
              | Some t' => inl t'
              | None => inr (ErrNotExist new)
              end
          end
      | None =>
          match FS.put new src (FS.remove old t) with
          | Some t' => inl t'
          | None => inr (ErrNotExist new)
          end
      end
  end.

Definition os_Rename (old new : path) : M (option error) :=
  let* t := get_fs in
  match rename_fs old new t with
  | inl t' => set_fs t' ;; emit (EvRename old new None) ;; ret None
  | inr e => emit (EvRename old new (Some e)) ;; ret (Some e)
  end.

(** The TUF client, [github.com/sigstore/sigstore/pkg/tuf].  A call of
    [tuf.Initialize] is one event: the trust store it leaves and its
    error are read from the environment, and the requests it sends to the
    mirror on its own are not events of the trace. *)
Definition sigstore_dir (env : Env) : path := FS.Join (env_home env) [".sigstore"].

Definition tuf_Initialize (mirror : string) (root : option string) : M (option error) :=
  let* env := ask in
  let* t := get_fs in
  let '(store, err) := env_tuf_initialize env mirror root in
  match store with
  | Some s =>
      match FS.put (sigstore_dir env) s t with
      | Some t' => set_fs t'
      | None => ret tt
      end
  | None => ret tt
  end ;;
  emit (EvTufInitialize mirror root err) ;;
  ret err.

Definition tuf_GetRootStatus : M (string * option error) :=
  let* env := ask in
  match env_tuf_status env with
  | inl st => emit (EvTufGetRootStatus None) ;; ret (st, None)
  | inr e => emit (EvTufGetRootStatus (Some e)) ;; ret (EmptyString, Some e)
  end.

Definition json_MarshalIndent (v : string) : M (string * option error) :=
  let* env := ask in
  match env_marshal env v with
  | inl js => ret (js, None)
  | inr e => ret (EmptyString, Some e)
  end.

Definition time_Now_Unix : M Z := let* env := ask in ret (env_now env).

(** ** The program, [assemble/main.go] *)

Definition StatusOK : Z := 200.

(** [GetLatestMetadataName], lines 287-321. *)
Definition GetLatestMetadataName (mirror metadataPattern : string)
    : M (string * option error) :=
  let* r := http_Get mirror in
  let* res :=
    match r with
    | GetFailed err => ret (EmptyString, Some err)
    | GetOK resp =>
        if negb (Z.eqb (StatusCode resp) StatusOK)
        then ret (EmptyString, Some (ErrorfMirror (StatusCode resp)))
        else
          match BodyErr resp with
          | Some err => ret (EmptyString, Some err)
          | None =>
              let files := listMetadataFilenames (Body resp) metadataPattern in
              if Nat.eqb (List.length files) 0
              then ret (EmptyString, Some (ErrorfNoMatch metadataPattern))
              else
                let files := Str.sort_Strings files in
                let latestMetadataName := nth (List.length files - 1) files EmptyString in
                ret (latestMetadataName, None)
          end
    end in
  emit (EvResolved metadataPattern (fst res) (snd res)) ;;
  ret res.

(** The world after a call of [GetLatestMetadataName] that was answered
    with [r] and returned [(name, err)]. *)
Definition resolved_world (w : World) (mirror metadataPattern : string)
    (r : HttpResult) (name : string) (err : option error) : World :=
  mkWorld (fs w) (S (gets w)) (temps w)
    (trace w ++ [EvGet mirror r] ++ [EvResolved metadataPattern name err]).

(** [io.Copy(destinationFile, resp.Body)]: the bytes the body delivers are
    written; the error is that of the write or that of the body. *)
Definition io_Copy (dst : OsFile) (resp : Response) : M (option error) :=
  let* werr := File_Write dst (Body resp) in
  match werr with
  | Some e => ret (Some e)
  | None => ret (BodyErr resp)
  end.

(** [DownloadFile], lines 173-184. *)
Definition DownloadFile (destinationFile : OsFile) (url : string) : M (option error) :=
  let* r := http_Get url in
  let* err :=
    match r with
    | GetFailed err => ret (Some err)
    | GetOK resp =>
        if negb (Z.eqb (StatusCode resp) StatusOK)
        then ret (Some (ErrorfDownload (StatusCode resp)))
        else io_Copy destinationFile resp
    end in
  emit (EvReturned "DownloadFile" err) ;;
  ret err.

(** [cleanupLocalTUFRepository], lines 158-164. *)
Definition cleanupLocalTUFRepository : M (option error) :=
  let* env := ask in
  let tufDir := FS.Join (env_home env) [".sigstore"] in
  let* err := os_RemoveAll tufDir in
  let res :=
    match err with
    | Some e => Some (ErrorfCleanup tufDir e)
    | None => None
    end in
  emit (EvReturned "cleanupLocalTUFRepository" res) ;;
  ret res.

(** [CompressDirectory], lines 208-259.  The deferred [Close] calls flush
    the archive into [dst] on every return after [os.Create]. *)
Definition CompressDirectory (src dst : path) : M (option error) :=
  let* env := ask in
  let* (out, err) := os_Create dst in
  let* res :=
    match err with
    | Some e => ret (Some e)
    | None =>
        let* t := get_fs in
        match FS.lookup src t with
        | None =>
            File_Write out (env_targz env []) ;;
            ret (Some (ErrNotExist src))
        | Some tree =>
            File_Write out (env_targz env (Tar.archive_of tree)) ;;
            ret None
        end
    end in
  emit (EvReturned "CompressDirectory" res) ;;
  ret res.

(** [EncodeBase64], lines 269-275. *)
Definition EncodeBase64 (sourceFile : OsFile) : M (string * option error) :=
  let* name := File_Name sourceFile in
  let* (data, err) := os_ReadFile name in
  let res :=
    match err, data with
    | None, Some d => (Base64.EncodeToString d, None)
    | Some e, _ => (EmptyString, Some e)
    | None, None => (EmptyString, None)
    end in
  emit (EvReturned "EncodeBase64" (snd res)) ;;
  ret res.

Definition nl : string := String newline EmptyString.

(** The [metadata.name] of the manifest, ["%s-%d"] at lines 146 and 153. *)
Definition resourceName (mirror : string) (now : Z) : string :=
  Str.ReplaceAll mirror "https://" "" +:+ "-" +:+ pretty now.

(** The [fmt.Sprintf] of lines 143-153. *)
Definition trustRootYAML (mirror : string) (now : Z) (b64RootJSON b64RepositoryArchive : string)
    : string :=
  "apiVersion: policy.sigstore.dev/v1alpha1" +:+ nl +:+
  "kind: TrustRoot" +:+ nl +:+
  "metadata:" +:+ nl +:+
  "  name: " +:+ resourceName mirror now +:+ nl +:+
  "spec:" +:+ nl +:+
  "  repository:" +:+ nl +:+
  "    root: |-" +:+ nl +:+
  "      " +:+ b64RootJSON +:+ nl +:+
  "    mirrorFS: |-" +:+ nl +:+
  "      " +:+ b64RepositoryArchive +:+ nl.

(** One round of the loop of lines 63-86. *)
Definition fetchOne (mirror : string) (temporaryWorkingDirectory : path)
    (metadata : string) (rootJSONFile : OsFile) : M OsFile :=
  let* metadataName :=
    if String.eqb metadata "timestamp.json" then ret "timestamp.json"
    else let* (name, _) := GetLatestMetadataName mirror metadata in ret name in
  let metadataURL := mirror +:+ "/" +:+ metadataName in
  let metadataFilepath := FS.Join temporaryWorkingDirectory [metadataName] in
  let* (metadataFile, err) := os_Create metadataFilepath in
  match err with
  | Some _ =>
      let* _ := File_Name metadataFile in
      log_Fatalf "Error: could not create file"
  | None =>
      let* err := DownloadFile metadataFile metadataURL in
      match err with
      | Some _ =>
          let* _ := File_Name metadataFile in
          log_Fatalf ("Error: could not download from " +:+ metadataURL)
      | None =>
          if String.eqb metadata "root.json" then ret metadataFile
          else ret rootJSONFile
      end
  end.

Fixpoint fetchLoop (mirror : string) (temporaryWorkingDirectory : path)
    (madatadas : list string) (rootJSONFile : OsFile) : M OsFile :=
  match madatadas with
  | [] => ret rootJSONFile
  | metadata :: rest =>
      let* rootJSONFile' := fetchOne mirror temporaryWorkingDirectory metadata rootJSONFile in
      fetchLoop mirror temporaryWorkingDirectory rest rootJSONFile'
  end.

Definition madatadas : list string :=
  ["root.json"; "snapshot.json"; "targets.json"; "timestamp.json"].

(** Lines 49-86: resolve the root, then fetch the four metadata files. *)
Definition resolveAndFetch (mirror : string) (temporaryWorkingDirectory : path) : M OsFile :=
  let* (latestRootName, _) := GetLatestMetadataName mirror "root.json" in
  (if String.eqb latestRootName EmptyString
   then log_Fatalf "Error: could not get the latest root.json file from the mirror"
   else ret tt) ;;
  let rootURL := mirror +:+ "/" +:+ latestRootName in
  log_Printf ("mirror " +:+ mirror +:+ ", root " +:+ rootURL) ;;
  fetchLoop mirror temporaryWorkingDirectory madatadas ZeroFile.

(** Lines 88-109: wipe the local TUF repository, initialize it, print the
    root status. *)
Definition initializeTrust (mirror : string) (rootJSONFile : OsFile) : M unit :=
  let* err := cleanupLocalTUFRepository in
  match err with
  | Some _ => log_Fatalf "Error: could not cleanup local TUF repository"
  | None => ret tt
  end ;;
  let* name := File_Name rootJSONFile in
  let* (rootJSON, _) := os_ReadFile name in
  let* err := tuf_Initialize mirror rootJSON in
  match err with
  | Some _ => log_Fatalf "Error: could not initialize TUF"
  | None => ret tt
  end ;;
  let* (rootStatus, err) := tuf_GetRootStatus in
  match err with
  | Some _ => log_Fatalf "Error: could not get root status"
  | None => ret tt
  end ;;
  let* (rootStatusJSON, err) := json_MarshalIndent rootStatus in
  match err with
  | Some _ => log_Fatalf "Error: could not marshal root status to JSON"
  | None => ret tt
  end ;;
  log_Printf ("Root status: " +:+ rootStatusJSON).

(** Lines 111-117: move the targets directory into the working directory. *)
Definition moveTargets (temporaryWorkingDirectory : path) : M unit :=
  let* env := ask in
  let originalTargetsDir := FS.Join (env_home env) [".sigstore"; "root"; "targets"] in
  let destinationTargetsDir := FS.Join temporaryWorkingDirectory ["targets"] in
  let* err := os_Rename originalTargetsDir destinationTargetsDir in
  match err with
  | Some _ => log_Fatalf "Failed to move directory"
  | None => ret tt
  end.

(** [repositoryArchive.Close()]. *)
Definition File_Close (f : OsFile) : M unit := ret tt.

(** Lines 119-154: archive, encode, print the manifest. *)
Definition packageAndEmit (mirror : string) (temporaryWorkingDirectory : path)
    (rootJSONFile : OsFile) : M unit :=
  let* (repositoryArchive, err) := os_CreateTemp "repository-" ".tar.gz" in
  match err with
  | Some _ => log_Fatalf "Error: could not create temporary file for repository archive"
  | None => ret tt
  end ;;
  defer (File_Close repositoryArchive) (
    let* name := File_Name repositoryArchive in
    let* err := CompressDirectory temporaryWorkingDirectory name in
    match err with
    | Some _ => log_Fatalf "Error: could not compress repository directory"
    | None => ret tt
    end ;;
    let* (b64RepositoryArchive, err) := EncodeBase64 repositoryArchive in
    match err with
    | Some _ => log_Fatalf "Error: could not base64-encode repository archive"
    | None => ret tt
    end ;;
    let* (b64RootJSON, err) := EncodeBase64 rootJSONFile in
    match err with
    | Some _ => log_Fatalf "Error: could not base64-encode root.json"
    | None => ret tt
    end ;;
    let* now := time_Now_Unix in
    fmt_Println (trustRootYAML mirror now b64RootJSON b64RepositoryArchive)).

(** The stages of [main] that follow the creation of the working
    directory, up to and including the move of the targets directory. *)
Definition assembleRepository (mirror : string) (temporaryWorkingDirectory : path)
    : M OsFile :=
  let* rootJSONFile := resolveAndFetch mirror temporaryWorkingDirectory in
  initializeTrust mirror rootJSONFile ;;
  moveTargets temporaryWorkingDirectory ;;
  ret rootJSONFile.

(** [main], lines 25-155, after [flag.Parse]. *)
Definition main (mirror : string) (help : bool) : M unit :=
  if help then
    emit (EvStderr "Usage: [options]") ;; os_Exit 0
  else
    let* (temporaryWorkingDirectory, err) := os_MkdirTemp "tuf-repository-" "" in
    match err with
    | Some _ => log_Fatalf "Error: could not create temporary directory"
    | None => ret tt
    end ;;
    defer (let* _ := os_RemoveAll temporaryWorkingDirectory in ret tt) (
      let* rootJSONFile := assembleRepository mirror temporaryWorkingDirectory in
      packageAndEmit mirror temporaryWorkingDirectory rootJSONFile).

Definition initial (t : node) : World := mkWorld t 0 0 [].

(** What a trace wrote to standard output. *)
Fixpoint stdout_of (tr : list event) : list string :=
  match tr with
  | [] => []
  | EvStdout s :: rest => s :: stdout_of rest
  | _ :: rest => stdout_of rest
  end.

(** A run of the program: the outcome and the final world. *)
Definition run (env : Env) (mirror : string) (t : node) : outcome unit * World :=
  main mirror false env (initial t).

(** ** A sample environment, for running the program *)

Module Sample.

Definition mirror : string := "https://tuf-repo-cdn.sigstore.dev".

Definition listing : string :=
  "<a href=1.root.json>1.root.json</a>" +:+ nl +:+
  "<a href=2.root.json>2.root.json</a>" +:+ nl +:+
  "<a href=7.snapshot.json>7.snapshot.json</a>" +:+ nl +:+
  "<a href=5.targets.json>5.targets.json</a>" +:+ nl +:+
  "<a href=timestamp.json>timestamp.json</a>" +:+ nl.

Definition ok (body : string) : HttpResult := GetOK (mkResponse 200 body None).

(** The mirror at [m]: the listing at its base address, a file under
    every other address. *)
Definition http_at (m : string) (n : nat) (url : string) : HttpResult :=
  if String.eqb url m then ok listing else ok ("contents of " +:+ url).

Definition http : nat -> string -> HttpResult := http_at mirror.

Definition store : node :=
  Dir [("root", Dir [("targets", Dir [("fulcio.crt.pem", File "CERT");
                                      ("rekor.pub", File "KEY")]);
                     ("tuf.db", File "DB")])].

(** A stand-in for the tar and gzip byte encoding. *)
Definition targz (es : list tar_entry) : string :=
  fold_right (fun e acc => Name (hdr e) +:+ ":" +:+ payload e +:+ ";" +:+ acc) EmptyString es.

Definition with_http (h : nat -> string -> HttpResult) : Env :=
  mkEnv h ["home"; "user"] ["tmp"] (fun n => pretty n) (fun _ => None)
    (fun _ _ => (Some store, None)) (inl "status") (fun s => inl s)
    1700000000 targz.

Definition env : Env := with_http http.

(** A mirror that lists root documents only. *)
Definition roots_only : Env :=
  with_http (fun _ url =>
    if String.eqb url mirror then ok ("1.root.json" +:+ nl +:+ "2.root.json")
    else ok ("contents of " +:+ url)).

(** A mirror that has the listing but answers 404 for every file. *)
Definition files_missing : Env :=
  with_http (fun _ url =>
    if String.eqb url mirror then ok listing
    else GetOK (mkResponse 404 "not found" None)).

(** A connection that breaks in the middle of every body. *)
Definition truncating : Env :=
  with_http (fun _ _ => GetOK (mkResponse 200 "partial" (Some (ErrBody "unexpected EOF")))).

(** The sample mirror, with a TUF client that cannot report its status. *)
Definition status_fails : Env :=
  mkEnv http ["home"; "user"] ["tmp"] (fun n => pretty n) (fun _ => None)
    (fun _ _ => (Some store, None)) (inr (ErrExternal "no status")) (fun s => inl s)
    1700000000 targz.

(** A mirror that answers every request with the same body. *)
Definition serving (body : string) : Env := with_http (fun _ _ => ok body).

Definition disk : node :=
  Dir [("home", Dir [("user", Dir [])]); ("tmp", Dir [])].

End Sample.

(** ** What the expression of [GetLatestMetadataName] matches *)

(** One or more digits, a dot, the pattern. *)
Definition candidate (metadataPattern m : string) : Prop :=
  exists ds, ds <> EmptyString /\ Str.all_digits ds = true /\
             m = ds +:+ Regexp.literal metadataPattern.

(** [m] is such a text, and starts at offset [i] of [line]. *)
Definition match_at (metadataPattern line : string) (i : nat) (m : string) : Prop :=
  candidate metadataPattern m /\
  exists pre post, line = pre +:+ m +:+ post /\ String.length pre = i.

(** [m] is the match that starts first in [line]. *)
Definition leftmost_match (metadataPattern line m : string) : Prop :=
  exists i, match_at metadataPattern line i m /\
            forall j m', match_at metadataPattern line j m' -> (i <= j)%nat.

(** The match of the expression in one line, as a list of at most one
    element. *)
Definition first_match (metadataPattern line : string) : list string :=
  match Regexp.find (Regexp.literal metadataPattern) line with
  | Some m => [m]
  | None => []
  end.

(** The version number a candidate file name starts with. *)
Definition version_of (name : string) : N := Str.decimal (Str.leading_digits name).

Definition digit_length (name : string) : nat := String.length (Str.leading_digits name).

(** The name under which a metadata file is fetched: a candidate for a
    versioned role, the fixed name for the timestamp. *)
Definition fetched_name (metadata name : string) : Prop :=
  if String.eqb metadata "timestamp.json" then name = "timestamp.json"
  else candidate metadata name.

(** ** Reading a trace *)

(** [w] after calls that left the file system [t] and added the events
    [d] to the trace. *)
Definition logged (w : World) (t : node) (d : list event) : World :=
  mkWorld t (gets w) (temps w) (trace w ++ d).

(** The same after one GET. *)
Definition sent (w : World) (t : node) (d : list event) : World :=
  mkWorld t (S (gets w)) (temps w) (trace w ++ d).

(** The same after one temporary name was drawn. *)
Definition drawn (w : World) (t : node) (d : list event) : World :=
  mkWorld t (gets w) (S (temps w)) (trace w ++ d).

Definition has_error (err : option error) : bool :=
  match err with Some _ => true | None => false end.

(** An answer [main] treats as fatal: a failed resolution, an error
    returned by a function of the program, a failed call of the
    operating system or of the TUF client. *)
Definition failed_event (e : event) : bool :=
  match e with
  | EvResolved _ name err => String.eqb name EmptyString || has_error err
  | EvReturned _ err => has_error err
  | EvMkdirTemp _ err => has_error err
  | EvCreateTemp _ err => has_error err
  | EvCreate _ err => has_error err
  | EvRename _ _ err => has_error err
  | EvTufInitialize _ _ err => has_error err
  | EvTufGetRootStatus err => has_error err
  | _ => false
  end.

Definition response_ok (r : HttpResult) : bool :=
  match r with
  | GetFailed _ => false
  | GetOK resp => Z.eqb (StatusCode resp) StatusOK && negb (has_error (BodyErr resp))
  end.

(** An event of a stage that went well: nothing failed, and every
    download was answered 200 with a complete body. *)
Definition benign (mirror : string) (e : event) : bool :=
  negb (failed_event e) &&
  match e with
  | EvGet url r => String.eqb url mirror || response_ok r
  | _ => true
  end.

(** What may still be seen after the run has started to abort: the
    message, the failed creation of the file, the deferred removal. *)
Definition quiet (e : event) : bool :=
  match e with
  | EvStderr _ => true
  | EvCreate _ (Some _) => true
  | EvRemoveAll _ _ => true
  | _ => false
  end.

Inductive okind : Type := KVal | KExit (code : Z) | KPanic.

Definition kind {A} (o : outcome A) : okind :=
  match o with
  | Val _ => KVal
  | Exit c => KExit c
  | Panic _ => KPanic
  end.

(** The events of an aborting stage, from the call that fails on. *)
Inductive abort_tail (mirror : string) : okind -> list event -> Prop :=
| tail_message msg :
    abort_tail mirror (KExit 1) [EvStderr msg]
| tail_fatal e msg :
    (forall url r, e <> EvGet url r) ->
    (forall p name err, e <> EvResolved p name err) ->
    abort_tail mirror (KExit 1) [e; EvStderr msg]
| tail_returned e fn err msg :
    (forall url r, e <> EvGet url r) ->
    (forall p name err', e <> EvResolved p name err') ->
    abort_tail mirror (KExit 1) [e; EvReturned fn (Some err); EvStderr msg]
| tail_archive p d werr err msg :
    abort_tail mirror (KExit 1)
      [EvCreate p None; EvWrite p d werr; EvReturned "CompressDirectory" (Some err);
       EvStderr msg]
| tail_download_refused url r err msg :
    url <> mirror ->
    abort_tail mirror (KExit 1)
      [EvGet url r; EvReturned "DownloadFile" (Some err); EvStderr msg]
| tail_download_broken url resp p d werr err msg :
    url <> mirror -> StatusCode resp = StatusOK ->
    abort_tail mirror (KExit 1)
      [EvGet url (GetOK resp); EvWrite p d werr; EvReturned "DownloadFile" (Some err);
       EvStderr msg]
| tail_resolve_fatal r p name err msg :
    abort_tail mirror (KExit 1) [EvGet mirror r; EvResolved p name err; EvStderr msg]
| tail_resolve_panic r p name err q e :
    abort_tail mirror KPanic [EvGet mirror r; EvResolved p name err; EvCreate q (Some e)]
| tail_create_panic q e :
    abort_tail mirror KPanic [EvCreate q (Some e)].

(** The events of a stage: those of the calls that went well, then, when
    the stage does not return, the tail of the abort. *)
Definition shaped (mirror : string) (o : okind) (delta : list event) : Prop :=
  exists ok tail,
    delta = ok ++ tail /\
    forallb (benign mirror) ok = true /\
    match o with
    | KVal => tail = []
    | _ => abort_tail mirror o tail
    end.

(** The trust store through a trace: not yet wiped, wiped (by a
    [RemoveAll] of the store that returned no error), wiped and
    [cleanupLocalTUFRepository] returned, wiped and the root document
    read, initialized. *)
Inductive store_state : Type :=
| Fresh | Wiped | Cleaned | RootRead | Initialized.

Definition path_eqb (p q : path) : bool :=
  match FS.strip p q with
  | Some [] => true
  | _ => false
  end.

Definition store_step (env : Env) (s : store_state) (e : event) : option store_state :=
  match e with
  | EvTufInitialize _ _ _ =>
      match s with RootRead => Some Initialized | _ => None end
  | EvRemoveAll p err =>
      if path_eqb p (sigstore_dir env) then
        match s, err with
        | Initialized, _ => None
        | _, None => Some Wiped
        | _, Some _ => Some Fresh
        end
      else match s with Initialized => Some Initialized | _ => Some Fresh end
  | EvReturned _ None =>
      match s with
      | Wiped => Some Cleaned
      | Initialized => Some Initialized
      | _ => Some Fresh
      end
  | EvReadFile _ _ =>
      match s with
      | Cleaned => Some RootRead
      | Initialized => Some Initialized
      | _ => Some Fresh
      end
  | _ =>
      match s with Initialized => Some Initialized | _ => Some Fresh end
  end.

Fixpoint store_run (env : Env) (s : store_state) (tr : list event) : option store_state :=
  match tr with
  | [] => Some s
  | e :: rest =>
      match store_step env s e with
      | Some s' => store_run env s' rest
      | None => None
      end
  end.

(** An event that is neither a call of [tuf.Initialize] nor a call of
    [os.RemoveAll] on the path of the trust store. *)
Definition calm (env : Env) (e : event) : bool :=
  match e with
  | EvTufInitialize _ _ _ => false
  | EvRemoveAll p _ => negb (path_eqb p (sigstore_dir env))
  | _ => true
  end.

(** The trace of a whole run: the events of [main] up to its return or
    abort, then the deferred removal of the working directory when [main]
    returned or panicked; throughout, the discipline of the trust store. *)
Definition run_shaped (env : Env) (mirror : string) (out : outcome unit)
    (tr : list event) : Prop :=
  exists body deferred s,
    tr = body ++ deferred /\
    shaped mirror (kind out) body /\
    store_run env Fresh tr = Some s /\
    (deferred = [] \/ exists p e, deferred = [EvRemoveAll p e]) /\
    (forall c, out = Exit c -> deferred = []).

(** A stage run from [w] in the store state [s]: its events are shaped,
    they respect the discipline of the trust store, and when the stage
    returns, [Q] holds of the value, the world and the store state. *)
Definition stage {A} (env : Env) (mirror : string) (m : M A) (w : World)
    (s : store_state) (Q : A -> World -> store_state -> Prop) : Prop :=
  exists o w' delta s',
    m env w = (o, w') /\
    trace w' = trace w ++ delta /\
    shaped mirror (kind o) delta /\
    store_run env s delta = Some s' /\
    forall a, o = Val a -> Q a w' s'.

(** A call of [http.Get], by [GetLatestMetadataName] or [DownloadFile]. *)
Definition is_get (e : event) : bool :=
  match e with
  | EvGet _ _ => true
  | _ => false
  end.

(** What the events before a store state were: the removal of the store
    that reported no error, the return without error, the read of the root
    document. *)
Definition wiped_history (env : Env) (s : store_state) (h : list event) : Prop :=
  match s with
  | Fresh | Initialized => True
  | Wiped => exists pre, h = pre ++ [EvRemoveAll (sigstore_dir env) None]
  | Cleaned =>
      exists pre fn,
        h = pre ++ [EvRemoveAll (sigstore_dir env) None; EvReturned fn None]
  | RootRead =>
      exists pre fn p err,
        h = pre ++ [EvRemoveAll (sigstore_dir env) None; EvReturned fn None;
                    EvReadFile p err]
  end.

(** ** Counting events *)

Definition is_stdout (e : event) : bool :=
  match e with
  | EvStdout _ => true
  | _ => false
  end.

(** A resolution of [root.json]. *)
Definition is_root_resolution (e : event) : bool :=
  match e with
  | EvResolved p _ _ => String.eqb p "root.json"
  | _ => false
  end.

(** How many events of [d] satisfy [f]. *)
Definition count (f : event -> bool) (d : list event) : nat :=
  List.length (List.filter f d).

(** [m] adds events to the trace, never more than [n] of them of the
    kind [f], and exactly [n] when it returns. *)
Definition spends (f : event -> bool) {A} (n : nat) (m : M A) : Prop :=
  forall env w,
    exists d,
      trace (snd (m env w)) = trace w ++ d /\
      (count f d <= n)%nat /\
      (forall a, fst (m env w) = Val a -> count f d = n).

(** [m] does not return. *)
Definition aborts {A} (m : M A) : Prop :=
  forall env w a, fst (m env w) <> Val a.

(** [m] writes to standard output only when it returns, and then one
    text, which satisfies [P]. *)
Definition prints_last (P : string -> Prop) {A} (m : M A) : Prop :=
  forall env w,
    exists d,
      trace (snd (m env w)) = trace w ++ d /\
      match fst (m env w) with
      | Val _ => exists s, stdout_of d = [s] /\ P s
      | _ => stdout_of d = []
      end.

(** ** What a call leaves *)

(** [Q] holds of the value and the world when the call returns, [E] of
    the world when it exits or panics. *)
Definition ends {A} (r : outcome A * World) (Q : A -> World -> Prop)
    (E : World -> Prop) : Prop :=
  match r with
  | (Val a, w') => Q a w'
  | (Exit _, w') => E w'
  | (Panic _, w') => E w'
  end.

(** The [k]-th GET of the run is answered with a listing, complete and
    with status 200, whose byte-wise greatest candidate is [name]. *)
Definition latest_in (env : Env) (k : nat) (mirror metadataPattern name : string) : Prop :=
  exists resp,
    env_http env k mirror = GetOK resp /\ StatusCode resp = 200%Z /\
    BodyErr resp = None /\
    In name (listMetadataFilenames (Body resp) metadataPattern) /\
    forall f, In f (listMetadataFilenames (Body resp) metadataPattern) ->
              String.leb f name = true.

(** The [k]-th GET of the run, at [url], is answered with status 200 and
    the complete body [body]. *)
Definition served (env : Env) (k : nat) (url body : string) : Prop :=
  exists resp,
    env_http env k url = GetOK resp /\ StatusCode resp = 200%Z /\
    BodyErr resp = None /\ Body resp = body.

(** The archive file of [packageAndEmit], for the random part [name]. *)
Definition archive_path (env : Env) (name : string) : path :=
  env_tmpdir env ++ ["repository-" +:+ name +:+ ".tar.gz"].

(** ** The order of events *)

(** A return of [DownloadFile]. *)
Definition is_download_return (e : event) : bool :=
  match e with
  | EvReturned fn _ => String.eqb fn "DownloadFile"
  | _ => false
  end.

Definition is_initialize (e : event) : bool :=
  match e with
  | EvTufInitialize _ _ _ => true
  | _ => false
  end.

(** In the events [m] adds, an event of the kind [g] has exactly [n]
    events of the kind [f] before it and none after it. *)
Definition phased (f g : event -> bool) {A} (n : nat) (m : M A) : Prop :=
  forall env w,
    exists d,
      trace (snd (m env w)) = trace w ++ d /\
      forall pre x post,
        d = pre ++ x :: post -> g x = true ->
        count f pre = n /\ count f post = 0%nat.

(** The last character of [s] is a digit. *)
Fixpoint ends_with_digit (s : string) : bool :=
  match s with
  | EmptyString => false
  | String c EmptyString => Str.is_digit c
  | String _ s' => ends_with_digit s'
  end.

(** ** The trust store over a run *)

(** A call of [os.RemoveAll]. *)
Definition is_removal (e : event) : bool :=
  match e with
  | EvRemoveAll _ _ => true
  | _ => false
  end.

(** No call of [tuf.Initialize] so far. *)
Definition uninitialized (w : World) : Prop :=
  forall m root e, ~ In (EvTufInitialize m root e) (trace w).

(** The trust store [s] that [tuf.Initialize] left is on disk, whole or
    without the targets directory, which [main] moves away. *)
Definition store_left (env : Env) (s : node) (T : node) : Prop :=
  FS.lookup (sigstore_dir env) T = Some s
  \/ FS.lookup (sigstore_dir env) T = Some (FS.remove ["root"; "targets"] s).

(** Every call of [tuf.Initialize] in the trace that left a trust store
    has its trust store on disk. *)
Definition store_kept (env : Env) (mirror : string) (w : World) : Prop :=
  forall root e s,
    In (EvTufInitialize mirror root e) (trace w) ->
    fst (env_tuf_initialize env mirror root) = Some s ->
    store_left env s (fs w).

(* ================================================================== *)
(** * Part II: properties *)
(* ================================================================== *)

(** ** Base64 *)

Section Base64Facts.
Import Base64.

Lemma dec_enc (x : sextet) : dec (enc x) = Some x.
Proof.
  destruct x as [[[[[b5 b4] b3] b2] b1] b0].
  destruct b5, b4, b3, b2, b1, b0; reflexivity.
Qed.

Lemma enc_not_pad (x : sextet) : Ascii.eqb (enc x) pad = false.
Proof.
  destruct x as [[[[[b5 b4] b3] b2] b1] b0].
  destruct b5, b4, b3, b2, b1, b0; reflexivity.
Qed.

Lemma pad_is_pad : Ascii.eqb pad pad = true.
Proof. reflexivity. Qed.

(** Decoding undoes encoding, by induction on the number of bytes, three
    at a time. *)
Lemma decode_encode_bounded (n : nat) :
  forall data, (String.length data < n)%nat ->
    DecodeString (EncodeToString data) = Some data.
Proof.
  induction n as [|n IH]; intros data Hlen; [lia|].
  destruct data as [|[a0 a1 a2 a3 a4 a5 a6 a7] [|[b0 b1 b2 b3 b4 b5 b6 b7]
                    [|[c0 c1 c2 c3 c4 c5 c6 c7] rest]]];
    cbn [EncodeToString DecodeString].
  - reflexivity.
  - rewrite !dec_enc, !pad_is_pad. reflexivity.
  - rewrite !dec_enc, pad_is_pad, enc_not_pad. reflexivity.
  - rewrite !dec_enc, enc_not_pad.
    rewrite IH by (cbn [String.length] in Hlen; lia).
    reflexivity.
Qed.

Lemma decode_encode (data : string) :
  DecodeString (EncodeToString data) = Some data.
Proof. apply (decode_encode_bounded (S (String.length data))). lia. Qed.

Lemma std_char_enc (x : sextet) : std_char (enc x) = true.
Proof.
  destruct x as [[[[[b5 b4] b3] b2] b1] b0].
  destruct b5, b4, b3, b2, b1, b0; reflexivity.
Qed.

Lemma encode_alphabet_bounded (n : nat) :
  forall data, (String.length data < n)%nat ->
    forallb std_char (list_ascii_of_string (EncodeToString data)) = true.
Proof.
  induction n as [|n IH]; intros data Hlen; [lia|].
  destruct data as [|[a0 a1 a2 a3 a4 a5 a6 a7] [|[b0 b1 b2 b3 b4 b5 b6 b7]
                    [|[c0 c1 c2 c3 c4 c5 c6 c7] rest]]];
    cbn [EncodeToString list_ascii_of_string forallb];
    rewrite ?std_char_enc; try reflexivity.
  rewrite IH by (cbn [String.length] in Hlen; lia). reflexivity.
Qed.

Lemma encode_alphabet (data : string) :
  forallb std_char (list_ascii_of_string (EncodeToString data)) = true.
Proof. apply (encode_alphabet_bounded (S (String.length data))). lia. Qed.

(** Four characters for every three bytes, the last group padded: the
    output has no line breaks and no other separators. *)
Lemma encode_length_bounded (n : nat) :
  forall data, (String.length data < n)%nat ->
    String.length (EncodeToString data) = (4 * ((String.length data + 2) / 3))%nat.
Proof.
  induction n as [|n IH]; intros data Hlen; [lia|].
  destruct data as [|[a0 a1 a2 a3 a4 a5 a6 a7] [|[b0 b1 b2 b3 b4 b5 b6 b7]
                    [|[c0 c1 c2 c3 c4 c5 c6 c7] rest]]];
    cbn [EncodeToString String.length]; try reflexivity.
  rewrite IH by (cbn [String.length] in Hlen; lia).
  replace (S (S (S (String.length rest))) + 2)%nat
    with (1 * 3 + (String.length rest + 2))%nat by lia.
  rewrite Nat.div_add_l by lia. lia.
Qed.

End Base64Facts.

(** ** Sorting and the greatest element *)

Section SortFacts.

Lemma leb_refl (s : string) : String.leb s s = true.
Proof.
  pose proof (reflexivity (R := String.le) s) as H.
  unfold String.le in H. destruct (String.leb s s); [reflexivity | contradiction].
Qed.

Lemma leb_trans (a b c : string) :
  String.leb a b = true -> String.leb b c = true -> String.leb a c = true.
Proof.
  intros Hab Hbc.
  assert (H : String.le a c).
  { transitivity b; unfold String.le; [rewrite Hab | rewrite Hbc]; exact I. }
  unfold String.le in H. destruct (String.leb a c); [reflexivity | contradiction].
Qed.

Lemma leb_false_flip (a b : string) :
  String.leb a b = false -> String.leb b a = true.
Proof.
  intros H. destruct (String.leb_total a b) as [H1 | H1]; congruence.
Qed.

Lemma insert_sorted_perm (x : string) (l : list string) :
  Permutation (Str.insert_sorted x l) (x :: l).
Proof.
  induction l as [|y l IH]; cbn [Str.insert_sorted]; [reflexivity|].
  destruct (String.leb x y); [reflexivity|].
  rewrite IH. apply perm_swap.
Qed.

Lemma sort_Strings_perm (l : list string) : Permutation (Str.sort_Strings l) l.
Proof.
  induction l as [|x l IH]; cbn [Str.sort_Strings fold_right]; [reflexivity|].
  rewrite insert_sorted_perm. now constructor.
Qed.

Lemma insert_sorted_In (x y : string) (l : list string) :
  In y (Str.insert_sorted x l) <-> y = x \/ In y l.
Proof.
  induction l as [|z l IH]; cbn [Str.insert_sorted].
  - cbn [In]. intuition.
  - destruct (String.leb x z); cbn [In]; [intuition|].
    rewrite IH. intuition.
Qed.

Lemma insert_sorted_asc (x : string) (l : list string) :
  Str.ascending l -> Str.ascending (Str.insert_sorted x l).
Proof.
  induction 1 as [|z l Hz Hl IH]; cbn [Str.insert_sorted].
  - constructor; [intros y []| constructor].
  - destruct (String.leb x z) eqn:Hxz.
    + constructor; [|now constructor].
      intros y [<- | Hy]; [exact Hxz|].
      apply leb_trans with z; auto.
    + constructor; [|exact IH].
      intros y Hy. apply insert_sorted_In in Hy as [-> | Hy]; auto.
      now apply leb_false_flip.
Qed.

Lemma sort_Strings_asc (l : list string) : Str.ascending (Str.sort_Strings l).
Proof.
  induction l as [|x l IH]; cbn [Str.sort_Strings fold_right]; [constructor|].
  now apply insert_sorted_asc.
Qed.

Lemma nth_last_In (l : list string) :
  l <> [] -> In (nth (List.length l - 1) l EmptyString) l.
Proof.
  intros Hl. apply List.nth_In. destruct l; [congruence | cbn [List.length]; lia].
Qed.

Lemma ascending_last_max (l : list string) :
  Str.ascending l ->
  forall y, In y l -> String.leb y (nth (List.length l - 1) l EmptyString) = true.
Proof.
  induction 1 as [|x l Hx Hl IH]; intros y Hy; [destruct Hy|].
  destruct l as [|z l'].
  - destruct Hy as [<- | []]. apply leb_refl.
  - replace (List.length (x :: z :: l') - 1)%nat
      with (S (List.length (z :: l') - 1)) by (cbn [List.length]; lia).
    change (nth (S (List.length (z :: l') - 1)) (x :: z :: l') EmptyString)
      with (nth (List.length (z :: l') - 1) (z :: l') EmptyString).
    destruct Hy as [<- | Hy]; [|now apply IH].
    apply Hx. apply nth_last_In. discriminate.
Qed.

(** The last element of the sorted list is a member of the list and is
    byte-wise greater than or equal to every member. *)
Lemma sorted_last_greatest (files : list string) :
  files <> [] ->
  let latest := nth (List.length (Str.sort_Strings files) - 1)
                    (Str.sort_Strings files) EmptyString in
  In latest files /\ forall f, In f files -> String.leb f latest = true.
Proof.
  intros Hne latest.
  assert (Hne' : Str.sort_Strings files <> []).
  { intros E. pose proof (sort_Strings_perm files) as P. rewrite E in P.
    apply Permutation_nil in P. congruence. }
  split.
  - apply (Permutation_in _ (sort_Strings_perm files)).
    now apply nth_last_In.
  - intros f Hf. apply ascending_last_max; [apply sort_Strings_asc|].
    apply (Permutation_in _ (Permutation_sym (sort_Strings_perm files))). exact Hf.
Qed.

End SortFacts.

(** ** Strings *)

Section StringFacts.

Lemma sapp_cons (c : ascii) (s t : string) : String c s +:+ t = String c (s +:+ t).
Proof. reflexivity. Qed.

Lemma sapp_nil_l (s : string) : EmptyString +:+ s = s.
Proof. reflexivity. Qed.

Lemma sapp_nil_r (s : string) : s +:+ EmptyString = s.
Proof. induction s as [|c s IH]; [reflexivity|]. rewrite sapp_cons, IH. reflexivity. Qed.

Lemma sapp_assoc (s t u : string) : (s +:+ t) +:+ u = s +:+ (t +:+ u).
Proof. induction s as [|c s IH]; [reflexivity|]. rewrite !sapp_cons, IH. reflexivity. Qed.

Lemma sapp_length (s t : string) :
  String.length (s +:+ t) = (String.length s + String.length t)%nat.
Proof.
  induction s as [|c s IH]; [reflexivity|].
  rewrite sapp_cons. cbn [String.length]. rewrite IH. reflexivity.
Qed.

Lemma strip_prefix_Some (p s r : string) :
  Str.strip_prefix p s = Some r <-> s = p +:+ r.
Proof.
  revert s; induction p as [|a p IH]; intros s; cbn [Str.strip_prefix].
  - rewrite sapp_nil_l. split; congruence.
  - destruct s as [|b s]; rewrite sapp_cons.
    + split; discriminate.
    + destruct (Ascii.eqb_spec a b) as [-> | Hne].
      * rewrite IH. split; congruence.
      * split; [discriminate | congruence].
Qed.

Lemma has_prefix_true (p s : string) :
  Str.has_prefix p s = true <-> exists r, s = p +:+ r.
Proof.
  unfold Str.has_prefix. destruct (Str.strip_prefix p s) as [r|] eqn:E.
  - apply strip_prefix_Some in E. split; eauto.
  - split; [discriminate|]. intros [r Hr].
    apply strip_prefix_Some in Hr. congruence.
Qed.

Lemma has_prefix_app (p r : string) : Str.has_prefix p (p +:+ r) = true.
Proof. apply has_prefix_true. eauto. Qed.

Lemma all_digits_cons (c : ascii) (s : string) :
  Str.all_digits (String c s) = Str.is_digit c && Str.all_digits s.
Proof. reflexivity. Qed.

End StringFacts.

(** ** The matcher finds the leftmost match *)

Section RegexpFacts.

Lemma match_here_sound (lit s m : string) :
  Regexp.match_here lit s = Some m ->
  exists ds post, ds <> EmptyString /\ Str.all_digits ds = true /\
                  m = ds +:+ lit /\ s = m +:+ post.
Proof.
  revert m; induction s as [|c s IH]; intros m; cbn [Regexp.match_here]; [discriminate|].
  destruct (Str.is_digit c) eqn:Hc; [|discriminate].
  destruct (Regexp.match_here lit s) as [m'|] eqn:Hm.
  - intros [= <-]. destruct (IH m' eq_refl) as (ds & post & Hne & Hds & -> & ->).
    exists (String c ds), post. repeat split; try discriminate.
    rewrite all_digits_cons, Hc, Hds. reflexivity.
  - destruct (Str.has_prefix lit s) eqn:Hp; [|discriminate].
    intros [= <-]. apply has_prefix_true in Hp as [r ->].
    exists (String c EmptyString), r. repeat split; try discriminate.
    rewrite all_digits_cons, Hc. reflexivity.
Qed.

(** The literal starts with a dot, which is not a digit: the digits of a
    match are a maximal run, and no shorter run can be followed by the
    literal. *)
Lemma match_here_complete (p ds post : string) :
  ds <> EmptyString -> Str.all_digits ds = true ->
  Regexp.match_here (Regexp.literal p) (ds +:+ Regexp.literal p +:+ post)
  = Some (ds +:+ Regexp.literal p).
Proof.
  induction ds as [|c ds IH]; intros Hne Hds; [congruence|].
  rewrite all_digits_cons in Hds. apply andb_true_iff in Hds as [Hc Hds].
  rewrite !sapp_cons. cbn [Regexp.match_here]. rewrite Hc.
  destruct ds as [|d ds'].
  - rewrite !sapp_nil_l.
    assert (E : Regexp.match_here (Regexp.literal p) (Regexp.literal p +:+ post) = None)
      by reflexivity.
    rewrite E, has_prefix_app. reflexivity.
  - rewrite IH by (auto; discriminate). reflexivity.
Qed.

Lemma match_here_candidate (p s m : string) :
  Regexp.match_here (Regexp.literal p) s = Some m ->
  match_at p s 0 m.
Proof.
  intros H. apply match_here_sound in H as (ds & post & Hne & Hds & -> & ->).
  split; [exists ds; auto|].
  exists EmptyString, post. rewrite sapp_nil_l. auto.
Qed.

Lemma match_at_0_here (p s m : string) :
  match_at p s 0 m -> Regexp.match_here (Regexp.literal p) s = Some m.
Proof.
  intros [(ds & Hne & Hds & ->) (pre & post & -> & Hlen)].
  destruct pre; [|discriminate]. rewrite sapp_nil_l, sapp_assoc.
  now apply match_here_complete.
Qed.

Lemma match_at_S (p : string) (c : ascii) (s : string) (i : nat) (m : string) :
  match_at p (String c s) (S i) m <-> match_at p s i m.
Proof.
  unfold match_at. split; intros [Hc (pre & post & E & Hlen)]; split; auto.
  - destruct pre as [|c' pre]; [discriminate|].
    rewrite sapp_cons in E. injection E as -> ->.
    exists pre, post. cbn [String.length] in Hlen. split; [reflexivity | lia].
  - exists (String c pre), post. rewrite sapp_cons, E. cbn [String.length].
    split; [reflexivity | lia].
Qed.

Lemma match_at_empty (p : string) (i : nat) (m : string) :
  ~ match_at p EmptyString i m.
Proof.
  intros [(ds & Hne & _ & ->) (pre & post & E & _)].
  destruct pre; [|discriminate]. destruct ds; [congruence | discriminate].
Qed.

Lemma match_at_tail (p : string) (c : ascii) (s : string) (i : nat) (m : string) :
  match_at p (String c s) (S i) m -> match_at p s i m.
Proof. apply match_at_S. Qed.

Lemma match_at_skip (p : string) (c : ascii) (s : string) (i : nat) (m : string) :
  match_at p s i m -> match_at p (String c s) (S i) m.
Proof. apply match_at_S. Qed.

Lemma find_leftmost (p line m : string) :
  Regexp.find (Regexp.literal p) line = Some m <-> leftmost_match p line m.
Proof.
  revert m; induction line as [|c line IH]; intros m.
  - cbn. split; [discriminate|]. intros (i & H & _). now apply match_at_empty in H.
  - cbn [Regexp.find].
    destruct (Regexp.match_here (Regexp.literal p) (String c line)) as [m0|] eqn:Hm.
    + pose proof (match_here_candidate _ _ _ Hm) as H0. split.
      * intros [= <-]. exists 0%nat. split; [exact H0 | intros; lia].
      * intros (i & Hi & Hmin). pose proof (Hmin _ _ H0) as Hle.
        assert (i = 0)%nat as -> by lia.
        apply match_at_0_here in Hi. congruence.
    + rewrite IH. split.
      * intros (i & Hi & Hmin). exists (S i). split; [now apply match_at_skip|].
        intros [|j] m' Hj.
        -- apply match_at_0_here in Hj. congruence.
        -- apply match_at_tail in Hj. apply Hmin in Hj. lia.
      * intros ([|i] & Hi & Hmin).
        -- apply match_at_0_here in Hi. congruence.
        -- exists i. split; [now apply match_at_tail in Hi|].
           intros j m' Hj. apply (match_at_skip p c) in Hj.
           apply Hmin in Hj. lia.
Qed.

Lemma find_None (p line : string) :
  Regexp.find (Regexp.literal p) line = None <-> forall i m, ~ match_at p line i m.
Proof.
  induction line as [|c line IH].
  - cbn. split; auto. intros _ i m. apply match_at_empty.
  - cbn [Regexp.find].
    destruct (Regexp.match_here (Regexp.literal p) (String c line)) as [m0|] eqn:Hm.
    + split; [discriminate|]. intros H. apply match_here_candidate in Hm.
      now apply H in Hm.
    + rewrite IH. split.
      * intros H [|i] m Hi.
        -- apply match_at_0_here in Hi. congruence.
        -- apply match_at_tail in Hi. now apply H in Hi.
      * intros H i m Hi. apply (H (S i) m). now apply match_at_skip.
Qed.

Lemma collect_matches_spec (p : string) (lines files : list string) :
  collect_matches p lines files = files ++ concat (map (first_match p) lines).
Proof.
  revert files; induction lines as [|line lines IH]; intros files;
    cbn [collect_matches map concat].
  - now rewrite List.app_nil_r.
  - unfold Regexp.FindStringSubmatch, first_match.
    destruct (Regexp.find (Regexp.literal p) line) as [m|]; cbn.
    + rewrite IH, <- List.app_assoc. reflexivity.
    + apply IH.
Qed.

Lemma listMetadataFilenames_In (body p m : string) :
  In m (listMetadataFilenames body p) <->
  exists line, In line (Str.Split newline body) /\ leftmost_match p line m.
Proof.
  unfold listMetadataFilenames. rewrite collect_matches_spec, List.app_nil_l.
  rewrite List.in_concat. split.
  - intros (l & Hl & Hm). apply List.in_map_iff in Hl as (line & <- & Hline).
    exists line. split; [exact Hline|]. apply find_leftmost.
    unfold first_match in Hm.
    destruct (Regexp.find (Regexp.literal p) line); [|destruct Hm].
    destruct Hm as [-> | []]. reflexivity.
  - intros (line & Hline & Hm). apply find_leftmost in Hm.
    exists (first_match p line). split; [apply List.in_map; exact Hline|].
    unfold first_match. rewrite Hm. now left.
Qed.

End RegexpFacts.

(** ** Byte-wise order and numeric order of version numbers *)

Section VersionFacts.

Lemma decimal_acc_shift (s : string) (acc : N) :
  Str.decimal_acc acc s = (acc * 10 ^ N.of_nat (String.length s) + Str.decimal s)%N.
Proof.
  unfold Str.decimal. revert acc; induction s as [|c s IH]; intros acc;
    cbn [Str.decimal_acc String.length].
  - change (N.of_nat 0) with 0%N. rewrite N.pow_0_r. lia.
  - rewrite IH, (IH (10 * 0 + Str.digit_val c)%N).
    rewrite Nat2N.inj_succ, N.pow_succ_r'. lia.
Qed.

Lemma decimal_cons (c : ascii) (s : string) :
  Str.decimal (String c s)
  = (Str.digit_val c * 10 ^ N.of_nat (String.length s) + Str.decimal s)%N.
Proof.
  unfold Str.decimal at 1. cbn [Str.decimal_acc]. rewrite decimal_acc_shift.
  replace (10 * 0 + Str.digit_val c)%N with (Str.digit_val c) by lia.
  reflexivity.
Qed.

Lemma is_digit_range (c : ascii) :
  Str.is_digit c = true -> (48 <= N_of_ascii c <= 57)%N.
Proof.
  unfold Str.is_digit, nat_of_ascii. intros H.
  apply andb_true_iff in H as [H1 H2].
  apply Nat.leb_le in H1, H2. lia.
Qed.

Lemma digit_val_bound (c : ascii) : Str.is_digit c = true -> (Str.digit_val c <= 9)%N.
Proof. intros H. apply is_digit_range in H. unfold Str.digit_val. lia. Qed.

Lemma decimal_bound (s : string) :
  Str.all_digits s = true -> (Str.decimal s < 10 ^ N.of_nat (String.length s))%N.
Proof.
  induction s as [|c s IH]; intros H.
  - cbn. lia.
  - rewrite all_digits_cons in H. apply andb_true_iff in H as [Hc Hs].
    rewrite decimal_cons. cbn [String.length].
    rewrite Nat2N.inj_succ, N.pow_succ_r'.
    pose proof (digit_val_bound c Hc). specialize (IH Hs). nia.
Qed.

(** On digit strings of one length, byte-wise order is numeric order,
    whatever follows the digits. *)
Lemma leb_digits_numeric (a b r r' : string) :
  Str.all_digits a = true -> Str.all_digits b = true ->
  String.length a = String.length b ->
  String.leb (a +:+ r) (b +:+ r') = true ->
  (Str.decimal a <= Str.decimal b)%N.
Proof.
  revert b; induction a as [|c a IH]; intros [|d b] Ha Hb Hlen Hle;
    cbn [String.length] in Hlen; try lia.
  rewrite all_digits_cons in Ha, Hb.
  apply andb_true_iff in Ha as [Hc Ha]. apply andb_true_iff in Hb as [Hd Hb].
  injection Hlen as Hlen.
  rewrite !decimal_cons, <- Hlen.
  rewrite !sapp_cons in Hle. unfold String.leb in Hle. cbn [String.compare] in Hle.
  unfold Ascii.compare in Hle.
  pose proof (is_digit_range c Hc). pose proof (is_digit_range d Hd).
  pose proof (decimal_bound a Ha) as Ba. pose proof (decimal_bound b Hb) as Bb.
  rewrite <- Hlen in Bb.
  destruct (N.compare_spec (N_of_ascii c) (N_of_ascii d)) as [E | L | G].
  - assert (Str.decimal a <= Str.decimal b)%N.
    { apply (IH b); [assumption .. | exact Hle]. }
    unfold Str.digit_val. rewrite E. lia.
  - unfold Str.digit_val. nia.
  - discriminate.
Qed.

Lemma leading_digits_app (ds rest : string) :
  Str.all_digits ds = true ->
  Str.leading_digits (ds +:+ rest) = ds +:+ Str.leading_digits rest.
Proof.
  induction ds as [|c ds IH]; intros H; [reflexivity|].
  rewrite all_digits_cons in H. apply andb_true_iff in H as [Hc Hs].
  rewrite !sapp_cons. cbn [Str.leading_digits]. rewrite Hc, IH by exact Hs.
  reflexivity.
Qed.

Lemma candidate_leading_digits (p m : string) :
  candidate p m ->
  exists ds, m = ds +:+ Regexp.literal p /\ Str.leading_digits m = ds /\
             Str.all_digits ds = true /\ ds <> EmptyString.
Proof.
  intros (ds & Hne & Hds & ->). exists ds. repeat split; auto.
  rewrite leading_digits_app by exact Hds.
  change (Str.leading_digits (Regexp.literal p)) with EmptyString.
  apply sapp_nil_r.
Qed.

Lemma candidates_leb_version (p f g : string) :
  candidate p f -> candidate p g ->
  digit_length f = digit_length g ->
  String.leb f g = true ->
  (version_of f <= version_of g)%N.
Proof.
  intros Hf Hg Hlen Hle. unfold version_of, digit_length in *.
  apply candidate_leading_digits in Hf as (a & -> & Ea & Ha & _).
  apply candidate_leading_digits in Hg as (b & -> & Eb & Hb & _).
  rewrite Ea, Eb in *.
  now apply (leb_digits_numeric a b (Regexp.literal p) (Regexp.literal p)).
Qed.

Lemma leftmost_candidate (p line m : string) :
  leftmost_match p line m -> candidate p m.
Proof. intros (i & [H _] & _). exact H. Qed.

Lemma listMetadataFilenames_candidate (body p m : string) :
  In m (listMetadataFilenames body p) -> candidate p m.
Proof.
  intros H. apply listMetadataFilenames_In in H as (line & _ & H).
  now apply leftmost_candidate in H.
Qed.

End VersionFacts.

(** ** [GetLatestMetadataName] *)

Section ResolverFacts.

Variables (env : Env) (w : World) (mirror metadataPattern : string).


Lemma GetLatestMetadataName_trace (name : string) (err : option error) (w' : World) :
  GetLatestMetadataName mirror metadataPattern env w = (Val (name, err), w') ->
  w' = resolved_world w mirror metadataPattern (env_http env (gets w) mirror) name err.
Proof.
  unfold GetLatestMetadataName, bind, http_Get, ret, emit, resolved_world. cbn.
  destruct (env_http env (gets w) mirror) as [e | resp]; cbn.
  - intros [= <- <- <-]. now rewrite <- List.app_assoc.
  - destruct (negb (StatusCode resp =? StatusOK)%Z); cbn.
    + intros [= <- <- <-]. now rewrite <- List.app_assoc.
    + destruct (BodyErr resp); cbn.
      * intros [= <- <- <-]. now rewrite <- List.app_assoc.
      * destruct (Nat.eqb _ 0); cbn; intros [= <- <- <-]; now rewrite <- List.app_assoc.
Qed.

Lemma GetLatestMetadataName_total :
  exists name err w',
    GetLatestMetadataName mirror metadataPattern env w = (Val (name, err), w').
Proof.
  unfold GetLatestMetadataName, bind, http_Get, ret, emit. cbn.
  destruct (env_http env (gets w) mirror) as [e | resp]; cbn; eauto.
  destruct (negb (StatusCode resp =? StatusOK)%Z); cbn; eauto.
  destruct (BodyErr resp); cbn; eauto.
  destruct (Nat.eqb _ 0); cbn; eauto.
Qed.

Lemma GetLatestMetadataName_ok (resp : Response) :
  env_http env (gets w) mirror = GetOK resp ->
  StatusCode resp = 200%Z -> BodyErr resp = None ->
  listMetadataFilenames (Body resp) metadataPattern <> [] ->
  let files := Str.sort_Strings (listMetadataFilenames (Body resp) metadataPattern) in
  let latest := nth (List.length files - 1) files EmptyString in
  GetLatestMetadataName mirror metadataPattern env w
  = (Val (latest, None), resolved_world w mirror metadataPattern (GetOK resp) latest None).
Proof.
  intros Hget Hst Hbody Hne files latest.
  unfold GetLatestMetadataName, bind, http_Get, ret, emit, resolved_world. cbn.
  rewrite Hget. cbn. rewrite Hst, Hbody. cbn.
  destruct (listMetadataFilenames (Body resp) metadataPattern) eqn:E; [congruence|].
  cbn [List.length Nat.eqb]. cbn. now rewrite <- List.app_assoc.
Qed.

Lemma GetLatestMetadataName_empty (resp : Response) :
  env_http env (gets w) mirror = GetOK resp ->
  StatusCode resp = 200%Z -> BodyErr resp = None ->
  listMetadataFilenames (Body resp) metadataPattern = [] ->
  GetLatestMetadataName mirror metadataPattern env w
  = (Val (EmptyString, Some (ErrorfNoMatch metadataPattern)),
     resolved_world w mirror metadataPattern (GetOK resp) EmptyString (Some (ErrorfNoMatch metadataPattern))).
Proof.
  intros Hget Hst Hbody Hnil.
  unfold GetLatestMetadataName, bind, http_Get, ret, emit, resolved_world. cbn.
  rewrite Hget. cbn. rewrite Hst, Hbody, Hnil. cbn. now rewrite <- List.app_assoc.
Qed.

(** A name comes with no error, and an error with the empty name. *)
Lemma GetLatestMetadataName_name_xor_error (name : string) (err : option error) (w' : World) :
  GetLatestMetadataName mirror metadataPattern env w = (Val (name, err), w') ->
  (err = None /\ candidate metadataPattern name) \/ (err <> None /\ name = EmptyString).
Proof.
  unfold GetLatestMetadataName, bind, http_Get, ret, emit. cbn.
  destruct (env_http env (gets w) mirror) as [e | resp]; cbn.
  - intros [= <- <- _]. right. split; [discriminate | reflexivity].
  - destruct (negb (StatusCode resp =? StatusOK)%Z); cbn.
    + intros [= <- <- _]. right. split; [discriminate | reflexivity].
    + destruct (BodyErr resp); cbn.
      * intros [= <- <- _]. right. split; [discriminate | reflexivity].
      * destruct (listMetadataFilenames (Body resp) metadataPattern) as [|f fs] eqn:E; cbn.
        -- intros [= <- <- _]. right. split; [discriminate | reflexivity].
        -- intros [= <- <- _]. left. split; [reflexivity|].
           apply (listMetadataFilenames_candidate (Body resp)).
           rewrite E. apply (sorted_last_greatest (f :: fs)). discriminate.
Qed.

End ResolverFacts.

(** ** Claims about the parser and the resolver *)

(** C3, as stated, fails: of two matches on one line only the first is
    collected.  In the one-line body ["1.root.json 2.root.json"] the text
    ["2.root.json"] matches the expression at offset 12, and it is not in
    the list the parser returns. *)
Lemma parser_skips_later_match_on_line :
  ~ (forall m,
       (exists line i, In line (Str.Split newline "1.root.json 2.root.json") /\
                       match_at "root.json" line i m) ->
       In m (listMetadataFilenames "1.root.json 2.root.json" "root.json")).
Proof.
  intros H. specialize (H "2.root.json").
  assert (Hin : In "2.root.json" (listMetadataFilenames "1.root.json 2.root.json" "root.json")).
  { apply H. exists "1.root.json 2.root.json", 12%nat. split; [now left|].
    split.
    - exists "2". repeat split; discriminate.
    - exists "1.root.json ", EmptyString. split; reflexivity. }
  vm_compute in Hin. destruct Hin as [Hin | []]. discriminate.
Qed.

(** C3, amended: the parser splits the body at newlines and takes from
    each line at most one text, the leftmost match of "digits, dot,
    pattern"; the list holds these texts in line order, one for each line
    that has a match. *)
Theorem parser_collects_leftmost_match_per_line (body metadataPattern : string) :
  listMetadataFilenames body metadataPattern
  = concat (map (first_match metadataPattern) (Str.Split newline body))
  /\ (forall line m, first_match metadataPattern line = [m]
                     <-> leftmost_match metadataPattern line m)
  /\ (forall line, first_match metadataPattern line = []
                   <-> forall i m, ~ match_at metadataPattern line i m)
  /\ (forall m, In m (listMetadataFilenames body metadataPattern)
                <-> exists line, In line (Str.Split newline body) /\
                                 leftmost_match metadataPattern line m).
Proof.
  split; [|split; [|split]].
  - unfold listMetadataFilenames. now rewrite collect_matches_spec.
  - intros line m. rewrite <- find_leftmost. unfold first_match.
    destruct (Regexp.find _ line); split; congruence.
  - intros line. rewrite <- find_None. unfold first_match.
    destruct (Regexp.find _ line); split; congruence.
  - apply listMetadataFilenames_In.
Qed.

(** C1: on a listing with at least one candidate, the resolver returns,
    without error, a candidate that is byte-wise greater than or equal to
    every candidate; when all candidates have version numbers of one
    length, it has the greatest version number; and a listing whose
    root candidates are [1.root.json] and [2.root.json] resolves
    [root.json] to [2.root.json]. *)
Theorem latest_metadata_name_is_greatest
    (env : Env) (w : World) (mirror metadataPattern : string) (resp : Response) :
  env_http env (gets w) mirror = GetOK resp ->
  StatusCode resp = 200%Z -> BodyErr resp = None ->
  listMetadataFilenames (Body resp) metadataPattern <> [] ->
  let files := listMetadataFilenames (Body resp) metadataPattern in
  exists latest w',
    GetLatestMetadataName mirror metadataPattern env w = (Val (latest, None), w')
    /\ In latest files
    /\ (forall f, In f files -> String.leb f latest = true)
    /\ ((forall f, In f files -> digit_length f = digit_length latest) ->
        forall f, In f files -> (version_of f <= version_of latest)%N)
    /\ (metadataPattern = "root.json" ->
        (forall f, In f files <-> f = "1.root.json" \/ f = "2.root.json") ->
        latest = "2.root.json").
Proof.
  intros Hget Hst Hbody Hne files.
  pose proof (GetLatestMetadataName_ok env w mirror metadataPattern resp
                Hget Hst Hbody Hne) as Hrun.
  cbv zeta in Hrun.
  destruct (sorted_last_greatest files Hne) as [Hin Hmax].
  set (latest := nth (List.length (Str.sort_Strings files) - 1)
                     (Str.sort_Strings files) EmptyString) in *.
  exists latest, (resolved_world w mirror metadataPattern (GetOK resp) latest None).
  split; [exact Hrun|]. split; [exact Hin|]. split; [exact Hmax|]. split.
  - intros Hlen f Hf.
    apply (candidates_leb_version metadataPattern); auto.
    + now apply (listMetadataFilenames_candidate (Body resp)).
    + now apply (listMetadataFilenames_candidate (Body resp)).
  - intros _ Hfiles.
    assert (H2 : In "2.root.json" files) by (apply Hfiles; now right).
    apply Hmax in H2. apply Hfiles in Hin as [E | E]; [|exact E].
    rewrite E in H2. discriminate.
Qed.

Lemma latest_metadata_name_is_greatest_witness :
  exists latest w',
    GetLatestMetadataName Sample.mirror "root.json" Sample.env (initial Sample.disk)
    = (Val (latest, None), w')
    /\ latest = "2.root.json".
Proof.
  destruct (latest_metadata_name_is_greatest Sample.env (initial Sample.disk)
              Sample.mirror "root.json" (mkResponse 200 Sample.listing None))
    as (latest & w' & Hrun & _ & _ & _ & Hscen);
    [reflexivity | reflexivity | reflexivity | vm_compute; discriminate |].
  exists latest, w'. split; [exact Hrun|].
  apply Hscen; [reflexivity|].
  intros f. vm_compute. intuition.
Defined.

(** C4: when no line of the listing has a match, the resolver returns the
    empty name together with an error; no name is ever returned with an
    error, and no empty name without one. *)
Theorem empty_candidate_set_is_an_error
    (env : Env) (w : World) (mirror metadataPattern : string) (resp : Response) :
  env_http env (gets w) mirror = GetOK resp ->
  StatusCode resp = 200%Z -> BodyErr resp = None ->
  (forall line, In line (Str.Split newline (Body resp)) ->
     forall i m, ~ match_at metadataPattern line i m) ->
  listMetadataFilenames (Body resp) metadataPattern = []
  /\ (exists w', GetLatestMetadataName mirror metadataPattern env w
                 = (Val (EmptyString, Some (ErrorfNoMatch metadataPattern)), w'))
  /\ (forall name err w',
        GetLatestMetadataName mirror metadataPattern env w = (Val (name, err), w') ->
        name = EmptyString /\ err <> None).
Proof.
  intros Hget Hst Hbody Hnone.
  assert (Hnil : listMetadataFilenames (Body resp) metadataPattern = []).
  { destruct (listMetadataFilenames (Body resp) metadataPattern) as [|m l] eqn:E; [reflexivity|].
    assert (Hm : In m (listMetadataFilenames (Body resp) metadataPattern))
      by (rewrite E; now left).
    apply listMetadataFilenames_In in Hm as (line & Hline & i & Hi & _).
    now apply (Hnone line Hline i m) in Hi. }
  pose proof (GetLatestMetadataName_empty env w mirror metadataPattern resp
                Hget Hst Hbody Hnil) as Hrun.
  split; [exact Hnil|]. split; [eauto|].
  intros name err w' H. rewrite Hrun in H. injection H as <- <- _.
  split; [reflexivity | discriminate].
Qed.

Lemma empty_candidate_set_is_an_error_witness :
  exists w', GetLatestMetadataName Sample.mirror "root.json"
               (Sample.serving "index of /") (initial Sample.disk)
             = (Val (EmptyString, Some (ErrorfNoMatch "root.json")), w').
Proof.
  refine (proj1 (proj2 (empty_candidate_set_is_an_error
            (Sample.serving "index of /") (initial Sample.disk) Sample.mirror "root.json"
            (mkResponse 200 "index of /" None) eq_refl eq_refl eq_refl _))).
  intros line Hline i m Hm.
  assert (E : Regexp.find (Regexp.literal "root.json") line = None).
  { destruct Hline as [<- | []]. reflexivity. }
  apply (proj1 (find_None "root.json" line) E i m Hm).
Defined.

(** ** Claims about the encoder *)

Lemma EncodeBase64_run (env : Env) (w : World) (p : path) (data : string) :
  FS.lookup p (fs w) = Some (File data) ->
  EncodeBase64 (Handle p) env w
  = (Val (Base64.EncodeToString data, None),
     mkWorld (fs w) (gets w) (temps w)
       (trace w ++ [EvReadFile p None] ++ [EvReturned "EncodeBase64" None])).
Proof.
  intros H. unfold EncodeBase64, File_Name, os_ReadFile, bind, ret, get_fs, emit. cbn.
  rewrite H. cbn. now rewrite <- List.app_assoc.
Qed.

(** C7: on a file holding any bytes, [EncodeBase64] returns, without
    error, the standard base64 text of the bytes: decoding it gives the
    bytes back, it is made of the 64 characters of the standard alphabet
    and [=], four for every three bytes with nothing in between; the
    empty file gives the empty string, and ["hello world"] gives
    ["aGVsbG8gd29ybGQ="]. *)
Theorem encode_base64_roundtrip (env : Env) (w : World) (p : path) (data : string) :
  FS.lookup p (fs w) = Some (File data) ->
  exists encoded w',
    EncodeBase64 (Handle p) env w = (Val (encoded, None), w')
    /\ fs w' = fs w
    /\ encoded = Base64.EncodeToString data
    /\ Base64.DecodeString encoded = Some data
    /\ forallb Base64.std_char (list_ascii_of_string encoded) = true
    /\ String.length encoded = (4 * ((String.length data + 2) / 3))%nat
    /\ (data = EmptyString -> encoded = EmptyString)
    /\ (data = "hello world" -> encoded = "aGVsbG8gd29ybGQ=").
Proof.
  intros H. eexists _, _. split; [apply (EncodeBase64_run env w p data H)|].
  split; [reflexivity|]. split; [reflexivity|].
  split; [apply decode_encode|].
  split; [apply encode_alphabet|].
  split; [apply (encode_length_bounded (S (String.length data))); lia|].
  split; intros ->; reflexivity.
Qed.

Lemma encode_base64_roundtrip_witness :
  exists w',
    EncodeBase64 (Handle ["f"]) Sample.env (initial (Dir [("f", File "hello world")]))
    = (Val ("aGVsbG8gd29ybGQ=", None), w')
    /\ Base64.DecodeString "aGVsbG8gd29ybGQ=" = Some "hello world".
Proof.
  destruct (encode_base64_roundtrip Sample.env
              (initial (Dir [("f", File "hello world")])) ["f"] "hello world" eq_refl)
    as (encoded & w' & Hrun & _ & _ & Hdec & _ & _ & _ & Hhello).
  rewrite (Hhello eq_refl) in Hrun, Hdec.
  exists w'. split; [exact Hrun | exact Hdec].
Defined.

(** Every byte value survives the round trip. *)
Example all_byte_values_roundtrip :
  let data := string_of_list_ascii (map ascii_of_nat (seq 0 256)) in
  String.length data = 256%nat
  /\ Base64.DecodeString (Base64.EncodeToString data) = Some data.
Proof. split; [reflexivity | apply decode_encode]. Qed.

(** ** The resource name of the manifest *)

Section ManifestFacts.

Lemma replace_go_skip (old new a b : string) :
  Str.replace_go old new (String.length a) (a +:+ b) = Str.replace_go old new 0 b.
Proof.
  induction a as [|c a IH]; [destruct b; reflexivity|].
  rewrite sapp_cons. cbn [String.length Str.replace_go]. exact IH.
Qed.

Lemma replace_go_absent (old new s : string) :
  ~ Str.occurs old s -> Str.replace_go old new 0 s = s.
Proof.
  induction s as [|c s IH]; intros Hno; [reflexivity|].
  cbn [Str.replace_go].
  destruct (Str.has_prefix old (String c s)) eqn:Hp.
  - exfalso. apply Hno. apply has_prefix_true in Hp as [r Hr].
    exists EmptyString, r. now rewrite sapp_nil_l.
  - rewrite IH; [reflexivity|].
    intros (pre & post & ->). apply Hno.
    exists (String c pre), post. reflexivity.
Qed.

(** Where the address is the scheme followed by a text without the
    scheme, [ReplaceAll] strips the scheme. *)
Lemma ReplaceAll_strips_scheme (old host : string) :
  old <> EmptyString -> ~ Str.occurs old host ->
  Str.ReplaceAll (old +:+ host) old EmptyString = host.
Proof.
  intros Hne Hno. unfold Str.ReplaceAll.
  destruct old as [|c old']; [congruence|].
  rewrite sapp_cons. cbn [Str.replace_go].
  change (String c (old' +:+ host)) with (String c old' +:+ host).
  rewrite has_prefix_app, sapp_nil_l.
  replace (String.length (String c old') - 1)%nat with (String.length old')
    by (cbn [String.length]; lia).
  rewrite replace_go_skip.
  now apply replace_go_absent.
Qed.

Lemma pretty_N_char_digit (x : N) : Str.is_digit (pretty_N_char x) = true.
Proof.
  unfold pretty_N_char. destruct x as [|p]; [reflexivity|].
  do 4 (destruct p as [p|p|]; try reflexivity).
Qed.

Lemma pretty_N_go_digits (x : N) (s : string) :
  Str.all_digits s = true -> Str.all_digits (pretty_N_go x s) = true.
Proof.
  revert s. induction (N.lt_wf_0 x) as [x _ IH]; intros s Hs.
  destruct (N.eq_dec x 0%N) as [-> | Hx].
  - now rewrite pretty_N_go_0.
  - rewrite pretty_N_go_step by lia. apply IH.
    + apply N.div_lt; lia.
    + rewrite all_digits_cons, pretty_N_char_digit. exact Hs.
Qed.

Lemma pretty_N_go_nonempty (x : N) (s : string) :
  s <> EmptyString -> pretty_N_go x s <> EmptyString.
Proof.
  revert s. induction (N.lt_wf_0 x) as [x _ IH]; intros s Hs.
  destruct (N.eq_dec x 0%N) as [-> | Hx].
  - now rewrite pretty_N_go_0.
  - rewrite pretty_N_go_step by lia. apply IH; [apply N.div_lt; lia | discriminate].
Qed.

Lemma pretty_Z_digits (now : Z) :
  (0 <= now)%Z -> Str.all_digits (pretty now) = true /\ pretty now <> EmptyString.
Proof.
  intros Hnow. destruct now as [|p|p]; [split; [reflexivity | discriminate]| |lia].
  unfold pretty, pretty_Z, pretty, pretty_positive, pretty, pretty_N.
  destruct (decide (N.pos p = 0%N)) as [E|_]; [discriminate|]. split.
  - now apply pretty_N_go_digits.
  - rewrite pretty_N_go_step by lia. apply pretty_N_go_nonempty. discriminate.
Qed.

(** Two names for one mirror are equal exactly when their timestamps are. *)
Lemma resourceName_inj (mirror : string) (t1 t2 : Z) :
  resourceName mirror t1 = resourceName mirror t2 <-> t1 = t2.
Proof.
  split; [|now intros ->]. unfold resourceName. intros H.
  apply (inj (String.app _)) in H. apply (inj (String.app _)) in H.
  now apply (inj pretty) in H.
Qed.

(** A text that starts with the scheme once something that begins with a
    dash is appended already started with the scheme. *)
Lemma scheme_prefix_before_dash (host rest : string) :
  Str.has_prefix "https://" (host +:+ "-" +:+ rest) = true ->
  Str.has_prefix "https://" host = true.
Proof.
  destruct host as [|c0 [|c1 [|c2 [|c3 [|c4 [|c5 [|c6 [|c7 host]]]]]]]];
    unfold Str.has_prefix; rewrite ?sapp_cons, ?sapp_nil_l;
    cbn [Str.strip_prefix];
    repeat match goal with
           | |- context [Ascii.eqb ?a ?b] =>
               destruct (Ascii.eqb_spec a b); try discriminate; subst
           end; try discriminate; reflexivity.
Qed.

End ManifestFacts.

Lemma contains_false (old s : string) :
  Str.contains old s = false -> ~ Str.occurs old s.
Proof.
  induction s as [|c s IH]; cbn [Str.contains]; intros H (pre & post & E);
    apply orb_false_iff in H as [Hp Hs].
  - destruct pre; [|discriminate]. rewrite sapp_nil_l in E.
    rewrite E, has_prefix_app in Hp. discriminate.
  - destruct pre as [|c' pre].
    + rewrite sapp_nil_l in E. rewrite E, has_prefix_app in Hp. discriminate.
    + rewrite sapp_cons in E. injection E as _ E. apply (IH Hs).
      exists pre, post. exact E.
Qed.

(** Whether a text begins with the scheme is decided by its first eight
    bytes: behind a non-empty text, the scheme and the scheme without its
    last byte give the same answer. *)
Lemma scheme_prefix_window (c : ascii) (s rest : string) :
  Str.has_prefix "https://" (String c s +:+ "https://" +:+ rest)
  = Str.has_prefix "https://" (String c s +:+ "https:/").
Proof.
  destruct s as [|c1 [|c2 [|c3 [|c4 [|c5 [|c6 [|c7 s]]]]]]];
    unfold Str.has_prefix; rewrite ?sapp_cons, ?sapp_nil_l;
    cbn [Str.strip_prefix];
    repeat match goal with
           | |- context [Ascii.eqb ?a ?b] =>
               destruct (Ascii.eqb_spec a b); try discriminate; subst
           end; reflexivity.
Qed.

(** Up to and including the first occurrence of the scheme the scan of
    [ReplaceAll] keeps the text before the occurrence and drops the
    occurrence; it goes on behind it. *)
Lemma ReplaceAll_first_scheme (pre rest : string) :
  ~ Str.occurs "https://" (pre +:+ "https:/") ->
  Str.ReplaceAll (pre +:+ "https://" +:+ rest) "https://" EmptyString
  = pre +:+ Str.ReplaceAll rest "https://" EmptyString.
Proof.
  unfold Str.ReplaceAll.
  induction pre as [|c pre IH]; intros Hno.
  - rewrite !sapp_nil_l.
    change ("https://" +:+ rest) with (String "h" ("ttps://" +:+ rest)).
    cbn [Str.replace_go].
    change (String "h" ("ttps://" +:+ rest)) with ("https://" +:+ rest).
    rewrite has_prefix_app, sapp_nil_l.
    exact (replace_go_skip "https://" EmptyString "ttps://" rest).
  - rewrite (sapp_cons c pre). cbn [Str.replace_go].
    change (String c (pre +:+ "https://" +:+ rest))
      with (String c pre +:+ "https://" +:+ rest).
    rewrite scheme_prefix_window.
    destruct (Str.has_prefix "https://" (String c pre +:+ "https:/")) eqn:Hp.
    + exfalso. apply Hno. apply has_prefix_true in Hp as [r Hr].
      exists EmptyString, r. rewrite sapp_nil_l. exact Hr.
    + rewrite (sapp_cons c pre). f_equal. apply IH. intros (x & y & E). apply Hno.
      exists (String c x), y.
      change (String c (pre +:+ "https:/") = String c (x +:+ "https://" +:+ y)).
      now rewrite E.
Qed.

(** Whether the name begins with the scheme is decided before the dash. *)
Lemma scheme_prefix_of_stem (stem rest : string) :
  Str.has_prefix "https://" (stem +:+ "-" +:+ rest) = Str.has_prefix "https://" stem.
Proof.
  destruct (Str.has_prefix "https://" stem) eqn:E.
  - apply has_prefix_true in E as [r ->]. rewrite sapp_assoc. apply has_prefix_app.
  - destruct (Str.has_prefix "https://" (stem +:+ "-" +:+ rest)) eqn:E'; [|reflexivity].
    apply scheme_prefix_before_dash in E'. congruence.
Qed.

(** An address in which the scheme does not occur is kept as it is. *)
Lemma ReplaceAll_no_scheme (mirror : string) :
  ~ Str.occurs "https://" mirror ->
  Str.ReplaceAll mirror "https://" EmptyString = mirror.
Proof. intros Hno. unfold Str.ReplaceAll. now apply replace_go_absent. Qed.

(** ** Claims about the manifest *)

(** C8, as stated, fails: [ReplaceAll] removes the occurrences of the
    scheme it meets from left to right, and what is left can begin with
    the scheme again.  For the address
    ["https://hthttps://tps://mirror.example"] the name is
    ["https://mirror.example-1700000000"], and a run against a mirror at
    that address prints it. *)
Lemma resource_name_can_keep_scheme :
  let mirror := "https://hthttps://tps://mirror.example" in
  resourceName mirror 1700000000 = "https://mirror.example-1700000000"
  /\ Str.has_prefix "https://" (resourceName mirror 1700000000) = true
  /\ map (fun out => nth 3 (Str.Split newline out) EmptyString)
         (stdout_of (trace (snd (run (Sample.with_http (Sample.http_at mirror))
                                     mirror Sample.disk))))
     = ["  name: https://mirror.example-1700000000"].
Proof. cbv zeta. repeat split; vm_compute; reflexivity. Qed.

(** C8, amended: for every address the name is the address without the
    occurrences of the scheme that a scan from the left meets, then a
    dash, then the decimal Unix time read when the manifest is rendered:
    an address in which the scheme does not occur is kept whole, and
    otherwise the text before the first occurrence is kept, the
    occurrence is dropped and the scan goes on behind it.  For an address
    without the scheme, and for the scheme followed by a text without
    the scheme, the name does not begin with the scheme; in general it
    begins with the scheme exactly when what the scan leaves of the
    address does.  For every address the name ends in a dash and a
    non-empty run of digits, and two names for one mirror are equal
    exactly when the times are the same second.  The name is the fourth
    line of the manifest. *)
Theorem resource_name_of_https_mirror (mirror : string) (now : Z) :
  (0 <= now)%Z ->
  (~ Str.occurs "https://" mirror ->
   resourceName mirror now = mirror +:+ "-" +:+ pretty now
   /\ Str.has_prefix "https://" (resourceName mirror now) = false)
  /\ (forall host,
        mirror = "https://" +:+ host -> ~ Str.occurs "https://" host ->
        resourceName mirror now = host +:+ "-" +:+ pretty now
        /\ Str.has_prefix "https://" (resourceName mirror now) = false)
  /\ (forall pre rest,
        mirror = pre +:+ "https://" +:+ rest ->
        ~ Str.occurs "https://" (pre +:+ "https:/") ->
        resourceName mirror now = pre +:+ resourceName rest now)
  /\ Str.has_prefix "https://" (resourceName mirror now)
     = Str.has_prefix "https://" (Str.ReplaceAll mirror "https://" EmptyString)
  /\ (exists stem, resourceName mirror now = stem +:+ "-" +:+ pretty now)
  /\ Str.all_digits (pretty now) = true
  /\ pretty now <> EmptyString
  /\ (forall now', resourceName mirror now' = resourceName mirror now <-> now' = now)
  /\ (forall now', (now + 1 <= now')%Z -> resourceName mirror now' <> resourceName mirror now)
  /\ (forall b64RootJSON b64RepositoryArchive,
        exists above below,
          trustRootYAML mirror now b64RootJSON b64RepositoryArchive
          = above +:+ "  name: " +:+ resourceName mirror now +:+ nl +:+ below).
Proof.
  intros Hnow.
  assert (Hfree : forall host, ~ Str.occurs "https://" host ->
            Str.has_prefix "https://" (host +:+ "-" +:+ pretty now) = false).
  { intros host Hno.
    destruct (Str.has_prefix "https://" (host +:+ "-" +:+ pretty now)) eqn:E; [|reflexivity].
    apply scheme_prefix_before_dash in E. apply has_prefix_true in E as [r ->].
    exfalso. apply Hno. exists EmptyString, r. reflexivity. }
  split.
  { intros Hno.
    assert (Hname : resourceName mirror now = mirror +:+ "-" +:+ pretty now).
    { unfold resourceName. now rewrite ReplaceAll_no_scheme. }
    split; [exact Hname|]. rewrite Hname. now apply Hfree. }
  split.
  { intros host -> Hno.
    assert (Hname : resourceName ("https://" +:+ host) now = host +:+ "-" +:+ pretty now).
    { unfold resourceName.
      rewrite ReplaceAll_strips_scheme by (auto; discriminate). reflexivity. }
    split; [exact Hname|]. rewrite Hname. now apply Hfree. }
  split.
  { intros pre rest -> Hno. unfold resourceName.
    rewrite (ReplaceAll_first_scheme pre rest Hno). now rewrite sapp_assoc. }
  split; [apply scheme_prefix_of_stem|].
  split; [eexists; reflexivity|].
  split; [apply (pretty_Z_digits now Hnow)|].
  split; [apply (pretty_Z_digits now Hnow)|].
  split; [intros now'; apply resourceName_inj|].
  split.
  { intros now' Hlater E. apply resourceName_inj in E. lia. }
  intros b1 b2. unfold trustRootYAML.
  exists ("apiVersion: policy.sigstore.dev/v1alpha1" +:+ nl +:+
          "kind: TrustRoot" +:+ nl +:+ "metadata:" +:+ nl).
  eexists. rewrite !sapp_assoc. reflexivity.
Qed.

Lemma resource_name_of_https_mirror_witness :
  resourceName Sample.mirror 1700000000 = "tuf-repo-cdn.sigstore.dev-1700000000"
  /\ resourceName "http://mirror.example/https://a" 1700000000
     = "http://mirror.example/" +:+ resourceName "a" 1700000000.
Proof.
  split.
  - exact (proj1 (proj1 (proj2 (resource_name_of_https_mirror
                                  Sample.mirror 1700000000 ltac:(lia)))
                    "tuf-repo-cdn.sigstore.dev" eq_refl
                    (contains_false "https://" "tuf-repo-cdn.sigstore.dev" eq_refl))).
  - exact (proj1 (proj2 (proj2 (resource_name_of_https_mirror
                                  "http://mirror.example/https://a" 1700000000
                                  ltac:(lia))))
             "http://mirror.example/" "a" eq_refl
             (contains_false "https://" "http://mirror.example/https:/" eq_refl)).
Defined.

(** ** The file system *)

Section FSFacts.

Lemma node_rect_nested (P : node -> Prop) :
  (forall d, P (File d)) ->
  (forall es, Forall (fun e => P (snd e)) es -> P (Dir es)) ->
  forall t, P t.
Proof.
  intros HF HD. fix IH 1. intros [d | es]; [apply HF|].
  apply HD. induction es as [|[n c] es IHes]; constructor; [apply IH | exact IHes].
Qed.

Lemma assoc_set_same {A} (n : string) (v : A) (es : list (string * A)) :
  FS.assoc n (FS.assoc_set n v es) = Some v.
Proof.
  induction es as [|[m c] es IH]; cbn [FS.assoc_set FS.assoc].
  - now rewrite String.eqb_refl.
  - destruct (String.eqb m n) eqn:E; cbn [FS.assoc].
    + now rewrite String.eqb_refl.
    + now rewrite E.
Qed.

Lemma assoc_set_other {A} (n m : string) (v : A) (es : list (string * A)) :
  n <> m -> FS.assoc m (FS.assoc_set n v es) = FS.assoc m es.
Proof.
  intros Hne. induction es as [|[k c] es IH]; cbn [FS.assoc_set FS.assoc].
  - apply String.eqb_neq in Hne. now rewrite Hne.
  - destruct (String.eqb_spec k n) as [-> | Hkn]; cbn [FS.assoc].
    + apply String.eqb_neq in Hne. now rewrite Hne.
    + destruct (String.eqb k m); [reflexivity | exact IH].
Qed.

Lemma assoc_del_same {A} (n : string) (es : list (string * A)) :
  FS.assoc n (FS.assoc_del n es) = None.
Proof.
  induction es as [|[m c] es IH]; cbn [FS.assoc_del FS.assoc]; [reflexivity|].
  destruct (String.eqb m n) eqn:E; [exact IH|].
  cbn [FS.assoc]. now rewrite E.
Qed.

Lemma assoc_del_other {A} (n m : string) (es : list (string * A)) :
  n <> m -> FS.assoc m (FS.assoc_del n es) = FS.assoc m es.
Proof.
  intros Hne. induction es as [|[k c] es IH]; cbn [FS.assoc_del FS.assoc]; [reflexivity|].
  destruct (String.eqb_spec k n) as [-> | Hkn].
  - apply String.eqb_neq in Hne. now rewrite Hne.
  - cbn [FS.assoc]. destruct (String.eqb k m); [reflexivity | exact IH].
Qed.

Lemma assoc_In {A} (n : string) (c : A) (es : list (string * A)) :
  FS.assoc n es = Some c -> In (n, c) es.
Proof.
  induction es as [|[m d] es IH]; cbn [FS.assoc]; [discriminate|].
  destruct (String.eqb_spec m n) as [-> | _].
  - intros [= ->]. now left.
  - intros H. right. now apply IH.
Qed.

Lemma assoc_None {A} (n : string) (es : list (string * A)) :
  FS.assoc n es = None <-> ~ In n (FS.names_of es).
Proof.
  induction es as [|[m d] es IH]; cbn [FS.assoc FS.names_of map In]; [tauto|].
  destruct (String.eqb_spec m n) as [-> | Hne].
  - split; [discriminate | tauto].
  - rewrite IH. unfold FS.names_of. tauto.
Qed.

Lemma assoc_NoDup_In {A} (n : string) (c : A) (es : list (string * A)) :
  List.NoDup (FS.names_of es) -> In (n, c) es -> FS.assoc n es = Some c.
Proof.
  induction es as [|[m d] es IH]; cbn [FS.names_of map]; intros Hnd Hin; [destruct Hin|].
  apply List.NoDup_cons_iff in Hnd as [Hm Hnd]. cbn [FS.assoc].
  destruct Hin as [[= -> ->] | Hin].
  - now rewrite String.eqb_refl.
  - destruct (String.eqb_spec m n) as [-> | _]; [|now apply IH].
    exfalso. apply Hm. apply (List.in_map fst) in Hin. exact Hin.
Qed.

Lemma strip_refl (p : path) : FS.strip p p = Some [].
Proof.
  induction p as [|a p IH]; cbn [FS.strip]; [reflexivity|].
  now rewrite String.eqb_refl.
Qed.

Lemma strip_app (p q : path) : FS.strip p (p ++ q) = Some q.
Proof.
  induction p as [|a p IH]; cbn [FS.strip app]; [reflexivity|].
  now rewrite String.eqb_refl.
Qed.

Lemma strip_Some (p q r : path) : FS.strip p q = Some r <-> q = p ++ r.
Proof.
  revert q; induction p as [|a p IH]; intros q; cbn [FS.strip app].
  - split; congruence.
  - destruct q as [|b q]; [split; discriminate|].
    destruct (String.eqb_spec a b) as [-> | Hne].
    + rewrite IH. split; congruence.
    + split; [discriminate | congruence].
Qed.

Lemma stat_nil (t : node) : FS.stat [] t = Some (FS.kind_of t).
Proof. reflexivity. Qed.

Lemma stat_cons_Dir (n : string) (q : path) (es : list (string * node)) :
  FS.stat (n :: q) (Dir es)
  = match FS.assoc n es with Some c => FS.stat q c | None => None end.
Proof. unfold FS.stat. cbn [FS.lookup]. destruct (FS.assoc n es); reflexivity. Qed.

Lemma stat_cons_File (n : string) (q : path) (d : string) :
  FS.stat (n :: q) (File d) = None.
Proof. reflexivity. Qed.

(** After [put p x], the paths below [p] show [x], and every other path
    shows what it showed before. *)
Lemma stat_put (p : path) (x : node) :
  forall T T', FS.put p x T = Some T' ->
  forall q, FS.stat q T'
            = match FS.strip p q with
              | Some q' => FS.stat q' x
              | None => FS.stat q T
              end.
Proof.
  induction p as [|n p IH]; intros T T' Hput q.
  - cbn in Hput. injection Hput as <-. reflexivity.
  - destruct T as [d | es]; [discriminate|]. cbn [FS.put] in Hput.
    destruct p as [|n' p'].
    + injection Hput as <-. destruct q as [|m q]; [reflexivity|].
      cbn [FS.strip]. rewrite !stat_cons_Dir.
      destruct (String.eqb_spec n m) as [-> | Hne].
      * now rewrite assoc_set_same.
      * now rewrite assoc_set_other.
    + destruct (FS.assoc n es) as [c|] eqn:Hc; [|discriminate].
      destruct (FS.put (n' :: p') x c) as [c'|] eqn:Hc'; [|discriminate].
      injection Hput as <-. destruct q as [|m q]; [reflexivity|].
      cbn [FS.strip]. rewrite !stat_cons_Dir.
      destruct (String.eqb_spec n m) as [-> | Hne].
      * rewrite assoc_set_same, Hc. apply (IH c c' Hc').
      * now rewrite assoc_set_other.
Qed.

(** A new name can be installed in any directory. *)
Lemma put_in_directory (parent : path) (n : string) (x : node) :
  forall T, FS.stat parent T = Some FS.KDir ->
  exists T', FS.put (parent ++ [n]) x T = Some T'.
Proof.
  induction parent as [|a parent IH]; intros T Hdir.
  - destruct T as [d | es]; [discriminate|]. cbn. eauto.
  - destruct T as [d | es]; [discriminate|].
    rewrite stat_cons_Dir in Hdir.
    destruct (FS.assoc a es) as [c|] eqn:Hc; [|discriminate].
    destruct (IH c Hdir) as [c' Hc'].
    cbn [app FS.put]. rewrite Hc, Hc'.
    destruct (parent ++ [n]) eqn:E; [now destruct parent|]. eauto.
Qed.

End FSFacts.

(** ** Paths as strings *)

Section PathFacts.

Lemma valid_name_no_slash (n : string) : FS.valid_name n = true -> FS.no_slash n = true.
Proof. unfold FS.valid_name. intros H. now apply andb_true_iff in H as [_ H]. Qed.

Lemma valid_name_not_dot (n : string) : FS.valid_name n = true -> n <> ".".
Proof.
  unfold FS.valid_name. intros H E. subst n. discriminate.
Qed.

Lemma Split_no_sep (n : string) :
  FS.no_slash n = true -> Str.Split Tar.slash n = [n].
Proof.
  unfold Tar.slash. induction n as [|c n IH]; intros H; [reflexivity|].
  cbn in H. apply andb_true_iff in H as [Hc Hn].
  cbn [Str.Split]. apply negb_true_iff in Hc. rewrite Hc.
  now rewrite (IH Hn).
Qed.

Lemma Split_sep (n rest : string) :
  FS.no_slash n = true ->
  Str.Split Tar.slash (n +:+ "/" +:+ rest) = n :: Str.Split Tar.slash rest.
Proof.
  unfold Tar.slash. induction n as [|c n IH]; intros H.
  - reflexivity.
  - cbn in H. apply andb_true_iff in H as [Hc Hn].
    rewrite sapp_cons. cbn [Str.Split].
    apply negb_true_iff in Hc. rewrite Hc. now rewrite (IH Hn).
Qed.

Lemma Split_Join (rel : path) :
  rel <> [] -> Forall (fun n => FS.valid_name n = true) rel ->
  Str.Split Tar.slash (Str.Join rel "/") = rel.
Proof.
  induction rel as [|n rel IH]; intros Hne Hv; [congruence|].
  apply List.Forall_cons_iff in Hv as [Hn Hv].
  destruct rel as [|m rel'].
  - cbn [Str.Join]. apply Split_no_sep. now apply valid_name_no_slash.
  - change (Str.Join (n :: m :: rel') "/") with (n +:+ "/" +:+ Str.Join (m :: rel') "/").
    rewrite Split_sep by now apply valid_name_no_slash.
    rewrite IH by (auto; discriminate). reflexivity.
Qed.

Lemma Rel_not_dot (rel : path) :
  rel <> [] -> Forall (fun n => FS.valid_name n = true) rel ->
  String.eqb (Tar.Rel rel) "." = false.
Proof.
  intros Hne Hv. destruct rel as [|n [|m rel']]; [congruence| |].
  - apply List.Forall_cons_iff in Hv as [Hn _]. apply String.eqb_neq.
    now apply valid_name_not_dot.
  - apply String.eqb_neq.
    change (Tar.Rel (n :: m :: rel')) with (n +:+ "/" +:+ Str.Join (m :: rel') "/").
    destruct n as [|c [|c' n']]; discriminate.
Qed.

End PathFacts.

(** ** The archive *)

Section TarFacts.

Lemma visit_acc (tw : list tar_entry) (call : path * node) :
  Tar.visit tw call = tw ++ Tar.visit [] call.
Proof.
  unfold Tar.visit. destruct call as [rel info].
  destruct (String.eqb (Tar.Rel rel) "."); [now rewrite List.app_nil_r|].
  destruct info; reflexivity.
Qed.

Lemma fold_visit (calls : list (path * node)) (tw : list tar_entry) :
  fold_left Tar.visit calls tw = tw ++ concat (map (Tar.visit []) calls).
Proof.
  revert tw; induction calls as [|c calls IH]; intros tw; cbn [fold_left map concat].
  - now rewrite List.app_nil_r.
  - rewrite IH, (visit_acc tw c), <- List.app_assoc. reflexivity.
Qed.

Lemma archive_of_emitted (src : node) : Tar.archive_of src = Tar.emitted [] src.
Proof. unfold Tar.archive_of, Tar.emitted. now rewrite fold_visit. Qed.

Lemma visit_entry (rel : path) (info : node) :
  rel <> [] -> Forall (fun n => FS.valid_name n = true) rel ->
  Tar.visit [] (rel, info) = [Tar.entry_of rel info].
Proof.
  intros Hne Hv. unfold Tar.visit. rewrite (Rel_not_dot rel Hne Hv).
  unfold Tar.entry_of, Tar.Rel. destruct rel as [|n rel]; [congruence|].
  destruct info; reflexivity.
Qed.

Lemma insert_by_name_map {A B} (f : string * A -> B) (x : string * A) (l : list (string * A)) :
  Tar.insert_by_name (fst x, f x) (map (fun e => (fst e, f e)) l)
  = map (fun e => (fst e, f e)) (Tar.insert_by_name x l).
Proof.
  induction l as [|y l IH]; cbn [map Tar.insert_by_name fst]; [reflexivity|].
  destruct (String.leb (fst x) (fst y)); cbn [map]; [reflexivity|].
  now rewrite IH.
Qed.

Lemma sort_by_name_map {A B} (f : string * A -> B) (l : list (string * A)) :
  Tar.sort_by_name (map (fun e => (fst e, f e)) l)
  = map (fun e => (fst e, f e)) (Tar.sort_by_name l).
Proof.
  induction l as [|x l IH]; cbn [map Tar.sort_by_name fold_right]; [reflexivity|].
  change (fold_right Tar.insert_by_name [] (map (fun e => (fst e, f e)) l))
    with (Tar.sort_by_name (map (fun e => (fst e, f e)) l)).
  change (fold_right Tar.insert_by_name [] l) with (Tar.sort_by_name l).
  now rewrite IH, insert_by_name_map.
Qed.

Lemma insert_by_name_perm {A} (x : string * A) (l : list (string * A)) :
  Permutation (Tar.insert_by_name x l) (x :: l).
Proof.
  induction l as [|y l IH]; cbn [Tar.insert_by_name]; [reflexivity|].
  destruct (String.leb (fst x) (fst y)); [reflexivity|].
  rewrite IH. apply perm_swap.
Qed.

Lemma sort_by_name_perm {A} (l : list (string * A)) :
  Permutation (Tar.sort_by_name l) l.
Proof.
  induction l as [|x l IH]; cbn [Tar.sort_by_name fold_right]; [reflexivity|].
  rewrite insert_by_name_perm. now constructor.
Qed.

Lemma concat_map_concat {A B} (f : A -> list B) (ls : list (list A)) :
  concat (map f (concat ls)) = concat (map (fun l => concat (map f l)) ls).
Proof.
  induction ls as [|l ls IH]; cbn [concat map]; [reflexivity|].
  now rewrite List.map_app, List.concat_app, IH.
Qed.

Lemma Walk_Dir (rel : path) (es : list (string * node)) :
  Tar.Walk rel (Dir es)
  = (rel, Dir es) ::
    concat (map (fun e => Tar.Walk (rel ++ [fst e]) (snd e)) (Tar.sort_by_name es)).
Proof.
  cbn [Tar.Walk]. f_equal.
  rewrite (sort_by_name_map (fun e => Tar.Walk (rel ++ [fst e]) (snd e))).
  now rewrite List.map_map.
Qed.

Lemma emitted_File (rel : path) (d : string) :
  Tar.emitted rel (File d) = Tar.visit [] (rel, File d).
Proof. unfold Tar.emitted. cbn. now rewrite List.app_nil_r. Qed.

Lemma emitted_Dir (rel : path) (es : list (string * node)) :
  Tar.emitted rel (Dir es)
  = Tar.visit [] (rel, Dir es) ++
    concat (map (fun e => Tar.emitted (rel ++ [fst e]) (snd e)) (Tar.sort_by_name es)).
Proof.
  unfold Tar.emitted. rewrite Walk_Dir. cbn [map concat]. f_equal.
  rewrite concat_map_concat. now rewrite List.map_map.
Qed.

Lemma extract_into_app (a b : list tar_entry) (T : node) :
  Tar.extract_into T (a ++ b)
  = match Tar.extract_into T a with
    | Some T' => Tar.extract_into T' b
    | None => None
    end.
Proof.
  revert T; induction a as [|e a IH]; intros T; cbn [app Tar.extract_into]; [reflexivity|].
  destruct (Tar.extract_entry T e); [apply IH | reflexivity].
Qed.

End TarFacts.

(** ** Reading the archive back *)

Section ExtractFacts.

Lemma nodupb_NoDup (l : list string) : FS.nodupb l = true -> List.NoDup l.
Proof.
  induction l as [|x l IH]; cbn [FS.nodupb]; intros H; [constructor|].
  apply andb_true_iff in H as [Hx Hl]. constructor; [|now apply IH].
  intros Hin. apply negb_true_iff in Hx.
  assert (E : existsb (String.eqb x) l = true).
  { apply existsb_exists. exists x. split; [exact Hin | apply String.eqb_refl]. }
  congruence.
Qed.

Lemma wf_Dir (es : list (string * node)) :
  FS.wf (Dir es) ->
  List.NoDup (FS.names_of es) /\
  Forall (fun e => FS.valid_name (fst e) = true /\ FS.wf (snd e)) es.
Proof.
  unfold FS.wf. cbn [FS.wfb]. intros H. apply andb_true_iff in H as [Hn Hf].
  split; [now apply nodupb_NoDup|].
  apply List.Forall_forall. intros e He.
  rewrite forallb_forall in Hf. specialize (Hf e He).
  now apply andb_true_iff in Hf.
Qed.

Lemma strip_app_l (p a q : path) :
  FS.strip (p ++ a) q
  = match FS.strip p q with
    | Some r => FS.strip a r
    | None => None
    end.
Proof.
  revert q; induction p as [|x p IH]; intros q; cbn [app FS.strip]; [reflexivity|].
  destruct q as [|y q]; [reflexivity|].
  destruct (String.eqb x y); [apply IH | reflexivity].
Qed.

Lemma stat_None_lookup (q : path) (T : node) :
  FS.stat q T = None -> FS.lookup q T = None.
Proof. unfold FS.stat. destruct (FS.lookup q T); [discriminate | reflexivity]. Qed.

Lemma assoc_perm {A} (n : string) (l l' : list (string * A)) :
  List.NoDup (FS.names_of l) -> Permutation l' l -> FS.assoc n l' = FS.assoc n l.
Proof.
  intros Hnd Hp.
  assert (Hnd' : List.NoDup (FS.names_of l')).
  { unfold FS.names_of. eapply Permutation_NoDup; [|exact Hnd].
    apply Permutation_map. now symmetry. }
  destruct (FS.assoc n l) as [c|] eqn:E.
  - apply assoc_In in E. apply assoc_NoDup_In; [exact Hnd'|].
    eapply Permutation_in; [symmetry; exact Hp | exact E].
  - apply assoc_None. apply assoc_None in E. intros Hin. apply E.
    unfold FS.names_of in *. eapply Permutation_in; [|exact Hin].
    now apply Permutation_map.
Qed.

(** One entry, for a new name in an existing directory. *)
Lemma extract_entry_new (parent : path) (n : string) (info T : node) :
  Forall (fun m => FS.valid_name m = true) (parent ++ [n]) ->
  FS.stat parent T = Some FS.KDir ->
  FS.stat (parent ++ [n]) T = None ->
  exists T',
    Tar.extract_entry T (Tar.entry_of (parent ++ [n]) info) = Some T' /\
    FS.installs (parent ++ [n])
      (match info with File d => File d | Dir _ => Dir [] end) T T'.
Proof.
  intros Hv Hdir Hnew.
  assert (Hne : parent ++ [n] <> []) by now destruct parent.
  unfold Tar.extract_entry.
  assert (Hname : Name (hdr (Tar.entry_of (parent ++ [n]) info)) = Str.Join (parent ++ [n]) "/")
    by now destruct info.
  rewrite Hname, (Split_Join _ Hne Hv), (stat_None_lookup _ _ Hnew).
  destruct info as [d | es]; cbn [Tar.entry_of hdr Typ payload].
  - destruct (put_in_directory parent n (File d) T Hdir) as [T' HT'].
    exists T'. split; [exact HT'|]. intros q. apply (stat_put _ _ _ _ HT').
  - destruct (put_in_directory parent n (Dir []) T Hdir) as [T' HT'].
    exists T'. split; [exact HT'|]. intros q. apply (stat_put _ _ _ _ HT').
Qed.

(** The children of a directory, one after the other. *)
Lemma extract_children (rel : path) (L : list (string * node)) :
  Forall (fun m => FS.valid_name m = true) rel ->
  List.NoDup (FS.names_of L) ->
  Forall (fun e =>
    forall T, FS.stat rel T = Some FS.KDir ->
              FS.stat (rel ++ [fst e]) T = None ->
              exists T', Tar.extract_into T (Tar.emitted (rel ++ [fst e]) (snd e)) = Some T' /\
                         FS.installs (rel ++ [fst e]) (snd e) T T') L ->
  forall T1, FS.stat rel T1 = Some FS.KDir ->
    (forall n, In n (FS.names_of L) -> FS.stat (rel ++ [n]) T1 = None) ->
    exists T2,
      Tar.extract_into T1
        (concat (map (fun e => Tar.emitted (rel ++ [fst e]) (snd e)) L)) = Some T2 /\
      forall q, FS.stat q T2
                = match FS.strip rel q with
                  | Some (n :: q') =>
                      match FS.assoc n L with
                      | Some c => FS.stat q' c
                      | None => FS.stat q T1
                      end
                  | _ => FS.stat q T1
                  end.
Proof.
  intros Hrel. induction L as [|[n0 c0] L IH]; intros Hnd HP T1 Hdir Hfree.
  - exists T1. split; [reflexivity|]. intros q.
    destruct (FS.strip rel q) as [[|n q']|]; reflexivity.
  - cbn [FS.names_of map] in Hnd. apply List.NoDup_cons_iff in Hnd as [Hn0 Hnd].
    apply List.Forall_cons_iff in HP as [H0 HP]. cbn [fst snd] in H0.
    destruct (H0 T1 Hdir (Hfree n0 (or_introl eq_refl))) as (T1' & Hex & Hinst).
    assert (Hdir' : FS.stat rel T1' = Some FS.KDir).
    { rewrite (Hinst rel), strip_app_l, strip_refl. exact Hdir. }
    assert (Hfree' : forall n, In n (FS.names_of L) -> FS.stat (rel ++ [n]) T1' = None).
    { intros n Hn. rewrite (Hinst (rel ++ [n])), strip_app_l, strip_app.
      cbn [FS.strip]. destruct (String.eqb_spec n0 n) as [-> | Hne]; [contradiction|].
      apply Hfree. now right. }
    destruct (IH Hnd HP T1' Hdir' Hfree') as (T2 & Hex2 & Hst).
    exists T2. split.
    { cbn [map concat fst snd]. rewrite extract_into_app, Hex. exact Hex2. }
    intros q. rewrite (Hst q).
    destruct (FS.strip rel q) as [[|n q']|] eqn:Hq.
    + rewrite (Hinst q), strip_app_l, Hq. reflexivity.
    + cbn [FS.assoc].
      destruct (String.eqb_spec n0 n) as [-> | Hne].
      * assert (E : FS.assoc n L = None) by now apply assoc_None.
        rewrite E, (Hinst q), strip_app_l, Hq. cbn [FS.strip].
        now rewrite String.eqb_refl.
      * destruct (FS.assoc n L); [reflexivity|].
        rewrite (Hinst q), strip_app_l, Hq. cbn [FS.strip].
        apply String.eqb_neq in Hne. now rewrite Hne.
    + rewrite (Hinst q), strip_app_l, Hq. reflexivity.
Qed.

(** Unpacking the entries written for a subtree installs the subtree. *)
Lemma extract_emitted (c : node) :
  FS.wf c ->
  forall parent n T,
    Forall (fun m => FS.valid_name m = true) (parent ++ [n]) ->
    FS.stat parent T = Some FS.KDir ->
    FS.stat (parent ++ [n]) T = None ->
    exists T', Tar.extract_into T (Tar.emitted (parent ++ [n]) c) = Some T' /\
               FS.installs (parent ++ [n]) c T T'.
Proof.
  induction c as [d | es IHes] using node_rect_nested; intros Hwf parent n T Hv Hdir Hnew.
  - rewrite emitted_File, visit_entry by (auto; now destruct parent).
    destruct (extract_entry_new parent n (File d) T Hv Hdir Hnew) as (T' & He & Hi).
    exists T'. split; [|exact Hi]. cbn [Tar.extract_into]. now rewrite He.
  - apply wf_Dir in Hwf as [Hnd Hwf].
    rewrite emitted_Dir, visit_entry by (auto; now destruct parent).
    destruct (extract_entry_new parent n (Dir es) T Hv Hdir Hnew) as (T1 & He & Hi).
    set (rel := parent ++ [n]) in *.
    set (L := Tar.sort_by_name es).
    pose proof (sort_by_name_perm es) as Hperm. fold L in Hperm.
    assert (HndL : List.NoDup (FS.names_of L)).
    { unfold FS.names_of. eapply Permutation_NoDup; [|exact Hnd].
      apply Permutation_map. now symmetry. }
    assert (HPL : Forall (fun e =>
      forall T, FS.stat rel T = Some FS.KDir ->
                FS.stat (rel ++ [fst e]) T = None ->
                exists T', Tar.extract_into T (Tar.emitted (rel ++ [fst e]) (snd e)) = Some T' /\
                           FS.installs (rel ++ [fst e]) (snd e) T T') L).
    { apply List.Forall_forall. intros e He'.
      assert (Hin : In e es) by (eapply Permutation_in; [exact Hperm | exact He']).
      rewrite List.Forall_forall in IHes, Hwf.
      destruct (Hwf e Hin) as [Hvalid Hwfe].
      intros T0 Hd0 Hn0. apply (IHes e Hin Hwfe rel (fst e) T0); auto.
      apply List.Forall_app. split; [exact Hv | now constructor]. }
    assert (Hdir1 : FS.stat rel T1 = Some FS.KDir).
    { rewrite (Hi rel), strip_refl. reflexivity. }
    assert (Hfree1 : forall m, In m (FS.names_of L) -> FS.stat (rel ++ [m]) T1 = None).
    { intros m _. rewrite (Hi (rel ++ [m])), strip_app. reflexivity. }
    destruct (extract_children rel L Hv HndL HPL T1 Hdir1 Hfree1) as (T2 & Hex2 & Hst).
    exists T2. split.
    { cbn [app Tar.extract_into]. now rewrite He. }
    intros q. rewrite (Hst q).
    destruct (FS.strip rel q) as [[|m q']|] eqn:Hq.
    + rewrite (Hi q), Hq. reflexivity.
    + rewrite stat_cons_Dir, (assoc_perm m es L Hnd Hperm).
      destruct (FS.assoc m es); [reflexivity|].
      rewrite (Hi q), Hq. reflexivity.
    + rewrite (Hi q), Hq. reflexivity.
Qed.

(** The root: its children are unpacked into the empty directory. *)
Lemma extract_archive (es : list (string * node)) :
  FS.wf (Dir es) ->
  exists out, Tar.extract (Tar.archive_of (Dir es)) = Some out /\
              forall q, FS.stat q out = FS.stat q (Dir es).
Proof.
  intros Hwf. pose proof Hwf as Hwf'. apply wf_Dir in Hwf' as [Hnd Hall].
  rewrite archive_of_emitted, emitted_Dir.
  change (Tar.visit [] ([], Dir es)) with (@nil tar_entry). cbn [app].
  set (L := Tar.sort_by_name es).
  pose proof (sort_by_name_perm es) as Hperm. fold L in Hperm.
  assert (HndL : List.NoDup (FS.names_of L)).
  { unfold FS.names_of. eapply Permutation_NoDup; [|exact Hnd].
    apply Permutation_map. now symmetry. }
  assert (HPL : Forall (fun e =>
    forall T, FS.stat [] T = Some FS.KDir ->
              FS.stat ([] ++ [fst e]) T = None ->
              exists T', Tar.extract_into T (Tar.emitted ([] ++ [fst e]) (snd e)) = Some T' /\
                         FS.installs ([] ++ [fst e]) (snd e) T T') L).
  { apply List.Forall_forall. intros e He.
    assert (Hin : In e es) by (eapply Permutation_in; [exact Hperm | exact He]).
    rewrite List.Forall_forall in Hall. destruct (Hall e Hin) as [Hvalid Hwfe].
    intros T0 Hd0 Hn0. apply (extract_emitted (snd e) Hwfe [] (fst e) T0); auto.
    now constructor. }
  destruct (extract_children [] L (List.Forall_nil _) HndL HPL (Dir []) eq_refl)
    as (out & Hex & Hst).
  { intros m _. reflexivity. }
  exists out. split; [unfold Tar.extract; exact Hex|].
  intros q. rewrite (Hst q). cbn [FS.strip].
  destruct q as [|m q']; [reflexivity|].
  rewrite (stat_cons_Dir m q' es), (assoc_perm m es L Hnd Hperm).
  destruct (FS.assoc m es); reflexivity.
Qed.

End ExtractFacts.

(** ** Subtrees after an update *)

Section LookupFacts.

Lemma lookup_cons_Dir (n : string) (q : path) (es : list (string * node)) :
  FS.lookup (n :: q) (Dir es)
  = match FS.assoc n es with Some c => FS.lookup q c | None => None end.
Proof. reflexivity. Qed.

Lemma lookup_app (p q : path) (T : node) :
  FS.lookup (p ++ q) T
  = match FS.lookup p T with Some c => FS.lookup q c | None => None end.
Proof.
  revert T; induction p as [|n p IH]; intros T; [reflexivity|].
  destruct T as [d | es]; [reflexivity|].
  cbn [app]. rewrite !lookup_cons_Dir. destruct (FS.assoc n es); [apply IH | reflexivity].
Qed.

(** Below [p] one finds [x]. *)
Lemma lookup_put_below (p : path) (x : node) :
  forall T T', FS.put p x T = Some T' ->
  forall q, FS.lookup (p ++ q) T' = FS.lookup q x.
Proof.
  induction p as [|n p IH]; intros T T' Hput q.
  - cbn in Hput. now injection Hput as <-.
  - destruct T as [d | es]; [discriminate|]. cbn [FS.put] in Hput.
    destruct p as [|n' p'].
    + injection Hput as <-. cbn [app]. now rewrite lookup_cons_Dir, assoc_set_same.
    + destruct (FS.assoc n es) as [c|] eqn:Hc; [|discriminate].
      destruct (FS.put (n' :: p') x c) as [c'|] eqn:Hc'; [|discriminate].
      injection Hput as <-.
      change ((n :: n' :: p') ++ q) with (n :: ((n' :: p') ++ q)).
      rewrite lookup_cons_Dir, assoc_set_same. apply (IH c c' Hc').
Qed.

Lemma lookup_put_same (p : path) (x T T' : node) :
  FS.put p x T = Some T' -> FS.lookup p T' = Some x.
Proof.
  intros H. pose proof (lookup_put_below p x T T' H []) as E.
  now rewrite List.app_nil_r in E.
Qed.

(** A path that is neither above nor below [p] leads where it led. *)
Lemma lookup_put_disjoint (p : path) (x : node) :
  forall T T', FS.put p x T = Some T' ->
  forall q, FS.disjoint p q -> FS.lookup q T' = FS.lookup q T.
Proof.
  induction p as [|n p IH]; intros T T' Hput q [Hpq Hqp].
  - discriminate.
  - destruct T as [d | es]; [discriminate|]. cbn [FS.put] in Hput.
    destruct q as [|m q]; [discriminate|]. cbn [FS.strip] in Hpq, Hqp.
    destruct p as [|n' p'].
    + injection Hput as <-. rewrite !lookup_cons_Dir.
      destruct (String.eqb_spec n m) as [-> | Hne]; [discriminate|].
      now rewrite assoc_set_other.
    + destruct (FS.assoc n es) as [c|] eqn:Hc; [|discriminate].
      destruct (FS.put (n' :: p') x c) as [c'|] eqn:Hc'; [|discriminate].
      injection Hput as <-. rewrite !lookup_cons_Dir.
      destruct (String.eqb_spec n m) as [-> | Hne].
      * rewrite assoc_set_same, Hc. rewrite String.eqb_refl in Hqp.
        apply (IH c c' Hc'). now split.
      * now rewrite assoc_set_other.
Qed.

(** What exists can be replaced. *)
Lemma put_existing (p : path) (x : node) :
  forall T y, FS.lookup p T = Some y -> exists T', FS.put p x T = Some T'.
Proof.
  induction p as [|n p IH]; intros T y Hy; [cbn; eauto|].
  destruct T as [d | es]; [discriminate|]. rewrite lookup_cons_Dir in Hy.
  destruct (FS.assoc n es) as [c|] eqn:Hc; [|discriminate].
  cbn [FS.put]. destruct p as [|n' p']; [eauto|].
  rewrite Hc. destruct (IH c y Hy) as [c' Hc']. rewrite Hc'. eauto.
Qed.

Lemma disjoint_sym (p q : path) : FS.disjoint p q -> FS.disjoint q p.
Proof. intros [H1 H2]. now split. Qed.

End LookupFacts.

(** ** The entries of an archive are the nodes below the root *)

Section EntryFacts.

Lemma In_assoc_iff (n : string) (c : node) (es : list (string * node)) :
  List.NoDup (FS.names_of es) -> (In (n, c) es <-> FS.assoc n es = Some c).
Proof. intros Hnd. split; [now apply assoc_NoDup_In | apply assoc_In]. Qed.

Lemma emitted_In (c : node) :
  FS.wf c ->
  forall rel, rel <> [] -> Forall (fun m => FS.valid_name m = true) rel ->
  forall e, In e (Tar.emitted rel c)
            <-> exists q info, FS.lookup q c = Some info /\ e = Tar.entry_of (rel ++ q) info.
Proof.
  induction c as [d | es IHes] using node_rect_nested; intros Hwf rel Hne Hv e.
  - rewrite emitted_File, visit_entry by auto. cbn [In]. split.
    + intros [<- | []]. exists [], (File d). now rewrite List.app_nil_r.
    + intros (q & info & Hq & ->). left.
      destruct q; [|discriminate]. injection Hq as <-. now rewrite List.app_nil_r.
  - apply wf_Dir in Hwf as [Hnd Hwf].
    rewrite emitted_Dir, visit_entry by auto. cbn [app In].
    rewrite List.in_concat. split.
    + intros [<- | (l & Hl & He)].
      * exists [], (Dir es). now rewrite List.app_nil_r.
      * apply List.in_map_iff in Hl as ([n c] & <- & Hin). cbn [fst snd] in He.
        apply (Permutation_in _ (sort_by_name_perm es)) in Hin.
        rewrite List.Forall_forall in IHes, Hwf.
        destruct (Hwf _ Hin) as [Hvn Hwfc]. cbn [fst snd] in Hvn, Hwfc.
        apply (IHes _ Hin Hwfc) in He as (q & info & Hq & ->).
        -- exists (n :: q), info. rewrite lookup_cons_Dir.
           rewrite (assoc_NoDup_In n c es Hnd Hin). split; [exact Hq|].
           now rewrite <- List.app_assoc.
        -- now destruct rel.
        -- apply List.Forall_app. split; [exact Hv | now constructor].
    + intros (q & info & Hq & ->). destruct q as [|n q].
      * left. injection Hq as <-. now rewrite List.app_nil_r.
      * right. rewrite lookup_cons_Dir in Hq.
        destruct (FS.assoc n es) as [c|] eqn:Hc; [|discriminate].
        apply assoc_In in Hc.
        exists (Tar.emitted (rel ++ [n]) c). split.
        -- apply List.in_map_iff. exists (n, c). split; [reflexivity|].
           apply (Permutation_in _ (Permutation_sym (sort_by_name_perm es))). exact Hc.
        -- rewrite List.Forall_forall in IHes, Hwf.
           destruct (Hwf _ Hc) as [Hvn Hwfc]. cbn [fst snd] in Hvn, Hwfc.
           apply (IHes _ Hc Hwfc).
           ++ now destruct rel.
           ++ apply List.Forall_app. split; [exact Hv | now constructor].
           ++ exists q, info. split; [exact Hq|]. now rewrite <- List.app_assoc.
Qed.

Lemma archive_In (es : list (string * node)) :
  FS.wf (Dir es) ->
  forall e, In e (Tar.archive_of (Dir es))
            <-> exists q info, q <> [] /\ FS.lookup q (Dir es) = Some info /\
                               e = Tar.entry_of q info.
Proof.
  intros Hwf e. pose proof Hwf as Hwf'. apply wf_Dir in Hwf' as [Hnd Hall].
  rewrite archive_of_emitted, emitted_Dir.
  change (Tar.visit [] ([], Dir es)) with (@nil tar_entry). cbn [app].
  rewrite List.in_concat. split.
  - intros (l & Hl & He).
    apply List.in_map_iff in Hl as ([n c] & <- & Hin). cbn [fst snd] in He.
    apply (Permutation_in _ (sort_by_name_perm es)) in Hin.
    rewrite List.Forall_forall in Hall.
    destruct (Hall _ Hin) as [Hvn Hwfc]. cbn [fst snd] in Hvn, Hwfc.
    apply (emitted_In c Hwfc) in He as (q & info & Hq & ->).
    + exists (n :: q), info. split; [discriminate|].
      rewrite lookup_cons_Dir, (assoc_NoDup_In n c es Hnd Hin). now split.
    + discriminate.
    + now constructor.
  - intros (q & info & Hne & Hq & ->). destruct q as [|n q]; [congruence|].
    rewrite lookup_cons_Dir in Hq.
    destruct (FS.assoc n es) as [c|] eqn:Hc; [|discriminate].
    apply assoc_In in Hc.
    exists (Tar.emitted ([] ++ [n]) c). split.
    + apply List.in_map_iff. exists (n, c). split; [reflexivity|].
      apply (Permutation_in _ (Permutation_sym (sort_by_name_perm es))). exact Hc.
    + rewrite List.Forall_forall in Hall.
      destruct (Hall _ Hc) as [Hvn Hwfc]. cbn [fst snd] in Hvn, Hwfc.
      apply (emitted_In c Hwfc); [discriminate | now constructor |].
      exists q, info. now split.
Qed.

End EntryFacts.

(** ** Claims about the archiver *)

Lemma CompressDirectory_run (env : Env) (w : World) (src dst : path)
    (tree : node) (old : string) :
  FS.lookup src (fs w) = Some tree ->
  FS.lookup dst (fs w) = Some (File old) ->
  FS.disjoint src dst ->
  exists w',
    CompressDirectory src dst env w = (Val None, w')
    /\ FS.lookup dst (fs w') = Some (File (env_targz env (Tar.archive_of tree)))
    /\ FS.lookup src (fs w') = Some tree.
Proof.
  intros Hsrc Hdst Hdisj.
  destruct (put_existing dst (File EmptyString) (fs w) _ Hdst) as [t1 Ht1].
  pose proof (lookup_put_same _ _ _ _ Ht1) as Hdst1.
  pose proof (lookup_put_disjoint _ _ _ _ Ht1 src (disjoint_sym _ _ Hdisj)) as Hsrc1.
  rewrite Hsrc in Hsrc1.
  destruct (put_existing dst (File (EmptyString +:+ env_targz env (Tar.archive_of tree)))
              t1 _ Hdst1) as [t2 Ht2].
  pose proof (lookup_put_same _ _ _ _ Ht2) as Hdst2.
  pose proof (lookup_put_disjoint _ _ _ _ Ht2 src (disjoint_sym _ _ Hdisj)) as Hsrc2.
  rewrite Hsrc1 in Hsrc2.
  unfold CompressDirectory, os_Create, File_Write, bind, ask, get_fs, set_fs, emit, ret.
  cbn. rewrite Hdst, Ht1. cbn. rewrite Hsrc1. cbn. rewrite Hdst1, Ht2. cbn.
  eexists. split; [reflexivity|]. cbn. split; [exact Hdst2 | exact Hsrc2].
Qed.

(** C6: for every well-formed directory tree found at [src],
    [CompressDirectory] returns no error and leaves in [dst] the archive
    of the tree; reading the archive back into an empty directory
    succeeds and shows, at every relative path, what the tree shows there
    (a directory, or a file with the same bytes, or nothing); the entries
    are exactly the nodes below the root, each under its relative path
    joined with slashes, so the root has no entry and no name has a
    prefix; an empty directory gives an archive without entries, and a
    directory holding [file1.txt] and [file2.txt] gives exactly two
    regular-file entries with those names and contents. *)
Theorem compress_directory_roundtrip (env : Env) (w : World) (src dst : path)
    (es : list (string * node)) (old : string) :
  FS.lookup src (fs w) = Some (Dir es) ->
  FS.wf (Dir es) ->
  FS.lookup dst (fs w) = Some (File old) ->
  FS.disjoint src dst ->
  exists w',
    CompressDirectory src dst env w = (Val None, w')
    /\ FS.lookup dst (fs w') = Some (File (env_targz env (Tar.archive_of (Dir es))))
    /\ FS.lookup src (fs w') = Some (Dir es)
    /\ (exists out, Tar.extract (Tar.archive_of (Dir es)) = Some out /\
                    forall q, FS.stat q out = FS.stat q (Dir es))
    /\ (forall e, In e (Tar.archive_of (Dir es))
                  <-> exists q info, q <> [] /\ FS.lookup q (Dir es) = Some info /\
                                     e = Tar.entry_of q info)
    /\ (es = [] -> Tar.archive_of (Dir es) = [] /\ Tar.extract [] = Some (Dir []))
    /\ (es = [("file1.txt", File "content1"); ("file2.txt", File "content2")] ->
        Tar.archive_of (Dir es)
        = [mkEntry (mkHeader "file1.txt" TypeReg 8) "content1";
           mkEntry (mkHeader "file2.txt" TypeReg 8) "content2"]).
Proof.
  intros Hsrc Hwf Hdst Hdisj.
  destruct (CompressDirectory_run env w src dst (Dir es) old Hsrc Hdst Hdisj)
    as (w' & Hrun & Hout & Hkeep).
  exists w'. split; [exact Hrun|]. split; [exact Hout|]. split; [exact Hkeep|].
  split; [now apply extract_archive|].
  split; [now apply archive_In|].
  split; intros ->; [split|]; reflexivity.
Qed.

Lemma compress_directory_roundtrip_witness :
  let tree := Dir [("file1.txt", File "content1"); ("file2.txt", File "content2")] in
  exists w',
    CompressDirectory ["src"] ["out.tar.gz"] Sample.env
      (initial (Dir [("src", tree); ("out.tar.gz", File EmptyString)]))
    = (Val None, w')
    /\ Tar.extract (Tar.archive_of tree) = Some tree.
Proof.
  cbv zeta.
  destruct (compress_directory_roundtrip Sample.env
              (initial (Dir [("src", Dir [("file1.txt", File "content1");
                                          ("file2.txt", File "content2")]);
                             ("out.tar.gz", File EmptyString)]))
              ["src"] ["out.tar.gz"]
              [("file1.txt", File "content1"); ("file2.txt", File "content2")]
              EmptyString eq_refl eq_refl eq_refl (conj eq_refl eq_refl))
    as (w' & Hrun & _).
  exists w'. split; [exact Hrun | reflexivity].
Defined.

(** A tree with nested directories, given in creation order: the archive
    lists each directory in name order, parents first. *)
Example nested_tree_archive :
  map (fun e => Name (hdr e))
      (Tar.archive_of (Dir [("timestamp.json", File "t");
                            ("targets", Dir [("rekor.pub", File "k");
                                             ("ctfe", Dir [])]);
                            ("2.root.json", File "r")]))
  = ["2.root.json"; "targets"; "targets/ctfe"; "targets/rekor.pub"; "timestamp.json"].
Proof. reflexivity. Qed.

(** ** Stages *)

Section StageFacts.

Variables (env : Env) (mirror : string).

Lemma bind_unfold {A B} (m : M A) (k : A -> M B) (e : Env) (w : World) :
  bind m k e w
  = match m e w with
    | (Val a, w') => k a e w'
    | (Exit c, w') => (Exit c, w')
    | (Panic msg, w') => (Panic msg, w')
    end.
Proof. reflexivity. Qed.

Lemma store_run_app (s : store_state) (a b : list event) :
  store_run env s (a ++ b)
  = match store_run env s a with
    | Some s' => store_run env s' b
    | None => None
    end.
Proof.
  revert s; induction a as [|e a IH]; intros s; cbn [app store_run]; [reflexivity|].
  destruct (store_step env s e); [apply IH | reflexivity].
Qed.

Lemma shaped_nil : shaped mirror KVal [].
Proof. exists [], []. repeat split. Qed.

Lemma shaped_ok (delta : list event) :
  forallb (benign mirror) delta = true -> shaped mirror KVal delta.
Proof. intros H. exists delta, []. now rewrite List.app_nil_r. Qed.

Lemma shaped_abort (o : okind) (ok tail : list event) :
  forallb (benign mirror) ok = true -> abort_tail mirror o tail ->
  shaped mirror o (ok ++ tail).
Proof.
  intros Hok Htail. exists ok, tail. repeat split; auto.
  destruct o; auto. inversion Htail.
Qed.

Lemma shaped_app (o : okind) (d1 d2 : list event) :
  shaped mirror KVal d1 -> shaped mirror o d2 -> shaped mirror o (d1 ++ d2).
Proof.
  intros (ok1 & t1 & -> & H1 & ->) (ok2 & t2 & -> & H2 & Ht).
  exists (ok1 ++ ok2), t2. rewrite List.app_nil_r, <- List.app_assoc.
  repeat split; auto. rewrite forallb_app, H1, H2. reflexivity.
Qed.

Lemma stage_ret {A} (a : A) (w : World) (s : store_state)
    (Q : A -> World -> store_state -> Prop) :
  Q a w s -> stage env mirror (ret a) w s Q.
Proof.
  intros HQ. exists (Val a), w, [], s. cbn.
  rewrite List.app_nil_r. repeat split; auto using shaped_nil.
  now intros a' [= <-].
Qed.

Lemma stage_bind {A B} (m : M A) (k : A -> M B) (w : World) (s : store_state)
    (Q : A -> World -> store_state -> Prop) (R : B -> World -> store_state -> Prop) :
  stage env mirror m w s Q ->
  (forall a w1 s1, Q a w1 s1 -> stage env mirror (k a) w1 s1 R) ->
  stage env mirror (bind m k) w s R.
Proof.
  intros (o & w1 & d1 & s1 & Hm & Htr & Hsh & Hst & HQ) Hk.
  unfold stage. rewrite bind_unfold, Hm.
  destruct o as [a | c | msg].
  - destruct (Hk a w1 s1 (HQ a eq_refl)) as (o2 & w2 & d2 & s2 & Hk2 & Htr2 & Hsh2 & Hst2 & HR).
    exists o2, w2, (d1 ++ d2), s2. split; [exact Hk2|].
    split; [now rewrite Htr2, Htr, List.app_assoc|].
    split; [now apply shaped_app|].
    split; [now rewrite store_run_app, Hst|]. exact HR.
  - exists (Exit c), w1, d1, s1. repeat split; auto. discriminate.
  - exists (Panic msg), w1, d1, s1. repeat split; auto. discriminate.
Qed.

Lemma stage_weaken {A} (m : M A) (w : World) (s : store_state)
    (Q Q' : A -> World -> store_state -> Prop) :
  stage env mirror m w s Q ->
  (forall a w1 s1, Q a w1 s1 -> Q' a w1 s1) ->
  stage env mirror m w s Q'.
Proof.
  intros (o & w1 & d1 & s1 & Hm & Htr & Hsh & Hst & HQ) HQQ.
  exists o, w1, d1, s1. repeat split; auto.
Qed.

(** A stage described by its outcome and its events. *)
Lemma stage_intro {A} (m : M A) (w : World) (s s' : store_state)
    (Q : A -> World -> store_state -> Prop) (o : outcome A) (w' : World)
    (delta : list event) :
  m env w = (o, w') ->
  trace w' = trace w ++ delta ->
  shaped mirror (kind o) delta ->
  store_run env s delta = Some s' ->
  (forall a, o = Val a -> Q a w' s') ->
  stage env mirror m w s Q.
Proof. intros. exists o, w', delta, s'. auto. Qed.

End StageFacts.

(** ** The calls, case by case *)

Section CallFacts.

Variables (env : Env) (w : World).

Lemma os_MkdirTemp_cases (prefix suffix : string) :
  let p := env_tmpdir env ++ [prefix +:+ env_rand env (temps w) +:+ suffix] in
  (exists T', FS.lookup p (fs w) = None /\ FS.put p (Dir []) (fs w) = Some T' /\
              os_MkdirTemp prefix suffix env w
              = (Val (p, None), drawn w T' [EvMkdirTemp p None]))
  \/ (exists e, os_MkdirTemp prefix suffix env w
                = (Val ([], Some e), drawn w (fs w) [EvMkdirTemp p (Some e)])).
Proof.
  intros p. unfold os_MkdirTemp, fresh_name, bind, ret, emit, get_fs, set_fs, ask. cbn.
  fold p. destruct (FS.lookup p (fs w)) eqn:Hl; cbn; [right; eauto|].
  destruct (FS.put p (Dir []) (fs w)) eqn:Hp; cbn; [left | right]; eauto.
Qed.

Lemma os_CreateTemp_cases (prefix suffix : string) :
  let p := env_tmpdir env ++ [prefix +:+ env_rand env (temps w) +:+ suffix] in
  (exists T', FS.lookup p (fs w) = None /\ FS.put p (File EmptyString) (fs w) = Some T' /\
              os_CreateTemp prefix suffix env w
              = (Val (Handle p, None), drawn w T' [EvCreateTemp p None]))
  \/ (exists e, os_CreateTemp prefix suffix env w
                = (Val (NilFile, Some e), drawn w (fs w) [EvCreateTemp p (Some e)])).
Proof.
  intros p. unfold os_CreateTemp, fresh_name, bind, ret, emit, get_fs, set_fs, ask. cbn.
  fold p. destruct (FS.lookup p (fs w)) eqn:Hl; cbn; [right; eauto|].
  destruct (FS.put p (File EmptyString) (fs w)) eqn:Hp; cbn; [left | right]; eauto.
Qed.

Lemma os_Create_cases (p : path) :
  (exists T', FS.put p (File EmptyString) (fs w) = Some T' /\
              (forall es, FS.lookup p (fs w) <> Some (Dir es)) /\
              os_Create p env w = (Val (Handle p, None), logged w T' [EvCreate p None]))
  \/ (exists e, os_Create p env w
                = (Val (NilFile, Some e), logged w (fs w) [EvCreate p (Some e)])).
Proof.
  unfold os_Create, bind, ret, emit, get_fs, set_fs. cbn.
  destruct (FS.lookup p (fs w)) as [[d | es]|] eqn:Hl; cbn; [| right; eauto |].
  - destruct (FS.put p (File EmptyString) (fs w)) eqn:Hp; cbn; [left | right; eauto].
    eexists. repeat split. discriminate.
  - destruct (FS.put p (File EmptyString) (fs w)) eqn:Hp; cbn; [left | right; eauto].
    eexists. repeat split. discriminate.
Qed.

Lemma os_Create_directory (p : path) (es : list (string * node)) :
  FS.lookup p (fs w) = Some (Dir es) ->
  os_Create p env w
  = (Val (NilFile, Some (ErrIsDir p)), logged w (fs w) [EvCreate p (Some (ErrIsDir p))]).
Proof.
  intros H. unfold os_Create, bind, ret, emit, get_fs, set_fs. cbn. now rewrite H.
Qed.

Lemma os_ReadFile_run (p : path) :
  exists data err,
    os_ReadFile p env w = (Val (data, err), logged w (fs w) [EvReadFile p err]).
Proof.
  unfold os_ReadFile, bind, ret, emit, get_fs. cbn.
  destruct (FS.lookup p (fs w)) as [[d | es]|]; cbn; eauto.
Qed.

Lemma os_RemoveAll_cases (p : path) :
  os_RemoveAll p env w = (Val None, logged w (FS.remove p (fs w)) [EvRemoveAll p None])
  \/ (exists e, os_RemoveAll p env w
                = (Val (Some e), logged w (fs w) [EvRemoveAll p (Some e)])).
Proof.
  unfold os_RemoveAll, bind, ret, emit, get_fs, set_fs, ask. cbn.
  destruct (env_remove_fault env p); cbn; [right | left]; eauto.
Qed.

Lemma os_Rename_cases (old new : path) :
  (exists T', rename_fs old new (fs w) = inl T' /\
              os_Rename old new env w = (Val None, logged w T' [EvRename old new None]))
  \/ (exists e, rename_fs old new (fs w) = inr e /\
                os_Rename old new env w
                = (Val (Some e), logged w (fs w) [EvRename old new (Some e)])).
Proof.
  unfold os_Rename, bind, ret, emit, get_fs, set_fs. cbn.
  destruct (rename_fs old new (fs w)); cbn; [left | right]; eauto.
Qed.

Lemma tuf_Initialize_run (m : string) (root : option string) :
  exists err T',
    tuf_Initialize m root env w
    = (Val err, logged w T' [EvTufInitialize m root err])
    /\ (T' = fs w \/
        exists store, FS.put (sigstore_dir env) store (fs w) = Some T').
Proof.
  unfold tuf_Initialize, bind, ret, emit, get_fs, set_fs, ask. cbn.
  destruct (env_tuf_initialize env m root) as [[store|] err]; cbn.
  - destruct (FS.put (sigstore_dir env) store (fs w)) eqn:Hp; cbn; eauto 6.
  - eauto.
Qed.

Lemma tuf_GetRootStatus_run :
  exists st err,
    tuf_GetRootStatus env w = (Val (st, err), logged w (fs w) [EvTufGetRootStatus err]).
Proof.
  unfold tuf_GetRootStatus, bind, ret, emit, ask. cbn.
  destruct (env_tuf_status env); cbn; eauto.
Qed.

Lemma json_MarshalIndent_run (v : string) :
  exists js err, json_MarshalIndent v env w = (Val (js, err), w).
Proof.
  unfold json_MarshalIndent, bind, ret, ask. cbn.
  destruct (env_marshal env v); cbn; eauto.
Qed.

Lemma log_Fatalf_run {A} (msg : string) :
  @log_Fatalf A msg env w = (Exit 1, logged w (fs w) [EvStderr msg]).
Proof. reflexivity. Qed.

Lemma log_Printf_run (msg : string) :
  log_Printf msg env w = (Val tt, logged w (fs w) [EvStderr msg]).
Proof. reflexivity. Qed.

End CallFacts.

(** ** [DownloadFile] *)

Section DownloadFacts.

Variables (env : Env) (w : World).

Ltac run_done :=
  unfold sent, logged, drawn; rewrite <- ?List.app_assoc; reflexivity.

Lemma DownloadFile_cases (f : OsFile) (url : string) :
  let r := env_http env (gets w) url in
  (exists resp p old T',
      r = GetOK resp /\ StatusCode resp = StatusOK /\ BodyErr resp = None /\
      f = Handle p /\ FS.lookup p (fs w) = Some (File old) /\
      FS.put p (File (old +:+ Body resp)) (fs w) = Some T' /\
      DownloadFile f url env w
      = (Val None, sent w T' [EvGet url (GetOK resp); EvWrite p (Body resp) None;
                               EvReturned "DownloadFile" None]))
  \/ (exists e,
      (response_ok r = false \/ f = NilFile) /\
      DownloadFile f url env w
      = (Val (Some e), sent w (fs w) [EvGet url r; EvReturned "DownloadFile" (Some e)]))
  \/ (exists msg,
      f = ZeroFile /\
      DownloadFile f url env w = (Panic msg, sent w (fs w) [EvGet url r]))
  \/ (exists resp p werr e T',
      r = GetOK resp /\ StatusCode resp = StatusOK /\ f = Handle p /\
      ((forall old, FS.lookup p (fs w) <> Some (File old)) \/ BodyErr resp <> None) /\
      DownloadFile f url env w
      = (Val (Some e), sent w T' [EvGet url (GetOK resp); EvWrite p (Body resp) werr;
                                  EvReturned "DownloadFile" (Some e)])).
Proof.
  intros r. unfold DownloadFile, io_Copy, File_Write, http_Get, bind, ret, emit,
    get_fs, set_fs. cbn. fold r.
  destruct r as [e | resp] eqn:Hr; cbn.
  { right; left. exists e. split; [now left | run_done]. }
  destruct (StatusCode resp =? StatusOK)%Z eqn:Hst; cbn.
  2:{ right; left. eexists.
      split; [left; reflexivity | run_done]. }
  apply Z.eqb_eq in Hst.
  destruct f as [| | p]; cbn.
  { right; left; eexists; split; [now right | run_done]. }
  { right; right; left. eexists. split; reflexivity. }
  destruct (FS.lookup p (fs w)) as [[old | es]|] eqn:Hl; cbn.
  - destruct (FS.put p (File (old +:+ Body resp)) (fs w)) as [T'|] eqn:Hp; cbn.
    + destruct (BodyErr resp) as [e|] eqn:Hb; cbn.
      * right; right; right. exists resp, p, None, e, T'.
        repeat split; auto; try run_done; right; congruence.
      * left. exists resp, p, old, T'. repeat split; auto. run_done.
    + destruct (put_existing p (File (old +:+ Body resp)) (fs w) _ Hl) as [T' HT'].
      congruence.
  - right; right; right. exists resp, p, (Some (ErrNotExist p)), (ErrNotExist p), (fs w).
    repeat split; auto; try run_done; left; congruence.
  - right; right; right. exists resp, p, (Some (ErrNotExist p)), (ErrNotExist p), (fs w).
    repeat split; auto; try run_done; left; congruence.
Qed.

End DownloadFacts.

(** ** Stages, step by step *)

Section StepFacts.

Variables (env : Env) (mirror : string).

Lemma abort_tail_not_Val (tail : list event) : ~ abort_tail mirror KVal tail.
Proof. intros H. inversion H. Qed.

(** Calls that went well, then the rest of the stage. *)
Lemma stage_step {A} (m m' : M A) (w w' : World) (s s' : store_state)
    (d : list event) (Q : A -> World -> store_state -> Prop) :
  m env w = m' env w' ->
  trace w' = trace w ++ d ->
  forallb (benign mirror) d = true ->
  store_run env s d = Some s' ->
  stage env mirror m' w' s' Q ->
  stage env mirror m w s Q.
Proof.
  intros Hm Htr Hb Hst (o & w2 & d2 & s2 & Hm' & Htr2 & Hsh & Hst2 & HQ).
  exists o, w2, (d ++ d2), s2. split; [congruence|].
  split; [now rewrite Htr2, Htr, List.app_assoc|].
  split; [apply shaped_app; [now apply shaped_ok | exact Hsh]|].
  split; [now rewrite store_run_app, Hst | exact HQ].
Qed.

(** Calls that went well, then the abort. *)
Lemma stage_abort {A} (m : M A) (w w' : World) (s s' : store_state)
    (o : outcome A) (ok tail : list event) (Q : A -> World -> store_state -> Prop) :
  m env w = (o, w') ->
  trace w' = trace w ++ ok ++ tail ->
  forallb (benign mirror) ok = true ->
  abort_tail mirror (kind o) tail ->
  store_run env s (ok ++ tail) = Some s' ->
  stage env mirror m w s Q.
Proof.
  intros Hm Htr Hb Ht Hst. exists o, w', (ok ++ tail), s'.
  repeat split; auto.
  - now apply shaped_abort.
  - intros a ->. now apply abort_tail_not_Val in Ht.
Qed.

Lemma benign_get_mirror (r : HttpResult) : benign mirror (EvGet mirror r) = true.
Proof. unfold benign. cbn. now rewrite String.eqb_refl. Qed.

Lemma benign_get_ok (url : string) (resp : Response) :
  StatusCode resp = StatusOK -> BodyErr resp = None ->
  benign mirror (EvGet url (GetOK resp)) = true.
Proof.
  intros Hs Hb. unfold benign, response_ok. cbn [failed_event negb andb].
  rewrite Hs, Hb, Z.eqb_refl. cbn. apply orb_true_r.
Qed.

Lemma benign_resolved (p name : string) :
  name <> EmptyString -> benign mirror (EvResolved p name None) = true.
Proof.
  intros H. unfold benign. cbn. apply String.eqb_neq in H. now rewrite H.
Qed.

Lemma candidate_nonempty (p name : string) : candidate p name -> name <> EmptyString.
Proof. intros (ds & Hne & _ & ->) E. destruct ds; [congruence | discriminate]. Qed.

Lemma url_not_mirror (name : string) : mirror +:+ "/" +:+ name <> mirror.
Proof.
  intros E. apply (f_equal String.length) in E.
  rewrite !sapp_length in E. cbn [String.length] in E. lia.
Qed.

Lemma Join_name (dir : path) (name : string) :
  name <> EmptyString -> FS.Join dir [name] = dir ++ [name].
Proof.
  intros H. unfold FS.Join. cbn [List.filter].
  destruct (String.eqb_spec name EmptyString); [contradiction | reflexivity].
Qed.

Lemma Join_empty (dir : path) : FS.Join dir [EmptyString] = dir.
Proof. unfold FS.Join. cbn. apply List.app_nil_r. Qed.

Lemma lookup_put_child (dir : path) (n : string) (x : node) :
  forall T T' es,
    FS.lookup dir T = Some (Dir es) ->
    FS.put (dir ++ [n]) x T = Some T' ->
    FS.lookup dir T' = Some (Dir (FS.assoc_set n x es)).
Proof.
  induction dir as [|a dir IH]; intros T T' es Hl Hp.
  - cbn in Hl. injection Hl as ->. cbn in Hp. now injection Hp as <-.
  - destruct T as [d | es0]; [discriminate|]. rewrite lookup_cons_Dir in Hl.
    destruct (FS.assoc a es0) as [c|] eqn:Hc; [|discriminate].
    cbn [app FS.put] in Hp. rewrite Hc in Hp.
    destruct (dir ++ [n]) as [|b rest] eqn:E; [now destruct dir|].
    destruct (FS.put (b :: rest) x c) as [c'|] eqn:Hc'; [|discriminate].
    injection Hp as <-. rewrite lookup_cons_Dir, assoc_set_same.
    apply (IH c c' es Hl Hc').
Qed.

Lemma assoc_set_set {A} (n : string) (v v0 : A) (es : list (string * A)) :
  FS.assoc_set n v (FS.assoc_set n v0 es) = FS.assoc_set n v es.
Proof.
  induction es as [|[m c] es IH]; cbn [FS.assoc_set].
  - now rewrite String.eqb_refl.
  - destruct (String.eqb m n) eqn:E; cbn [FS.assoc_set].
    + now rewrite String.eqb_refl.
    + now rewrite E, IH.
Qed.

End StepFacts.

(** ** The fetch loop *)

Section FetchFacts.

Variables (env : Env) (mirror : string).

Lemma if_ret {A} (b : bool) (x y : A) (e : Env) (w : World) :
  (if b then ret x else ret y) e w = (Val (if b then x else y), w).
Proof. destruct b; reflexivity. Qed.

Ltac trace_done :=
  unfold sent, logged, drawn, resolved_world; cbn [trace fs gets temps];
  rewrite <- ?List.app_assoc; reflexivity.

(** One round of the loop, from a working directory that holds [es]. *)
Lemma fetchOne_stage (tmp : path) (metadata : string) (rf : OsFile)
    (w : World) (es : list (string * node)) :
  FS.lookup tmp (fs w) = Some (Dir es) ->
  stage env mirror (fetchOne mirror tmp metadata rf) w Fresh
    (fun f w' s' =>
       s' = Fresh /\
       exists name body,
         FS.lookup tmp (fs w') = Some (Dir (FS.assoc_set name (File body) es)) /\
         fetched_name metadata name /\
         f = if String.eqb metadata "root.json" then Handle (tmp ++ [name]) else rf).
Proof.
  intros Hdir.
  (* the name, and the events of its resolution *)
  assert (Hname : exists name w1 d1,
    (if String.eqb metadata "timestamp.json" then ret "timestamp.json"
     else bind (GetLatestMetadataName mirror metadata)
            (fun x => let (name, _) := x in ret name)) env w = (Val name, w1)
    /\ trace w1 = trace w ++ d1 /\ fs w1 = fs w
    /\ store_run env Fresh d1 = Some Fresh
    /\ ((name <> EmptyString /\ fetched_name metadata name /\
         forallb (benign mirror) d1 = true)
        \/ (name = EmptyString /\
            exists r err, d1 = [EvGet mirror r; EvResolved metadata EmptyString err]))).
  { unfold fetched_name.
    destruct (String.eqb metadata "timestamp.json") eqn:Ets.
    - exists "timestamp.json", w, []. cbn. rewrite List.app_nil_r.
      repeat split. left. repeat split. discriminate.
    - destruct (GetLatestMetadataName_total env w mirror metadata) as (name & err & w1 & Hres).
      pose proof (GetLatestMetadataName_trace _ _ _ _ _ _ _ Hres) as ->.
      pose proof (GetLatestMetadataName_name_xor_error _ _ _ _ _ _ _ Hres) as Hx.
      exists name, (resolved_world w mirror metadata (env_http env (gets w) mirror) name err),
        [EvGet mirror (env_http env (gets w) mirror); EvResolved metadata name err].
      rewrite bind_unfold, Hres. split; [reflexivity|].
      split; [reflexivity|]. split; [reflexivity|].
      split; [destruct err; reflexivity|].
      destruct Hx as [[-> Hc] | [Herr ->]].
      + left. pose proof (candidate_nonempty _ _ Hc) as Hne. repeat split; auto.
        cbn [forallb]. now rewrite benign_get_mirror, benign_resolved.
      + right. eauto. }
  destruct Hname as (name & w1 & d1 & Hres & Htr1 & Hfs1 & Hst1 & Hcase).
  unfold fetchOne. rewrite <- Hfs1 in Hdir.
  destruct Hcase as [(Hne & Hfetched & Hben) | (-> & r & err & ->)].
  2:{ (* no name: the path is the directory itself, and the file is nil *)
    eapply (stage_abort env mirror _ w _ Fresh _ _ [] _).
    - rewrite bind_unfold, Hres. cbv beta iota. rewrite Join_empty.
      rewrite bind_unfold, (os_Create_directory env w1 tmp es Hdir). reflexivity.
    - unfold logged. cbn [trace]. rewrite Htr1, <- List.app_assoc. reflexivity.
    - reflexivity.
    - apply tail_resolve_panic.
    - destruct err; reflexivity. }
  eapply (stage_step env mirror _ _ w w1 Fresh Fresh d1);
    [rewrite bind_unfold, Hres; cbv beta iota; reflexivity | exact Htr1 | exact Hben
     | exact Hst1 |].
  rewrite (Join_name tmp name Hne).
  destruct (os_Create_cases env w1 (tmp ++ [name])) as [(T1 & HT1 & _ & Hcr) | (e & Hcr)].
  2:{ eapply (stage_abort env mirror _ w1 _ Fresh _ _ [] _).
      - rewrite bind_unfold, Hcr. reflexivity.
      - unfold logged. cbn [trace]. reflexivity.
      - reflexivity.
      - apply tail_create_panic.
      - reflexivity. }
  eapply (stage_step env mirror _ _ w1 (logged w1 T1 [EvCreate (tmp ++ [name]) None])
            Fresh Fresh [EvCreate (tmp ++ [name]) None]);
    [rewrite bind_unfold, Hcr; cbv beta iota; reflexivity | reflexivity | reflexivity
     | reflexivity |].
  pose proof (lookup_put_child _ _ _ _ _ _ Hdir HT1) as Hdir2.
  pose proof (lookup_put_same _ _ _ _ HT1) as Hfile2.
  destruct (DownloadFile_cases env (logged w1 T1 [EvCreate (tmp ++ [name]) None])
              (Handle (tmp ++ [name])) (mirror +:+ "/" +:+ name))
    as [(resp & p & old & T2 & Hr & Hs & Hb & Hp & Hl & HT2 & Hdl)
       | [(e & _ & Hdl)
         | [(msg & Hz & _)
           | (resp & p & werr & e & T2 & Hr & Hs & Hp & _ & Hdl)]]];
      [| | discriminate Hz |].
  - (* the file is there *)
    injection Hp as <-. unfold logged at 1 in Hl. unfold logged at 1 in HT2.
    cbn [fs] in Hl, HT2.
    rewrite Hfile2 in Hl. injection Hl as <-.
    eapply stage_intro.
    + rewrite bind_unfold, Hdl. cbv beta iota. apply if_ret.
    + trace_done.
    + apply shaped_ok. cbn [forallb].
      rewrite (benign_get_ok mirror _ resp Hs Hb). reflexivity.
    + reflexivity.
    + intros f [= <-]. split; [reflexivity|].
      exists name, (Body resp). split; [|split; [exact Hfetched | reflexivity]].
      unfold sent. cbn [fs].
      rewrite (lookup_put_child _ _ _ _ _ _ Hdir2 HT2), assoc_set_set.
      reflexivity.
  - eapply (stage_abort env mirror _ _ _ Fresh _ _ [] _).
    + rewrite bind_unfold, Hdl. reflexivity.
    + trace_done.
    + reflexivity.
    + apply tail_download_refused. apply url_not_mirror.
    + reflexivity.
  - eapply (stage_abort env mirror _ _ _ Fresh _ _ [] _).
    + rewrite bind_unfold, Hdl. reflexivity.
    + trace_done.
    + reflexivity.
    + apply tail_download_broken; [apply url_not_mirror | exact Hs].
    + reflexivity.
Qed.

(** The four rounds. *)
Lemma fetchLoop_stage (tmp : path) (w : World) (es : list (string * node)) :
  FS.lookup tmp (fs w) = Some (Dir es) ->
  stage env mirror (fetchLoop mirror tmp madatadas ZeroFile) w Fresh
    (fun f w' s' =>
       s' = Fresh /\
       exists n1 b1 n2 b2 n3 b3 b4,
         FS.lookup tmp (fs w')
         = Some (Dir (FS.assoc_set "timestamp.json" (File b4)
                       (FS.assoc_set n3 (File b3)
                         (FS.assoc_set n2 (File b2)
                           (FS.assoc_set n1 (File b1) es))))) /\
         candidate "root.json" n1 /\ candidate "snapshot.json" n2 /\
         candidate "targets.json" n3 /\
         f = Handle (tmp ++ [n1])).
Proof.
  intros Hdir. unfold madatadas. cbn [fetchLoop].
  eapply stage_bind; [apply (fetchOne_stage tmp "root.json" ZeroFile w es Hdir)|].
  intros f1 w1 s1 (-> & n1 & b1 & Hd1 & Hc1 & ->).
  eapply stage_bind; [apply (fetchOne_stage tmp "snapshot.json" _ w1 _ Hd1)|].
  intros f2 w2 s2 (-> & n2 & b2 & Hd2 & Hc2 & ->).
  eapply stage_bind; [apply (fetchOne_stage tmp "targets.json" _ w2 _ Hd2)|].
  intros f3 w3 s3 (-> & n3 & b3 & Hd3 & Hc3 & ->).
  eapply stage_bind; [apply (fetchOne_stage tmp "timestamp.json" _ w3 _ Hd3)|].
  intros f4 w4 s4 (-> & n4 & b4 & Hd4 & Hc4 & ->).
  apply stage_ret. split; [reflexivity|].
  cbv in Hc4. subst n4.
  exists n1, b1, n2, b2, n3, b3, b4. repeat split; auto.
Qed.

(** Lines 49-86. *)
Lemma resolveAndFetch_stage (tmp : path) (w : World) (es : list (string * node)) :
  FS.lookup tmp (fs w) = Some (Dir es) ->
  stage env mirror (resolveAndFetch mirror tmp) w Fresh
    (fun f w' s' =>
       s' = Fresh /\
       exists n1 b1 n2 b2 n3 b3 b4,
         FS.lookup tmp (fs w')
         = Some (Dir (FS.assoc_set "timestamp.json" (File b4)
                       (FS.assoc_set n3 (File b3)
                         (FS.assoc_set n2 (File b2)
                           (FS.assoc_set n1 (File b1) es))))) /\
         candidate "root.json" n1 /\ candidate "snapshot.json" n2 /\
         candidate "targets.json" n3 /\
         f = Handle (tmp ++ [n1])).
Proof.
  intros Hdir. unfold resolveAndFetch.
  destruct (GetLatestMetadataName_total env w mirror "root.json") as (name & err & w1 & Hres).
  pose proof (GetLatestMetadataName_trace _ _ _ _ _ _ _ Hres) as ->.
  pose proof (GetLatestMetadataName_name_xor_error _ _ _ _ _ _ _ Hres) as Hx.
  destruct (String.eqb_spec name EmptyString) as [-> | Hne].
  - eapply (stage_abort env mirror _ w _ Fresh _ _ [] _).
    + rewrite bind_unfold, Hres. cbv beta iota. rewrite bind_unfold.
      cbn [String.eqb]. rewrite log_Fatalf_run. reflexivity.
    + trace_done.
    + reflexivity.
    + apply tail_resolve_fatal.
    + destruct err; reflexivity.
  - destruct Hx as [[-> Hc] | [_ ->]]; [|congruence].
    eapply (stage_step env mirror _ _ w _ Fresh Fresh
              [EvGet mirror (env_http env (gets w) mirror);
               EvResolved "root.json" name None;
               EvStderr ("mirror " +:+ mirror +:+ ", root " +:+ mirror +:+ "/" +:+ name)]).
    + rewrite bind_unfold, Hres. cbv beta iota. rewrite bind_unfold.
      apply String.eqb_neq in Hne. rewrite Hne. cbv beta iota.
      change (ret tt env) with (fun w0 : World => (Val tt, w0)). cbv beta iota.
      rewrite bind_unfold, log_Printf_run. cbv beta iota. reflexivity.
    + trace_done.
    + cbn [forallb]. now rewrite benign_get_mirror, benign_resolved.
    + reflexivity.
    + apply fetchLoop_stage. exact Hdir.
Qed.

End FetchFacts.

(** ** The trust store, the move, the archive *)

Section LaterStages.

Variables (env : Env) (mirror : string).

Ltac trace_done :=
  repeat match goal with x := _ : World |- _ => subst x end;
  unfold sent, logged, drawn, resolved_world; cbn [trace fs gets temps];
  rewrite <- ?List.app_assoc; reflexivity.

Ltac exec H := rewrite bind_unfold, H; cbv beta iota delta [ret].

Lemma path_eqb_refl (p : path) : path_eqb p p = true.
Proof. unfold path_eqb. now rewrite strip_refl. Qed.

Lemma path_eqb_eq (p q : path) : path_eqb p q = true -> p = q.
Proof.
  unfold path_eqb. destruct (FS.strip p q) as [[|]|] eqn:E; try discriminate.
  intros _. apply strip_Some in E. now rewrite List.app_nil_r in E.
Qed.

Lemma lookup_remove_disjoint (p : path) :
  forall T q, FS.disjoint p q -> FS.lookup q (FS.remove p T) = FS.lookup q T.
Proof.
  induction p as [|n p IH]; intros T q [Hpq Hqp]; [discriminate|].
  destruct T as [d | es]; [reflexivity|].
  destruct q as [|m q]; [discriminate|]. cbn [FS.strip] in Hpq, Hqp.
  cbn [FS.remove]. destruct p as [|n' p'].
  - rewrite !lookup_cons_Dir.
    destruct (String.eqb_spec n m) as [-> | Hne]; [discriminate|].
    now rewrite assoc_del_other.
  - destruct (FS.assoc n es) as [c|] eqn:Hc; [|reflexivity].
    rewrite !lookup_cons_Dir.
    destruct (String.eqb_spec n m) as [-> | Hne].
    + rewrite assoc_set_same, Hc. rewrite String.eqb_refl in Hqp.
      apply IH. now split.
    + now rewrite assoc_set_other.
Qed.

Lemma lookup_remove_same (p : path) :
  p <> [] -> forall T, FS.lookup p (FS.remove p T) = None.
Proof.
  induction p as [|n p IH]; intros Hne T; [congruence|].
  destruct T as [d | es]; [reflexivity|].
  cbn [FS.remove]. destruct p as [|n' p'].
  - now rewrite lookup_cons_Dir, assoc_del_same.
  - destruct (FS.assoc n es) as [c|] eqn:Hc.
    + rewrite lookup_cons_Dir, assoc_set_same. apply IH. discriminate.
    + now rewrite lookup_cons_Dir, Hc.
Qed.

Lemma cleanup_cases (w : World) :
  let tufDir := sigstore_dir env in
  cleanupLocalTUFRepository env w
  = (Val None, logged w (FS.remove tufDir (fs w))
                 [EvRemoveAll tufDir None; EvReturned "cleanupLocalTUFRepository" None])
  \/ (exists e e',
       cleanupLocalTUFRepository env w
       = (Val (Some e'), logged w (fs w)
                           [EvRemoveAll tufDir (Some e);
                            EvReturned "cleanupLocalTUFRepository" (Some e')])).
Proof.
  intros tufDir. unfold cleanupLocalTUFRepository.
  rewrite bind_unfold. cbv beta iota zeta delta [ask].
  change (FS.Join (env_home env) [".sigstore"]) with tufDir.
  destruct (os_RemoveAll_cases env w tufDir) as [H | (e & H)].
  - left. exec H. unfold emit, bind. cbn. trace_done.
  - right. exists e, (ErrorfCleanup tufDir e). exec H. unfold emit, bind. cbn. trace_done.
Qed.

(** Lines 88-109. *)
Lemma initializeTrust_stage (p : path) (w : World) :
  stage env mirror (initializeTrust mirror (Handle p)) w Fresh
    (fun _ w' s' =>
       s' = Initialized /\
       forall q, FS.disjoint (sigstore_dir env) q ->
                 FS.lookup q (fs w') = FS.lookup q (fs w)).
Proof.
  unfold initializeTrust.
  destruct (cleanup_cases w) as [Hcl | (e & e' & Hcl)]; cbv zeta in Hcl.
  2:{ eapply (stage_abort env mirror _ w _ Fresh _ _ [] _).
      - exec Hcl. rewrite bind_unfold, log_Fatalf_run. reflexivity.
      - trace_done.
      - reflexivity.
      - apply tail_returned; discriminate.
      - cbn. rewrite path_eqb_refl. reflexivity. }
  set (w1 := logged w (FS.remove (sigstore_dir env) (fs w))
               [EvRemoveAll (sigstore_dir env) None;
                EvReturned "cleanupLocalTUFRepository" None]) in *.
  destruct (os_ReadFile_run env w1 p) as (root & rerr & Hrd).
  set (w2 := logged w1 (fs w1) [EvReadFile p rerr]) in *.
  destruct (tuf_Initialize_run env w2 mirror root) as (ierr & T3 & Hin & HT3).
  set (w3 := logged w2 T3 [EvTufInitialize mirror root ierr]) in *.
  assert (Hfs3 : forall q, FS.disjoint (sigstore_dir env) q ->
                           FS.lookup q T3 = FS.lookup q (fs w)).
  { intros q Hq. destruct HT3 as [-> | (store & Hput)].
    - cbn. now apply lookup_remove_disjoint.
    - rewrite (lookup_put_disjoint _ _ _ _ Hput q Hq). cbn.
      now apply lookup_remove_disjoint. }
  destruct ierr as [ie|].
  { eapply (stage_abort env mirror _ w _ Fresh _ _
              [EvRemoveAll (sigstore_dir env) None;
               EvReturned "cleanupLocalTUFRepository" None; EvReadFile p rerr]
              [EvTufInitialize mirror root (Some ie);
               EvStderr "Error: could not initialize TUF"]).
    - exec Hcl. rewrite bind_unfold. cbv beta iota delta [ret].
      rewrite bind_unfold. cbv beta iota delta [File_Name ret].
      exec Hrd. exec Hin. rewrite bind_unfold, log_Fatalf_run. reflexivity.
    - trace_done.
    - reflexivity.
    - apply tail_fatal; discriminate.
    - cbn. rewrite path_eqb_refl. reflexivity. }
  destruct (tuf_GetRootStatus_run env w3) as (st & serr & Hst).
  set (w4 := logged w3 (fs w3) [EvTufGetRootStatus serr]) in *.
  destruct serr as [se|].
  { eapply (stage_abort env mirror _ w _ Fresh _ _
              [EvRemoveAll (sigstore_dir env) None;
               EvReturned "cleanupLocalTUFRepository" None; EvReadFile p rerr;
               EvTufInitialize mirror root None]
              [EvTufGetRootStatus (Some se);
               EvStderr "Error: could not get root status"]).
    - exec Hcl. rewrite bind_unfold. cbv beta iota delta [ret].
      rewrite bind_unfold. cbv beta iota delta [File_Name ret].
      exec Hrd. exec Hin. rewrite bind_unfold. cbv beta iota delta [ret].
      exec Hst. rewrite bind_unfold, log_Fatalf_run. reflexivity.
    - trace_done.
    - reflexivity.
    - apply tail_fatal; discriminate.
    - cbn. rewrite path_eqb_refl. reflexivity. }
  destruct (json_MarshalIndent_run env w4 st) as (js & jerr & Hjs).
  destruct jerr as [je|].
  { eapply (stage_abort env mirror _ w _ Fresh _ _
              [EvRemoveAll (sigstore_dir env) None;
               EvReturned "cleanupLocalTUFRepository" None; EvReadFile p rerr;
               EvTufInitialize mirror root None; EvTufGetRootStatus None]
              [EvStderr "Error: could not marshal root status to JSON"]).
    - exec Hcl. rewrite bind_unfold. cbv beta iota delta [ret].
      rewrite bind_unfold. cbv beta iota delta [File_Name ret].
      exec Hrd. exec Hin. rewrite bind_unfold. cbv beta iota delta [ret].
      exec Hst. rewrite bind_unfold. cbv beta iota delta [ret].
      exec Hjs. rewrite bind_unfold, log_Fatalf_run. reflexivity.
    - trace_done.
    - reflexivity.
    - apply tail_message.
    - cbn. rewrite path_eqb_refl. reflexivity. }
  eapply stage_intro.
  - exec Hcl. rewrite bind_unfold. cbv beta iota delta [ret].
    rewrite bind_unfold. cbv beta iota delta [File_Name ret].
    exec Hrd. exec Hin. rewrite bind_unfold. cbv beta iota delta [ret].
    exec Hst. rewrite bind_unfold. cbv beta iota delta [ret].
    exec Hjs. rewrite bind_unfold. cbv beta iota delta [ret].
    rewrite log_Printf_run. reflexivity.
  - trace_done.
  - apply shaped_ok. reflexivity.
  - cbn. rewrite path_eqb_refl. reflexivity.
  - intros _ _. split; [reflexivity|]. exact Hfs3.
Qed.

End LaterStages.

(** ** The move, the archive, the manifest *)

Section FinalStages.

Variables (env : Env) (mirror : string).

Ltac trace_done :=
  repeat match goal with x := _ : World |- _ => subst x end;
  unfold sent, logged, drawn, resolved_world; cbn [trace fs gets temps];
  rewrite <- ?List.app_assoc; reflexivity.

Ltac exec H := rewrite bind_unfold, H; cbv beta iota delta [ret].

(** Lines 111-117. *)
Lemma moveTargets_stage (tmp : path) (w : World) :
  stage env mirror (moveTargets tmp) w Initialized
    (fun _ w' s' =>
       s' = Initialized /\
       rename_fs (FS.Join (env_home env) [".sigstore"; "root"; "targets"])
                 (FS.Join tmp ["targets"]) (fs w) = inl (fs w')).
Proof.
  unfold moveTargets.
  destruct (os_Rename_cases env w
              (FS.Join (env_home env) [".sigstore"; "root"; "targets"])
              (FS.Join tmp ["targets"])) as [(T' & HT' & Hmv) | (e & _ & Hmv)].
  - eapply stage_intro.
    + rewrite bind_unfold. cbv beta iota zeta delta [ask].
      exec Hmv. reflexivity.
    + trace_done.
    + apply shaped_ok. reflexivity.
    + reflexivity.
    + intros _ _. split; [reflexivity | exact HT'].
  - eapply (stage_abort env mirror _ w _ Initialized _ _ [] _).
    + rewrite bind_unfold. cbv beta iota zeta delta [ask].
      exec Hmv. rewrite log_Fatalf_run. reflexivity.
    + trace_done.
    + reflexivity.
    + apply tail_fatal; discriminate.
    + reflexivity.
Qed.

Lemma CompressDirectory_cases (src dst : path) (w : World) :
  (exists e, CompressDirectory src dst env w
             = (Val (Some e), logged w (fs w)
                                [EvCreate dst (Some e);
                                 EvReturned "CompressDirectory" (Some e)]))
  \/ (exists T d werr err,
        CompressDirectory src dst env w
        = (Val err, logged w T [EvCreate dst None; EvWrite dst d werr;
                                EvReturned "CompressDirectory" err])).
Proof.
  unfold CompressDirectory. rewrite bind_unfold. cbv beta iota delta [ask].
  destruct (os_Create_cases env w dst) as [(T1 & HT1 & _ & Hcr) | (e & Hcr)].
  2:{ left. exists e. exec Hcr. unfold bind, emit. cbn. trace_done. }
  right. exec Hcr. rewrite bind_unfold.
  unfold File_Write, get_fs, bind, emit, set_fs, ret. cbn.
  destruct (FS.lookup src T1) as [tree|]; cbn;
    destruct (FS.lookup dst T1) as [[old | es]|]; cbn;
    try match goal with
      | |- context [FS.put ?p ?x ?t] => destruct (FS.put p x t); cbn
      end;
    eexists _, _, _, _; trace_done.
Qed.

Lemma EncodeBase64_cases (p : path) (w : World) :
  exists s err rerr,
    EncodeBase64 (Handle p) env w
    = (Val (s, err), logged w (fs w) [EvReadFile p rerr; EvReturned "EncodeBase64" err]).
Proof.
  unfold EncodeBase64, File_Name. rewrite bind_unfold. cbv beta iota delta [ret].
  destruct (os_ReadFile_run env w p) as (data & rerr & Hrd).
  exec Hrd. unfold bind, emit. cbn.
  destruct rerr, data; cbn; eexists _, _, _; trace_done.
Qed.

Lemma defer_Close {A} (f : OsFile) (body : M A) (w : World) :
  defer (File_Close f) body env w = body env w.
Proof.
  unfold defer, File_Close, ret. destruct (body env w) as [[a | c | msg] w']; reflexivity.
Qed.

(** Lines 119-154. *)
Lemma packageAndEmit_stage (tmp p : path) (w : World) :
  stage env mirror (packageAndEmit mirror tmp (Handle p)) w Initialized
    (fun _ w' s' =>
       s' = Initialized /\
       exists pre b64RootJSON b64RepositoryArchive,
         trace w' = pre ++ [EvStdout (trustRootYAML mirror (env_now env)
                                        b64RootJSON b64RepositoryArchive +:+ nl)]).
Proof.
  unfold packageAndEmit.
  destruct (os_CreateTemp_cases env w "repository-" ".tar.gz")
    as [(T1 & _ & _ & Hct) | (e & Hct)]; cbv zeta in Hct.
  2:{ eapply (stage_abort env mirror _ w _ Initialized _ _ [] _).
      - exec Hct. rewrite bind_unfold, log_Fatalf_run. reflexivity.
      - trace_done.
      - reflexivity.
      - apply tail_fatal; discriminate.
      - reflexivity. }
  set (arch := env_tmpdir env ++ ["repository-" +:+ env_rand env (temps w) +:+ ".tar.gz"]) in *.
  set (w1 := drawn w T1 [EvCreateTemp arch None]) in *.
  destruct (CompressDirectory_cases tmp arch w1)
    as [(e & Hcd) | (T2 & d & werr & [e|] & Hcd)].
  { eapply (stage_abort env mirror _ w _ Initialized _ _ [EvCreateTemp arch None] _).
    - exec Hct. rewrite bind_unfold. cbv beta iota delta [ret].
      rewrite defer_Close. rewrite bind_unfold. cbv beta iota delta [File_Name ret].
      exec Hcd. rewrite bind_unfold, log_Fatalf_run. reflexivity.
    - trace_done.
    - reflexivity.
    - apply tail_returned; discriminate.
    - reflexivity. }
  { eapply (stage_abort env mirror _ w _ Initialized _ _ [EvCreateTemp arch None] _).
    - exec Hct. rewrite bind_unfold. cbv beta iota delta [ret].
      rewrite defer_Close. rewrite bind_unfold. cbv beta iota delta [File_Name ret].
      exec Hcd. rewrite bind_unfold, log_Fatalf_run. reflexivity.
    - trace_done.
    - reflexivity.
    - apply tail_archive.
    - reflexivity. }
  set (w2 := logged w1 T2 [EvCreate arch None; EvWrite arch d werr;
                           EvReturned "CompressDirectory" None]) in *.
  destruct (EncodeBase64_cases arch w2) as (b64a & [e|] & rerr & He1).
  { eapply (stage_abort env mirror _ w _ Initialized _ _
              [EvCreateTemp arch None; EvCreate arch None; EvWrite arch d werr;
               EvReturned "CompressDirectory" None] _).
    - exec Hct. rewrite bind_unfold. cbv beta iota delta [ret].
      rewrite defer_Close. rewrite bind_unfold. cbv beta iota delta [File_Name ret].
      exec Hcd. rewrite bind_unfold. cbv beta iota delta [ret].
      exec He1. rewrite bind_unfold, log_Fatalf_run. reflexivity.
    - trace_done.
    - reflexivity.
    - apply tail_returned; discriminate.
    - reflexivity. }
  set (w3 := logged w2 (fs w2) [EvReadFile arch rerr; EvReturned "EncodeBase64" None]) in *.
  destruct (EncodeBase64_cases p w3) as (b64r & [e|] & rerr' & He2).
  { eapply (stage_abort env mirror _ w _ Initialized _ _
              [EvCreateTemp arch None; EvCreate arch None; EvWrite arch d werr;
               EvReturned "CompressDirectory" None;
               EvReadFile arch rerr; EvReturned "EncodeBase64" None] _).
    - exec Hct. rewrite bind_unfold. cbv beta iota delta [ret].
      rewrite defer_Close. rewrite bind_unfold. cbv beta iota delta [File_Name ret].
      exec Hcd. rewrite bind_unfold. cbv beta iota delta [ret].
      exec He1. rewrite bind_unfold. cbv beta iota delta [ret].
      exec He2. rewrite bind_unfold, log_Fatalf_run. reflexivity.
    - trace_done.
    - reflexivity.
    - apply tail_returned; discriminate.
    - reflexivity. }
  eapply stage_intro.
  - exec Hct. rewrite bind_unfold. cbv beta iota delta [ret].
    rewrite defer_Close. rewrite bind_unfold. cbv beta iota delta [File_Name ret].
    exec Hcd. rewrite bind_unfold. cbv beta iota delta [ret].
    exec He1. rewrite bind_unfold. cbv beta iota delta [ret].
    exec He2. rewrite bind_unfold. cbv beta iota delta [ret].
    rewrite bind_unfold. unfold time_Now_Unix. rewrite bind_unfold.
    cbv beta iota delta [ask ret]. unfold fmt_Println, emit. reflexivity.
  - trace_done.
  - apply shaped_ok. reflexivity.
  - reflexivity.
  - intros _ _. split; [reflexivity|]. eexists _, b64r, b64a. cbn [trace]. reflexivity.
Qed.

(** The stages between the creation of the working directory and the
    archive. *)
Lemma assembleRepository_stage (tmp : path) (w : World) (es : list (string * node)) :
  FS.lookup tmp (fs w) = Some (Dir es) ->
  stage env mirror (assembleRepository mirror tmp) w Fresh
    (fun f w' s' =>
       s' = Initialized /\
       exists n1 b1 n2 b2 n3 b3 b4 T,
         f = Handle (tmp ++ [n1]) /\
         candidate "root.json" n1 /\ candidate "snapshot.json" n2 /\
         candidate "targets.json" n3 /\
         rename_fs (FS.Join (env_home env) [".sigstore"; "root"; "targets"])
                   (FS.Join tmp ["targets"]) T = inl (fs w') /\
         (FS.disjoint (sigstore_dir env) tmp ->
          FS.lookup tmp T
          = Some (Dir (FS.assoc_set "timestamp.json" (File b4)
                        (FS.assoc_set n3 (File b3)
                          (FS.assoc_set n2 (File b2)
                            (FS.assoc_set n1 (File b1) es))))))).
Proof.
  intros Hdir. unfold assembleRepository.
  eapply stage_bind; [apply (resolveAndFetch_stage env mirror tmp w es Hdir)|].
  intros f w1 s1 (-> & n1 & b1 & n2 & b2 & n3 & b3 & b4 & Hd & Hc1 & Hc2 & Hc3 & ->).
  eapply stage_bind; [apply (initializeTrust_stage env mirror (tmp ++ [n1]) w1)|].
  intros _ w2 s2 (-> & Hkeep).
  eapply stage_bind; [apply (moveTargets_stage tmp w2)|].
  intros _ w3 s3 (-> & Hmv).
  apply stage_ret. split; [reflexivity|].
  exists n1, b1, n2, b2, n3, b3, b4, (fs w2). repeat split; auto.
  intros Hdisj. rewrite (Hkeep tmp Hdisj). exact Hd.
Qed.

Lemma temp_dir_not_store (name : string) :
  path_eqb (env_tmpdir env ++ ["tuf-repository-" +:+ name]) (sigstore_dir env) = false.
Proof.
  destruct (path_eqb _ _) eqn:E; [|reflexivity].
  apply path_eqb_eq in E. unfold sigstore_dir, FS.Join in E. cbn [List.filter] in E.
  cbn in E. apply app_inj_tail in E as [_ E]. discriminate.
Qed.

(** Every run. *)
Lemma run_shape (t : node) :
  run_shaped env mirror (fst (run env mirror t)) (trace (snd (run env mirror t))).
Proof.
  unfold run, main.
  destruct (os_MkdirTemp_cases env (initial t) "tuf-repository-" EmptyString)
    as [(T1 & _ & HT1 & Hmk) | (e & Hmk)]; cbv zeta in Hmk.
  2:{ rewrite bind_unfold, Hmk. cbv beta iota.
      rewrite bind_unfold, log_Fatalf_run. cbn [fst snd].
      eexists [_; _], [], _. split; [reflexivity|].
      split; [apply (shaped_abort mirror _ []); [reflexivity | apply tail_fatal; discriminate]|].
      split; [reflexivity|]. split; [now left | reflexivity]. }
  set (tmp := env_tmpdir env ++ ["tuf-repository-" +:+ env_rand env (temps (initial t))
                                  +:+ EmptyString]) in *.
  set (w1 := drawn (initial t) T1 [EvMkdirTemp tmp None]) in *.
  assert (Hbody : stage env mirror
            (let* rootJSONFile := assembleRepository mirror tmp in
             packageAndEmit mirror tmp rootJSONFile) w1 Fresh (fun _ _ _ => True)).
  { eapply stage_bind.
    - apply (assembleRepository_stage tmp w1 []).
      apply (lookup_put_same _ _ _ _ HT1).
    - intros f w2 s2 (-> & n1 & _ & _ & _ & _ & _ & _ & _ & -> & _).
      eapply stage_weaken; [apply packageAndEmit_stage | auto]. }
  destruct Hbody as (o & w2 & d & s2 & Hrun & Htr & Hsh & Hst & _).
  rewrite bind_unfold, Hmk. cbv beta iota.
  rewrite bind_unfold. cbv beta iota delta [ret].
  unfold defer. rewrite Hrun.
  match goal with
  | |- context [snd (?d env w2)] =>
      assert (Hrm : exists err T, snd (d env w2) = logged w2 T [EvRemoveAll tmp err])
  end.
  { unfold bind.
    destruct (os_RemoveAll_cases env w2 tmp) as [H | (e & H)]; rewrite H; cbn; eauto. }
  destruct Hrm as (err & T & Hrm).
  assert (Hquiet : forall s, exists s', store_step env s (EvRemoveAll tmp err) = Some s').
  { intros s. unfold store_step. subst tmp. rewrite temp_dir_not_store.
    destruct s; eauto. }
  assert (Hpre : shaped mirror (kind o) ([EvMkdirTemp tmp None] ++ d)).
  { apply shaped_app; [apply shaped_ok; reflexivity | exact Hsh]. }
  assert (Hpre' : store_run env Fresh ([EvMkdirTemp tmp None] ++ d) = Some s2).
  { cbn [app store_run store_step]. exact Hst. }
  destruct (Hquiet s2) as [s3 Hs3].
  assert (Htr1 : trace w1 = [EvMkdirTemp tmp None]) by reflexivity.
  assert (Hall : store_run env Fresh
                   (([EvMkdirTemp tmp None] ++ d) ++ [EvRemoveAll tmp err]) = Some s3).
  { rewrite store_run_app, Hpre'. cbn [store_run]. now rewrite Hs3. }
  destruct o as [a | c | msg]; cbn [fst snd].
  - rewrite Hrm. unfold logged. cbn [trace]. rewrite Htr, Htr1.
    exists ([EvMkdirTemp tmp None] ++ d), [EvRemoveAll tmp err], s3.
    split; [reflexivity|]. split; [exact Hpre|]. split; [exact Hall|].
    split; [right; eauto | discriminate].
  - rewrite Htr, Htr1.
    exists ([EvMkdirTemp tmp None] ++ d), [], s2.
    split; [now rewrite List.app_nil_r|]. split; [exact Hpre|]. split; [exact Hpre'|].
    split; [now left | reflexivity].
  - rewrite Hrm. unfold logged. cbn [trace]. rewrite Htr, Htr1.
    exists ([EvMkdirTemp tmp None] ++ d), [EvRemoveAll tmp err], s3.
    split; [reflexivity|]. split; [exact Hpre|]. split; [exact Hall|].
    split; [right; eauto | discriminate].
Qed.

End FinalStages.

(** ** Reading the trace of a run *)

Section TraceFacts.

Variables (env : Env) (mirror : string).

(** An event that is not benign lies after the benign prefix. *)
Lemma split_after_benign (ok rest pre post : list event) (x : event) :
  forallb (benign mirror) ok = true -> benign mirror x = false ->
  pre ++ x :: post = ok ++ rest ->
  exists t1, pre = ok ++ t1 /\ rest = t1 ++ x :: post.
Proof.
  revert pre; induction ok as [|e ok IH]; intros pre Hok Hx E.
  - exists pre. auto.
  - cbn [forallb] in Hok. apply andb_true_iff in Hok as [He Hok].
    destruct pre as [|e' pre].
    + cbn in E. injection E as -> _. congruence.
    + cbn in E. injection E as -> E.
      destruct (IH pre Hok Hx E) as (t1 & -> & ->). exists t1. auto.
Qed.

Lemma exit_code_of_abort (c : Z) (tail : list event) :
  abort_tail mirror (KExit c) tail -> c = 1%Z.
Proof. intros H. inversion H; reflexivity. Qed.

Lemma kind_Val {A} (o : outcome A) : kind o = KVal -> exit_status o = 0%Z.
Proof. destruct o; cbn; congruence. Qed.

Lemma aborted_status {A} (o : outcome A) (tail : list event) :
  abort_tail mirror (kind o) tail -> exit_status o <> 0%Z.
Proof.
  destruct o as [a | c | msg]; cbn; intros H.
  - inversion H.
  - apply exit_code_of_abort in H. lia.
  - lia.
Qed.

Lemma shaped_status_0 {A} (o : outcome A) (body : list event) :
  shaped mirror (kind o) body -> exit_status o = 0%Z ->
  forallb (benign mirror) body = true.
Proof.
  intros (ok & tail & -> & Hok & Ht) H0.
  destruct o as [a | c | msg]; cbn in *.
  - subst tail. now rewrite List.app_nil_r.
  - apply exit_code_of_abort in Ht. lia.
  - lia.
Qed.

Lemma benign_not_failed (e : event) :
  benign mirror e = true -> negb (failed_event e) = true.
Proof. unfold benign. intros H. now apply andb_true_iff in H. Qed.

End TraceFacts.

(** ** Claims about failures of the run *)

(** Where an event sits in an explicit list. *)
Ltac locate H :=
  match type of H with
  | [] = ?t ++ _ :: _ => destruct t; discriminate H
  | _ :: _ = ?t ++ _ :: _ =>
      let Hhd := fresh "Hhd" in
      destruct t as [|? ?]; cbn [app] in H; injection H as Hhd H;
      [ try discriminate Hhd | clear Hhd; locate H ]
  end.

(** C2: in every run, a resolution that fails (empty name or error) is
    followed by nothing but the message, the failed creation of the file
    and the deferred removal of the working directory, and the process
    ends with a non-zero status; with status 0, no resolution, download,
    creation, move, archive or encoding failed and the TUF client
    reported no error. *)
Theorem resolution_failure_aborts (env : Env) (mirror : string) (t : node) :
  let out := fst (run env mirror t) in
  let tr := trace (snd (run env mirror t)) in
  (forall pre metadataPattern name err post,
      tr = pre ++ EvResolved metadataPattern name err :: post ->
      name = EmptyString \/ err <> None ->
      exit_status out <> 0%Z /\ forallb quiet post = true)
  /\ (exit_status out = 0%Z -> forallb (fun e => negb (failed_event e)) tr = true).
Proof.
  cbv zeta.
  destruct (run_shape env mirror t)
    as (body & deferred & s & Htr & Hsh & _ & Hdef & Hexit).
  split.
  - intros pre p name err post E Hfail. rewrite Htr in E.
    destruct Hsh as (ok & tail & -> & Hok & Ht).
    assert (Hx : benign mirror (EvResolved p name err) = false).
    { unfold benign. cbn [failed_event].
      destruct Hfail as [-> | Herr]; [reflexivity|].
      destruct err; [|congruence]. now rewrite orb_true_r. }
    rewrite <- List.app_assoc in E. symmetry in E.
    destruct (split_after_benign mirror _ _ _ _ _ Hok Hx E) as (t1 & -> & E1).
    clear E.
    destruct (fst (run env mirror t)) as [a | c | msg] eqn:Hout; cbn [kind] in Ht.
    + subst tail. cbn [app] in E1.
      destruct Hdef as [-> | (q & e & ->)]; locate E1.
    + pose proof (exit_code_of_abort mirror c tail Ht) as ->.
      rewrite (Hexit 1%Z eq_refl) in E1. rewrite List.app_nil_r in E1.
      split; [cbn; lia|].
      revert E1; inversion Ht; subst; intros E1; locate E1;
        try (exfalso; eapply H0; eauto; fail);
        try (exfalso; eapply H1; eauto; fail);
        subst; reflexivity.
    + split; [cbn; lia|].
      revert E1; inversion Ht; subst;
        destruct Hdef as [-> | (q' & e' & ->)]; intros E1; cbn [app] in E1; locate E1;
        subst; reflexivity.
  - intros H0. rewrite Htr, forallb_app.
    pose proof (shaped_status_0 mirror _ _ Hsh H0) as Hb.
    apply andb_true_iff. split.
    + rewrite forallb_forall in Hb. apply forallb_forall. intros e He.
      apply (benign_not_failed mirror). now apply Hb.
    + destruct Hdef as [-> | (q & e & ->)]; reflexivity.
Qed.


Lemma resolution_failure_aborts_witness :
  exit_status (fst (run Sample.roots_only Sample.mirror Sample.disk)) <> 0%Z
  /\ forallb quiet
       (skipn 12 (trace (snd (run Sample.roots_only Sample.mirror Sample.disk)))) = true.
Proof.
  refine (proj1 (resolution_failure_aborts Sample.roots_only Sample.mirror Sample.disk)
            (firstn 11 (trace (snd (run Sample.roots_only Sample.mirror Sample.disk))))
            "snapshot.json" EmptyString (Some (ErrorfNoMatch "snapshot.json"))
            (skipn 12 (trace (snd (run Sample.roots_only Sample.mirror Sample.disk))))
            _ _).
  - vm_compute. reflexivity.
  - left. reflexivity.
Defined.


(** ** Claims about the fetcher *)


(** The handle and the file that a successful [os.Create] leaves: the
    file is there, empty, and the handle is open on it. *)
Lemma os_Create_fresh (env : Env) (w0 w : World) (p : path) (f : OsFile) :
  os_Create p env w0 = (Val (f, None), w) ->
  f = Handle p /\ FS.lookup p (fs w) = Some (File EmptyString).
Proof.
  intros Hc.
  destruct (os_Create_cases env w0 p) as [(T1 & HT1 & _ & Hcr) | (e & Hcr)];
    rewrite Hcr in Hc; [|discriminate].
  injection Hc as <- <-. split; [reflexivity|].
  cbn [logged fs]. apply (lookup_put_same _ _ _ _ HT1).
Qed.




(** ** The move of the targets directory *)

Section MoveFacts.

Lemma disjoint_app (p q a b : path) :
  FS.disjoint p q -> FS.disjoint (p ++ a) (q ++ b).
Proof.
  assert (H : forall p q a b,
             FS.strip p q = None -> FS.strip q p = None ->
             FS.strip (p ++ a) (q ++ b) = None).
  { clear. induction p as [|x p IH]; intros q a b Hpq Hqp; [discriminate|].
    destruct q as [|y q]; [discriminate|].
    cbn [app FS.strip] in *.
    destruct (String.eqb_spec x y) as [-> | Hne]; [|reflexivity].
    rewrite String.eqb_refl in Hqp. now apply IH. }
  intros [Hpq Hqp]. split; now apply H.
Qed.

Lemma disjoint_nonempty (p q : path) : FS.disjoint p q -> p <> [].
Proof. intros [H _] ->. discriminate. Qed.

Lemma candidate_starts_with_digit (p n : string) :
  candidate p n -> exists c rest, n = String c rest /\ Str.is_digit c = true.
Proof.
  intros (ds & Hne & Hds & ->). destruct ds as [|c ds]; [congruence|].
  rewrite all_digits_cons in Hds. apply andb_true_iff in Hds as [Hc _].
  rewrite sapp_cons. eauto.
Qed.

Lemma sapp_inj_l (a b c : string) : a +:+ b = a +:+ c -> b = c.
Proof.
  induction a as [|x a IH]; [now rewrite !sapp_nil_l|].
  rewrite !sapp_cons. intros H. injection H as H. now apply IH.
Qed.

(** A file name is a candidate for one role only. *)
Lemma candidate_pattern_unique (p p' n : string) :
  candidate p n -> candidate p' n -> p = p'.
Proof.
  intros H H'.
  apply candidate_leading_digits in H as (ds & E & L & _ & _).
  apply candidate_leading_digits in H' as (ds' & E' & L' & _ & _).
  assert (ds' = ds) as -> by congruence.
  rewrite E in E'. apply sapp_inj_l in E'. unfold Regexp.literal in E'.
  now injection E'.
Qed.

Lemma assoc_set_fresh {A} (n : string) (v : A) (es : list (string * A)) :
  FS.assoc n es = None -> FS.assoc_set n v es = es ++ [(n, v)].
Proof.
  induction es as [|[m c] es IH]; [reflexivity|].
  cbn [FS.assoc FS.assoc_set app]. destruct (String.eqb m n); [discriminate|].
  intros H. now rewrite IH.
Qed.

(** What a successful rename leaves. *)
Lemma rename_fs_moves (old new : path) (T T' : node) :
  rename_fs old new T = inl T' -> FS.disjoint old new ->
  exists src,
    FS.lookup old T = Some src /\
    FS.put new src (FS.remove old T) = Some T' /\
    FS.lookup old T' = None /\
    FS.lookup new T' = Some src /\
    forall q, FS.disjoint old q -> FS.disjoint new q -> FS.lookup q T' = FS.lookup q T.
Proof.
  unfold rename_fs. intros H Hd.
  destruct (FS.lookup old T) as [src|] eqn:Ho; [|discriminate].
  assert (Hput : FS.put new src (FS.remove old T) = Some T').
  { destruct (FS.lookup new T) as [[d | es]|]; [destruct src| |];
      try discriminate;
      destruct (FS.put new _ (FS.remove old T)); congruence. }
  exists src. repeat split; auto.
  - rewrite (lookup_put_disjoint new src _ _ Hput old (disjoint_sym _ _ Hd)).
    apply lookup_remove_same. exact (disjoint_nonempty _ _ Hd).
  - exact (lookup_put_same _ _ _ _ Hput).
  - intros q Hoq Hnq.
    rewrite (lookup_put_disjoint new src _ _ Hput q Hnq).
    now apply lookup_remove_disjoint.
Qed.

Lemma moveTargets_cases (env : Env) (tmp : path) (w : World) :
  let original := FS.Join (env_home env) [".sigstore"; "root"; "targets"] in
  let destination := FS.Join tmp ["targets"] in
  (exists T', rename_fs original destination (fs w) = inl T' /\
              moveTargets tmp env w
              = (Val tt, logged w T' [EvRename original destination None]))
  \/ (exists e, rename_fs original destination (fs w) = inr e /\
                moveTargets tmp env w
                = (Exit 1, logged w (fs w) [EvRename original destination (Some e);
                                            EvStderr "Failed to move directory"])).
Proof.
  cbv zeta. unfold moveTargets.
  destruct (os_Rename_cases env w
              (FS.Join (env_home env) [".sigstore"; "root"; "targets"])
              (FS.Join tmp ["targets"])) as [(T' & HT' & Hmv) | (e & He & Hmv)].
  - left. exists T'. split; [exact HT'|].
    rewrite bind_unfold. cbv beta iota zeta delta [ask].
    rewrite bind_unfold, Hmv. reflexivity.
  - right. exists e. split; [exact He|].
    rewrite bind_unfold. cbv beta iota zeta delta [ask].
    rewrite bind_unfold, Hmv. cbv beta iota. rewrite log_Fatalf_run.
    unfold logged. cbn [trace fs gets temps]. now rewrite <- List.app_assoc.
Qed.

End MoveFacts.

(** ** Claims about the move *)

(** C9: the move is one [os.Rename].  It ends the process with status 1
    and leaves the file system as it was when the targets directory does
    not exist, or is a directory and the destination exists.  When it
    returns, the original location no longer exists, the destination holds
    the tree that was there, and every other path leads where it led.  The
    stages of [main] from the empty working directory up to the move, when
    they return, leave in the working directory exactly the four metadata
    files and the targets tree. *)
Theorem targets_move_is_atomic (env : Env) (mirror : string) (tmp : path) (w : World) :
  let original := FS.Join (env_home env) [".sigstore"; "root"; "targets"] in
  let destination := FS.Join tmp ["targets"] in
  (FS.lookup original (fs w) = None
   \/ (exists es x, FS.lookup original (fs w) = Some (Dir es) /\
                    FS.lookup destination (fs w) = Some x) ->
   exists e,
     moveTargets tmp env w
     = (Exit 1, logged w (fs w) [EvRename original destination (Some e);
                                 EvStderr "Failed to move directory"]))
  /\ (forall w',
        FS.disjoint original destination ->
        moveTargets tmp env w = (Val tt, w') ->
        exists src,
          FS.lookup original (fs w) = Some src /\
          trace w' = trace w ++ [EvRename original destination None] /\
          FS.lookup original (fs w') = None /\
          FS.lookup destination (fs w') = Some src /\
          forall q, FS.disjoint original q -> FS.disjoint destination q ->
                    FS.lookup q (fs w') = FS.lookup q (fs w))
  /\ (forall f w',
        FS.lookup tmp (fs w) = Some (Dir []) ->
        FS.disjoint (sigstore_dir env) tmp ->
        assembleRepository mirror tmp env w = (Val f, w') ->
        exists n1 b1 n2 b2 n3 b3 b4 targets,
          candidate "root.json" n1 /\ candidate "snapshot.json" n2 /\
          candidate "targets.json" n3 /\
          FS.lookup original (fs w') = None /\
          FS.lookup tmp (fs w')
          = Some (Dir [(n1, File b1); (n2, File b2); (n3, File b3);
                       ("timestamp.json", File b4); ("targets", targets)])).
Proof.
  cbv zeta. split; [|split].
  - intros Hfail.
    destruct (moveTargets_cases env tmp w) as [(T' & HT' & _) | (e & _ & Hrun)];
      [|eauto].
    exfalso. unfold rename_fs in HT'.
    destruct Hfail as [Hno | (es & x & Hsrc & Hdst)].
    + rewrite Hno in HT'. discriminate.
    + rewrite Hsrc, Hdst in HT'. destruct x; discriminate.
  - intros w' Hd Hrun.
    destruct (moveTargets_cases env tmp w) as [(T' & HT' & Hmv) | (e & _ & Hmv)];
      rewrite Hmv in Hrun; [|discriminate].
    injection Hrun as <-.
    destruct (rename_fs_moves _ _ _ _ HT' Hd) as (src & Ho & _ & Hgone & Hnew & Hrest).
    exists src. repeat split; auto.
  - intros f w' Hdir Hd Hrun.
    destruct (assembleRepository_stage env mirror tmp w [] Hdir)
      as (o & w'' & delta & s' & Hrun' & _ & _ & _ & HQ).
    rewrite Hrun in Hrun'. injection Hrun' as <- <-.
    destruct (HQ f eq_refl)
      as (_ & n1 & b1 & n2 & b2 & n3 & b3 & b4 & T & _ & Hc1 & Hc2 & Hc3 & Hmv & Hl).
    specialize (Hl Hd).
    assert (Hdd : FS.disjoint (FS.Join (env_home env) [".sigstore"; "root"; "targets"])
                    (FS.Join tmp ["targets"])).
    { unfold FS.Join. cbn [List.filter String.eqb Ascii.eqb Bool.eqb negb].
      change (env_home env ++ [".sigstore"; "root"; "targets"])
        with (env_home env ++ [".sigstore"] ++ ["root"; "targets"]).
      rewrite List.app_assoc. apply disjoint_app. exact Hd. }
    destruct (rename_fs_moves _ _ _ _ Hmv Hdd) as (src & Ho & Hput & Hgone & _ & _).
    exists n1, b1, n2, b2, n3, b3, b4, src. repeat split; auto.
    assert (Hkeep : FS.lookup tmp (FS.remove (FS.Join (env_home env)
                                    [".sigstore"; "root"; "targets"]) T)
                    = FS.lookup tmp T).
    { apply lookup_remove_disjoint.
      unfold FS.Join. cbn [List.filter String.eqb Ascii.eqb Bool.eqb negb].
      change (env_home env ++ [".sigstore"; "root"; "targets"])
        with (env_home env ++ [".sigstore"] ++ ["root"; "targets"]).
      rewrite List.app_assoc. rewrite <- (List.app_nil_r tmp).
      apply disjoint_app. exact Hd. }
    rewrite Hl in Hkeep.
    unfold FS.Join in Hput. cbn [List.filter String.eqb Ascii.eqb Bool.eqb negb] in Hput.
    rewrite (lookup_put_child tmp "targets" src _ _ _ Hkeep Hput).
    destruct (candidate_starts_with_digit _ _ Hc1) as (c1 & r1 & -> & Hd1).
    destruct (candidate_starts_with_digit _ _ Hc2) as (c2 & r2 & -> & Hd2).
    destruct (candidate_starts_with_digit _ _ Hc3) as (c3 & r3 & -> & Hd3).
    assert (H12 : String.eqb (String c1 r1) (String c2 r2) = false).
    { apply String.eqb_neq. intros E. rewrite E in Hc1.
      pose proof (candidate_pattern_unique _ _ _ Hc1 Hc2). discriminate. }
    assert (H13 : String.eqb (String c1 r1) (String c3 r3) = false).
    { apply String.eqb_neq. intros E. rewrite E in Hc1.
      pose proof (candidate_pattern_unique _ _ _ Hc1 Hc3). discriminate. }
    assert (H23 : String.eqb (String c2 r2) (String c3 r3) = false).
    { apply String.eqb_neq. intros E. rewrite E in Hc2.
      pose proof (candidate_pattern_unique _ _ _ Hc2 Hc3). discriminate. }
    assert (Ht : forall c r, Str.is_digit c = true ->
                 String.eqb (String c r) "timestamp.json" = false
                 /\ String.eqb (String c r) "targets" = false).
    { intros c r Hc. split; apply String.eqb_neq; intros E; injection E as -> _;
        discriminate. }
    destruct (Ht c1 r1 Hd1) as [Ht1 Hg1].
    destruct (Ht c2 r2 Hd2) as [Ht2 Hg2].
    destruct (Ht c3 r3 Hd3) as [Ht3 Hg3].
    cbn [FS.assoc_set]. rewrite H12. cbn [FS.assoc_set]. rewrite H13, H23.
    cbn [FS.assoc_set]. rewrite Ht1, Ht2, Ht3. cbn [FS.assoc_set].
    rewrite Hg1, Hg2, Hg3. reflexivity.
Qed.


Lemma targets_move_is_atomic_witness :
  let tmp := ["tmp"; "tuf-repository-0"] in
  let w := snd (os_MkdirTemp "tuf-repository-" EmptyString Sample.env (initial Sample.disk)) in
  let w' := snd (assembleRepository Sample.mirror tmp Sample.env w) in
  exists n1 b1 n2 b2 n3 b3 b4 targets,
    candidate "root.json" n1 /\ candidate "snapshot.json" n2 /\
    candidate "targets.json" n3 /\
    FS.lookup ["home"; "user"; ".sigstore"; "root"; "targets"] (fs w') = None /\
    FS.lookup tmp (fs w')
    = Some (Dir [(n1, File b1); (n2, File b2); (n3, File b3);
                 ("timestamp.json", File b4); ("targets", targets)]).
Proof.
  intros tmp w w'.
  refine (proj2 (proj2 (targets_move_is_atomic Sample.env Sample.mirror tmp w))
            (Handle (tmp ++ ["2.root.json"])) w' _ _ _).
  - vm_compute. reflexivity.
  - split; reflexivity.
  - vm_compute. reflexivity.
Defined.


(** ** The discipline of the trust store *)

Section StoreFacts.

Variable env : Env.

Lemma store_step_history (s s' : store_state) (e : event) (h : list event) :
  store_step env s e = Some s' -> wiped_history env s h ->
  wiped_history env s' (h ++ [e]).
Proof.
  intros Hstep Hh.
  destruct e; cbn [store_step] in Hstep;
    try (destruct s; injection Hstep as <-; exact I).
  - (* EvReturned *)
    destruct err as [e|]; [destruct s; injection Hstep as <-; exact I|].
    destruct s; injection Hstep as <-; try exact I.
    destruct Hh as (pre & ->). exists pre, fn. now rewrite <- List.app_assoc.
  - (* EvReadFile *)
    destruct s; injection Hstep as <-; try exact I.
    destruct Hh as (pre & fn & ->). exists pre, fn, p, err.
    now rewrite <- List.app_assoc.
  - (* EvRemoveAll *)
    destruct (path_eqb p (sigstore_dir env)) eqn:E.
    + apply path_eqb_eq in E. subst p.
      destruct s, err; try discriminate; injection Hstep as <-; try exact I;
        now exists h.
    + destruct s; injection Hstep as <-; exact I.
  - (* EvTufInitialize *)
    destruct s; try discriminate. injection Hstep as <-. exact I.
Qed.

Lemma store_run_history (tr : list event) :
  forall s s' h,
    store_run env s tr = Some s' -> wiped_history env s h ->
    wiped_history env s' (h ++ tr).
Proof.
  induction tr as [|e tr IH]; intros s s' h Hrun Hh; cbn [store_run] in Hrun.
  - injection Hrun as <-. now rewrite List.app_nil_r.
  - destruct (store_step env s e) as [s1|] eqn:Hs; [|discriminate].
    change (e :: tr) with ([e] ++ tr). rewrite List.app_assoc.
    apply (IH s1 s' _ Hrun). now apply (store_step_history s).
Qed.

Lemma store_run_split (a b : list event) (s s' : store_state) :
  store_run env s (a ++ b) = Some s' ->
  exists s1, store_run env s a = Some s1 /\ store_run env s1 b = Some s'.
Proof.
  rewrite store_run_app. destruct (store_run env s a) as [s1|]; [eauto | discriminate].
Qed.

(** Once the store is initialized, no event initializes it again or
    removes its path. *)
Lemma initialized_calm (tr : list event) (s' : store_state) :
  store_run env Initialized tr = Some s' -> forallb (calm env) tr = true.
Proof.
  induction tr as [|e tr IH]; [reflexivity|]. cbn [store_run forallb].
  destruct (store_step env Initialized e) as [s1|] eqn:Hs; [|discriminate].
  intros Hrun.
  assert (s1 = Initialized /\ calm env e = true) as [-> ->].
  { destruct e; cbn [store_step calm] in *; try (injection Hs as <-; now split).
    - destruct err; injection Hs as <-; now split.
    - destruct (path_eqb p (sigstore_dir env)); [discriminate|].
      injection Hs as <-. now split.
    - discriminate. }
  now apply IH.
Qed.

End StoreFacts.

(* ================================================================== *)
(** * Part III: further properties of the functions *)
(* ================================================================== *)

(** ** [GetLatestMetadataName] *)

Section ResolverCases.

Variables (env : Env) (w : World) (mirror metadataPattern : string).

(** The answer of the mirror decides the result. *)
Lemma GetLatestMetadataName_cases :
  let r := env_http env (gets w) mirror in
  exists name err,
    GetLatestMetadataName mirror metadataPattern env w
    = (Val (name, err), resolved_world w mirror metadataPattern r name err)
    /\ match r with
       | GetFailed e => name = EmptyString /\ err = Some e
       | GetOK resp =>
           if (StatusCode resp =? 200)%Z then
             match BodyErr resp with
             | Some e => name = EmptyString /\ err = Some e
             | None =>
                 let files := listMetadataFilenames (Body resp) metadataPattern in
                 (files = [] /\ name = EmptyString
                  /\ err = Some (ErrorfNoMatch metadataPattern))
                 \/ (files <> [] /\ err = None /\ In name files
                     /\ forall f, In f files -> String.leb f name = true)
             end
           else name = EmptyString /\ err = Some (ErrorfMirror (StatusCode resp))
       end.
Proof.
  intros r.
  destruct (GetLatestMetadataName_total env w mirror metadataPattern)
    as (name & err & w' & Hrun).
  pose proof (GetLatestMetadataName_trace env w mirror metadataPattern name err w' Hrun)
    as ->.
  exists name, err. split; [exact Hrun|]. fold r in Hrun.
  revert Hrun.
  unfold GetLatestMetadataName, bind, http_Get, ret, emit. cbn. fold r.
  destruct r as [e | resp]; cbn.
  - intros [= <- <- _]. now split.
  - unfold StatusOK. destruct (StatusCode resp =? 200)%Z; cbn.
    + destruct (BodyErr resp); cbn.
      * intros [= <- <- _]. now split.
      * destruct (listMetadataFilenames (Body resp) metadataPattern) as [|f fs] eqn:E; cbn.
        -- intros [= <- <- _]. left. now repeat split.
        -- intros [= <- <- _]. right.
           split; [discriminate|]. split; [reflexivity|].
           apply (sorted_last_greatest (f :: fs)). discriminate.
    + intros [= <- <- _]. now split.
Qed.

End ResolverCases.

(** The first byte decides the byte-wise order. *)
Lemma leb_first_byte (a b : ascii) (r r' : string) :
  (N_of_ascii a < N_of_ascii b)%N -> String.leb (String b r') (String a r) = false.
Proof.
  intros H. unfold String.leb. cbn [String.compare]. unfold Ascii.compare.
  apply N.compare_gt_iff in H. now rewrite H.
Qed.

(** X1: [GetLatestMetadataName] always returns after one GET at the
    mirror address and leaves the file system as it was; it returns a
    name exactly when it returns no error; a returned name is the leftmost
    match of some line of a listing that was answered 200 and read to the
    end; a failed request and a broken body give their own error, and
    another status gives the error that carries that status. *)
Theorem resolver_returns_name_or_error (env : Env) (w : World)
    (mirror metadataPattern : string) :
  let r := env_http env (gets w) mirror in
  exists name err w',
    GetLatestMetadataName mirror metadataPattern env w = (Val (name, err), w')
    /\ fs w' = fs w
    /\ trace w' = trace w ++ [EvGet mirror r; EvResolved metadataPattern name err]
    /\ (err = None <-> name <> EmptyString)
    /\ (err = None ->
        exists resp line,
          r = GetOK resp /\ StatusCode resp = 200%Z /\ BodyErr resp = None /\
          In line (Str.Split newline (Body resp)) /\
          leftmost_match metadataPattern line name)
    /\ (forall e, r = GetFailed e -> err = Some e)
    /\ (forall resp, r = GetOK resp -> StatusCode resp <> 200%Z ->
                     err = Some (ErrorfMirror (StatusCode resp)))
    /\ (forall resp e, r = GetOK resp -> StatusCode resp = 200%Z ->
                       BodyErr resp = Some e -> err = Some e).
Proof.
  intros r.
  destruct (GetLatestMetadataName_cases env w mirror metadataPattern)
    as (name & err & Hrun & Hcase).
  fold r in Hrun, Hcase.
  exists name, err, (resolved_world w mirror metadataPattern r name err).
  split; [exact Hrun|]. split; [reflexivity|]. split; [reflexivity|].
  destruct r as [e | resp].
  - destruct Hcase as [-> ->].
    repeat split; try congruence; try discriminate.
  - destruct (StatusCode resp =? 200)%Z eqn:Hst.
    + apply Z.eqb_eq in Hst. destruct (BodyErr resp) as [e|] eqn:Hb.
      * destruct Hcase as [-> ->].
        repeat split; try congruence; try discriminate.
      * cbv zeta in Hcase.
        destruct Hcase as [(Hnil & -> & ->) | (Hne & -> & Hin & _)].
        -- repeat split; try congruence; try discriminate.
        -- pose proof Hin as Hc.
           apply (listMetadataFilenames_candidate (Body resp)) in Hc.
           apply candidate_nonempty in Hc.
           apply listMetadataFilenames_In in Hin as (line & Hline & Hm).
           repeat split; try congruence; try discriminate.
           intros _. exists resp, line. now repeat split.
    + apply Z.eqb_neq in Hst. destruct Hcase as [-> ->].
      repeat split; try congruence; try discriminate.
Qed.

Lemma resolver_returns_name_or_error_witness :
  exists name err w',
    GetLatestMetadataName Sample.mirror "root.json" Sample.files_missing
      (mkWorld Sample.disk 1 0 [])
    = (Val (name, err), w')
    /\ exists resp line,
         StatusCode resp = 200%Z /\ In line (Str.Split newline (Body resp)) /\
         leftmost_match "root.json" line name.
Proof.
  destruct (resolver_returns_name_or_error Sample.files_missing
              (mkWorld Sample.disk 1 0 []) Sample.mirror "root.json")
    as (name & err & w' & Hrun & _ & _ & _ & Hok & _).
  exists name, err, w'. split; [exact Hrun|].
  assert (E : err = None).
  { vm_compute in Hrun. now injection Hrun as _ <- _. }
  destruct (Hok E) as (resp & line & _ & Hst & _ & Hline & Hm).
  exists resp, line. now repeat split.
Defined.

(** X2: the result depends on the set of candidate names only: two
    listings, answered 200 and read to the end, whose lines give the same
    names, in whatever order and however often, resolve to the same name
    or to the same error. *)
Theorem resolver_ignores_listing_order (env1 env2 : Env) (w1 w2 : World)
    (mirror1 mirror2 metadataPattern : string) (resp1 resp2 : Response) :
  env_http env1 (gets w1) mirror1 = GetOK resp1 ->
  env_http env2 (gets w2) mirror2 = GetOK resp2 ->
  StatusCode resp1 = 200%Z -> StatusCode resp2 = 200%Z ->
  BodyErr resp1 = None -> BodyErr resp2 = None ->
  (forall f, In f (listMetadataFilenames (Body resp1) metadataPattern)
             <-> In f (listMetadataFilenames (Body resp2) metadataPattern)) ->
  fst (GetLatestMetadataName mirror1 metadataPattern env1 w1)
  = fst (GetLatestMetadataName mirror2 metadataPattern env2 w2).
Proof.
  intros H1 H2 Hs1 Hs2 Hb1 Hb2 Hsame.
  destruct (GetLatestMetadataName_cases env1 w1 mirror1 metadataPattern)
    as (n1 & e1 & Hrun1 & Hc1).
  destruct (GetLatestMetadataName_cases env2 w2 mirror2 metadataPattern)
    as (n2 & e2 & Hrun2 & Hc2).
  rewrite Hrun1, Hrun2. cbn [fst].
  rewrite H1 in Hc1. rewrite H2 in Hc2.
  rewrite Hs1, Hb1 in Hc1. rewrite Hs2, Hb2 in Hc2. cbn in Hc1, Hc2.
  destruct Hc1 as [(Hnil1 & -> & ->) | (Hne1 & -> & Hin1 & Hmax1)];
    destruct Hc2 as [(Hnil2 & -> & ->) | (Hne2 & -> & Hin2 & Hmax2)].
  - reflexivity.
  - exfalso. apply Hsame in Hin2. now rewrite Hnil1 in Hin2.
  - exfalso. apply Hsame in Hin1. now rewrite Hnil2 in Hin1.
  - assert (n1 = n2) as ->; [|reflexivity].
    apply String.leb_antisym.
    + apply Hmax2. now apply Hsame.
    + apply Hmax1. now apply Hsame.
Qed.

Lemma resolver_ignores_listing_order_witness :
  fst (GetLatestMetadataName Sample.mirror "root.json"
         (Sample.serving ("1.root.json" +:+ nl +:+ "2.root.json")) (initial Sample.disk))
  = fst (GetLatestMetadataName Sample.mirror "root.json"
           (Sample.serving ("2.root.json" +:+ nl +:+ "1.root.json" +:+ nl +:+ "2.root.json"))
           (initial Sample.disk)).
Proof.
  apply (resolver_ignores_listing_order _ _ _ _ _ _ _
           (mkResponse 200 ("1.root.json" +:+ nl +:+ "2.root.json") None)
           (mkResponse 200 ("2.root.json" +:+ nl +:+ "1.root.json" +:+ nl +:+ "2.root.json")
              None));
    try reflexivity.
  intros f. vm_compute. intuition.
Defined.

(** X3: the names are compared byte by byte, not as numbers: a candidate
    is never returned when another candidate starts with a greater byte,
    so [9.root.json] wins over [10.root.json]. *)
Theorem resolver_compares_bytes (env : Env) (w : World)
    (mirror metadataPattern : string) (resp : Response) :
  env_http env (gets w) mirror = GetOK resp ->
  StatusCode resp = 200%Z -> BodyErr resp = None ->
  forall a b r r',
    In (String a r) (listMetadataFilenames (Body resp) metadataPattern) ->
    In (String b r') (listMetadataFilenames (Body resp) metadataPattern) ->
    (N_of_ascii a < N_of_ascii b)%N ->
    exists latest w',
      GetLatestMetadataName mirror metadataPattern env w = (Val (latest, None), w')
      /\ latest <> String a r.
Proof.
  intros Hget Hst Hb a b r r' Ha Hbn Hlt.
  destruct (GetLatestMetadataName_cases env w mirror metadataPattern)
    as (name & err & Hrun & Hc).
  rewrite Hget, Hst, Hb in Hc. cbn in Hc.
  destruct Hc as [(Hnil & _) | (_ & -> & _ & Hmax)].
  - now rewrite Hnil in Ha.
  - eexists name, _. split; [exact Hrun|].
    intros ->. apply Hmax in Hbn.
    now rewrite (leb_first_byte a b r r' Hlt) in Hbn.
Qed.

Lemma resolver_compares_bytes_witness :
  exists latest w',
    GetLatestMetadataName Sample.mirror "root.json"
      (Sample.serving ("9.root.json" +:+ nl +:+ "10.root.json")) (initial Sample.disk)
    = (Val (latest, None), w')
    /\ latest <> "10.root.json"
    /\ (version_of "9.root.json" < version_of "10.root.json")%N.
Proof.
  destruct (resolver_compares_bytes
              (Sample.serving ("9.root.json" +:+ nl +:+ "10.root.json"))
              (initial Sample.disk) Sample.mirror "root.json"
              (mkResponse 200 ("9.root.json" +:+ nl +:+ "10.root.json") None)
              eq_refl eq_refl eq_refl
              "1"%char "9"%char "0.root.json" ".root.json")
    as (latest & w' & Hrun & Hne).
  - vm_compute. now right; left.
  - vm_compute. now left.
  - vm_compute. reflexivity.
  - exists latest, w'. split; [exact Hrun|]. split; [exact Hne|].
    vm_compute. reflexivity.
Defined.


(** ** What the functions write *)

Section WriteFacts.

Variables (env : Env) (w : World).

Lemma assoc_del_absent {A} (n : string) (es : list (string * A)) :
  FS.assoc n es = None -> FS.assoc_del n es = es.
Proof.
  induction es as [|[m c] es IH]; [reflexivity|].
  cbn [FS.assoc FS.assoc_del]. destruct (String.eqb m n); [discriminate|].
  intros H. now rewrite IH.
Qed.

Lemma assoc_set_present {A} (n : string) (c : A) (es : list (string * A)) :
  FS.assoc n es = Some c -> FS.assoc_set n c es = es.
Proof.
  induction es as [|[m c'] es IH]; [discriminate|].
  cbn [FS.assoc FS.assoc_set]. destruct (String.eqb_spec m n) as [-> | Hne].
  - now intros [= ->].
  - intros H. now rewrite IH.
Qed.

(** Removing what is not there changes nothing. *)
Lemma remove_absent (p : path) :
  forall T, FS.lookup p T = None -> FS.remove p T = T.
Proof.
  induction p as [|n p IH]; intros T H; [discriminate|].
  destruct T as [d | es]; [reflexivity|].
  rewrite lookup_cons_Dir in H. cbn [FS.remove].
  destruct p as [|n' p'].
  - destruct (FS.assoc n es) eqn:Hn; [discriminate|].
    now rewrite assoc_del_absent.
  - destruct (FS.assoc n es) as [c|] eqn:Hn; [|reflexivity].
    rewrite (IH c H). now rewrite assoc_set_present.
Qed.

(** The file system after [DownloadFile]. *)
Lemma DownloadFile_fs (f : OsFile) (url : string) :
  let r := env_http env (gets w) url in
  (fs (snd (DownloadFile f url env w)) = fs w
   /\ forall p resp old,
        f = Handle p -> r = GetOK resp -> StatusCode resp = 200%Z ->
        FS.lookup p (fs w) = Some (File old) -> False)
  \/ exists p resp old T',
       f = Handle p /\ r = GetOK resp /\ StatusCode resp = 200%Z /\
       FS.lookup p (fs w) = Some (File old) /\
       FS.put p (File (old +:+ Body resp)) (fs w) = Some T' /\
       fs (snd (DownloadFile f url env w)) = T' /\
       fst (DownloadFile f url env w) = Val (BodyErr resp).
Proof.
  intros r. unfold DownloadFile, io_Copy, File_Write, http_Get, bind, ret, emit,
    get_fs, set_fs, panic. cbn. fold r.
  destruct r as [e | resp] eqn:Hr; cbn; [left; split; [reflexivity | discriminate]|].
  unfold StatusOK. destruct (StatusCode resp =? 200)%Z eqn:Hst; cbn.
  2:{ left. split; [reflexivity|]. intros p resp' old _ [= <-] Hs _.
      apply Z.eqb_neq in Hst. contradiction. }
  apply Z.eqb_eq in Hst.
  destruct f as [| | p]; cbn;
    [left; split; [reflexivity | discriminate]
    | left; split; [reflexivity | discriminate] |].
  destruct (FS.lookup p (fs w)) as [[old | es]|] eqn:Hl; cbn.
  - destruct (put_existing p (File (old +:+ Body resp)) (fs w) _ Hl) as [T' HT'].
    rewrite HT'. cbn. right. exists p, resp, old, T'.
    destruct (BodyErr resp); cbn; now repeat split.
  - left. split; [reflexivity|]. intros p' resp' old [= <-] _ _ Hl'. congruence.
  - left. split; [reflexivity|]. intros p' resp' old [= <-] _ _ Hl'. congruence.
Qed.

(** The file system after [CompressDirectory]: as it was, or with the
    destination created, or with the destination created and written. *)
Lemma CompressDirectory_fs (src dst : path) :
  fs (snd (CompressDirectory src dst env w)) = fs w
  \/ (exists T1, FS.put dst (File EmptyString) (fs w) = Some T1 /\
                 (fs (snd (CompressDirectory src dst env w)) = T1
                  \/ exists d T2, FS.put dst (File d) T1 = Some T2 /\
                                  fs (snd (CompressDirectory src dst env w)) = T2)).
Proof.
  unfold CompressDirectory, os_Create, File_Write, bind, ask, get_fs, set_fs, emit, ret.
  cbn.
  destruct (FS.lookup dst (fs w)) as [[old | es]|] eqn:Hl; cbn; [| now left |];
    (destruct (FS.put dst (File EmptyString) (fs w)) as [T1|] eqn:Hp; cbn; [|now left];
     right; exists T1; split; [reflexivity|];
     destruct (FS.lookup src T1) as [tree|]; cbn;
     (destruct (FS.lookup dst T1) as [[old1 | es1]|]; cbn; [| now left | now left];
      match goal with
      | |- context [FS.put dst ?x T1] =>
          destruct (FS.put dst x T1) as [T2|] eqn:Hp2; cbn; [|now left];
          right; eexists _, T2; split; [exact Hp2 | reflexivity]
      end)).
Qed.

End WriteFacts.

(** ** [DownloadFile], the cleanup, the archiver and the encoder *)

(** X4: [DownloadFile] writes nothing but its destination: every path
    that is neither above nor below the destination leads where it led;
    when the request fails or is answered with a status other than 200
    the file system is as it was; when the destination has just been
    created by [os.Create] and the body of a 200 answer breaks off, the
    error of the body is returned and the file holds the bytes that were
    delivered. *)
Theorem download_writes_only_destination (env : Env) (w : World)
    (f : OsFile) (url : string) :
  let r := env_http env (gets w) url in
  let w' := snd (DownloadFile f url env w) in
  (forall q, (forall p, f = Handle p -> FS.disjoint p q) ->
             FS.lookup q (fs w') = FS.lookup q (fs w))
  /\ ((forall resp, r = GetOK resp -> StatusCode resp <> 200%Z) -> fs w' = fs w)
  /\ (forall w0 p resp e,
        os_Create p env w0 = (Val (f, None), w) ->
        r = GetOK resp -> StatusCode resp = 200%Z -> BodyErr resp = Some e ->
        fst (DownloadFile f url env w) = Val (Some e)
        /\ FS.lookup p (fs w') = Some (File (Body resp))).
Proof.
  cbv zeta.
  destruct (DownloadFile_fs env w f url)
    as [[Hsame Hno] | (p & resp & old & T' & -> & Hr & Hst & Hl & Hp & HT' & Hout)].
  - split; [|split].
    + intros q _. now rewrite Hsame.
    + intros _. exact Hsame.
    + intros w0 p resp e Hc Hr Hst _. exfalso.
      destruct (os_Create_fresh env w0 w p f Hc) as [Hf Hfresh].
      exact (Hno p resp EmptyString Hf Hr Hst Hfresh).
  - split; [|split].
    + intros q Hq. rewrite HT'.
      apply (lookup_put_disjoint _ _ _ _ Hp). now apply Hq.
    + intros Hbad. exfalso. now apply (Hbad resp).
    + intros w0 p' resp' e Hc Hr' _ Hb.
      destruct (os_Create_fresh env w0 w p' _ Hc) as [Hf Hfresh].
      injection Hf as <-.
      assert (resp' = resp) as -> by congruence.
      rewrite Hfresh in Hl. injection Hl as <-.
      rewrite Hout, HT', Hb. split; [reflexivity | exact (lookup_put_same _ _ _ _ Hp)].
Qed.

Lemma download_writes_only_destination_witness :
  let w := snd (os_Create ["f"] Sample.truncating
                  (initial (Dir [("g", File "other")]))) in
  let w' := snd (DownloadFile (Handle ["f"]) "https://mirror.example/x"
                   Sample.truncating w) in
  fst (DownloadFile (Handle ["f"]) "https://mirror.example/x" Sample.truncating w)
  = Val (Some (ErrBody "unexpected EOF"))
  /\ FS.lookup ["f"] (fs w') = Some (File "partial")
  /\ FS.lookup ["g"] (fs w') = Some (File "other").
Proof.
  intros w w'.
  pose proof (download_writes_only_destination Sample.truncating w (Handle ["f"])
                "https://mirror.example/x") as (Hframe & _ & Hpart).
  destruct (Hpart (initial (Dir [("g", File "other")])) ["f"]
              (mkResponse 200 "partial" (Some (ErrBody "unexpected EOF")))
              (ErrBody "unexpected EOF") eq_refl eq_refl eq_refl eq_refl)
    as [Hout Hf].
  split; [exact Hout|]. split; [exact Hf|].
  apply (Hframe ["g"]). intros p [= <-]. split; reflexivity.
Defined.

(** X5: [cleanupLocalTUFRepository] touches nothing outside
    [$HOME/.sigstore]; when nothing keeps [os.RemoveAll] from working it
    returns no error and the directory is gone, and when the directory
    did not exist the file system is as it was; when [os.RemoveAll]
    fails, its error comes back wrapped with the path. *)
Theorem cleanup_touches_only_store (env : Env) (w : World) :
  let tufDir := FS.Join (env_home env) [".sigstore"] in
  let w' := snd (cleanupLocalTUFRepository env w) in
  (forall q, FS.disjoint tufDir q -> FS.lookup q (fs w') = FS.lookup q (fs w))
  /\ (env_remove_fault env tufDir = None ->
      fst (cleanupLocalTUFRepository env w) = Val None
      /\ FS.lookup tufDir (fs w') = None
      /\ (FS.lookup tufDir (fs w) = None -> fs w' = fs w))
  /\ (forall e, env_remove_fault env tufDir = Some e ->
                fst (cleanupLocalTUFRepository env w)
                = Val (Some (ErrorfCleanup tufDir e))).
Proof.
  cbv zeta.
  unfold cleanupLocalTUFRepository, os_RemoveAll, bind, ask, get_fs, set_fs, emit, ret.
  cbn.
  destruct (env_remove_fault env (FS.Join (env_home env) [".sigstore"])) as [e|]; cbn.
  - split; [reflexivity|]. split; [discriminate|].
    now intros e' [= <-].
  - split; [|split].
    + intros q Hq. now apply lookup_remove_disjoint.
    + intros _. split; [reflexivity|]. split.
      * apply lookup_remove_same. unfold FS.Join. intros E.
        apply app_eq_nil in E as [_ E]. discriminate.
      * apply remove_absent.
    + discriminate.
Qed.

Lemma cleanup_touches_only_store_witness :
  let w := initial (Dir [("home", Dir [("user", Dir [(".sigstore", Sample.store);
                                                    ("notes", File "n")])])]) in
  let w' := snd (cleanupLocalTUFRepository Sample.env w) in
  fst (cleanupLocalTUFRepository Sample.env w) = Val None
  /\ FS.lookup ["home"; "user"; ".sigstore"] (fs w') = None
  /\ FS.lookup ["home"; "user"; "notes"] (fs w') = Some (File "n").
Proof.
  intros w w'.
  pose proof (cleanup_touches_only_store Sample.env w) as (Hframe & Hok & _).
  destruct (Hok eq_refl) as (Hout & Hgone & _).
  split; [exact Hout|]. split; [exact Hgone|].
  apply (Hframe ["home"; "user"; "notes"]). split; reflexivity.
Defined.


Lemma put_no_parent (parent : path) (n : string) (x : node) :
  forall T, FS.lookup parent T = None -> FS.put (parent ++ [n]) x T = None.
Proof.
  induction parent as [|a ps IH]; intros T H; [discriminate|].
  destruct T as [d | es]; [reflexivity|].
  rewrite lookup_cons_Dir in H. cbn [app FS.put].
  destruct (ps ++ [n]) as [|b rest] eqn:E; [now destruct ps|].
  destruct (FS.assoc a es) as [c|]; [|reflexivity].
  now rewrite (IH c H).
Qed.

(** X6: [CompressDirectory] writes nothing but its destination, whether
    it returns an error or not: every path that is neither above nor
    below the destination leads where it led; so the source is read
    only. *)
Theorem compress_directory_writes_only_destination (env : Env) (w : World)
    (src dst : path) :
  forall q, FS.disjoint dst q ->
            FS.lookup q (fs (snd (CompressDirectory src dst env w))) = FS.lookup q (fs w).
Proof.
  intros q Hq.
  destruct (CompressDirectory_fs env w src dst)
    as [-> | (T1 & HT1 & [-> | (d & T2 & HT2 & ->)])].
  - reflexivity.
  - exact (lookup_put_disjoint _ _ _ _ HT1 q Hq).
  - rewrite (lookup_put_disjoint _ _ _ _ HT2 q Hq).
    exact (lookup_put_disjoint _ _ _ _ HT1 q Hq).
Qed.

Lemma compress_directory_writes_only_destination_witness :
  let w := initial (Dir [("src", Dir [("a", File "1")]); ("keep", File "k")]) in
  FS.lookup ["src"] (fs (snd (CompressDirectory ["src"] ["out"] Sample.env w)))
  = Some (Dir [("a", File "1")])
  /\ FS.lookup ["keep"] (fs (snd (CompressDirectory ["missing"] ["out"] Sample.env w)))
     = Some (File "k").
Proof.
  intros w. split.
  - apply (compress_directory_writes_only_destination Sample.env w ["src"] ["out"] ["src"]).
    split; reflexivity.
  - apply (compress_directory_writes_only_destination Sample.env w ["missing"] ["out"]
             ["keep"]).
    split; reflexivity.
Defined.

(** X7: the edges of [CompressDirectory].  A destination that is a
    directory, or whose parent does not exist, gives the error of
    [os.Create] and nothing is written.  The destination is created
    before the source is looked at: with a source that does not exist the
    call returns an error and still leaves the destination truncated to an
    archive without entries; a source that is a regular file gives no
    error and an archive without entries. *)
Theorem compress_directory_edges (env : Env) (w : World) (src dst : path) :
  let out := fst (CompressDirectory src dst env w) in
  let w' := snd (CompressDirectory src dst env w) in
  (forall es, FS.lookup dst (fs w) = Some (Dir es) ->
              out = Val (Some (ErrIsDir dst)) /\ fs w' = fs w)
  /\ (forall parent n, dst = parent ++ [n] -> FS.lookup parent (fs w) = None ->
                       out = Val (Some (ErrNotExist dst)) /\ fs w' = fs w)
  /\ (forall old, FS.lookup dst (fs w) = Some (File old) -> FS.disjoint src dst ->
                  FS.lookup src (fs w) = None ->
                  out = Val (Some (ErrNotExist src))
                  /\ FS.lookup dst (fs w') = Some (File (env_targz env [])))
  /\ (forall old d, FS.lookup dst (fs w) = Some (File old) -> FS.disjoint src dst ->
                    FS.lookup src (fs w) = Some (File d) ->
                    out = Val None
                    /\ FS.lookup dst (fs w') = Some (File (env_targz env []))).
Proof.
  cbv zeta. split; [|split; [|split]].
  - intros es Hd.
    unfold CompressDirectory, os_Create, bind, ask, get_fs, set_fs, emit, ret. cbn.
    rewrite Hd. cbn. now split.
  - intros parent n -> Hp.
    assert (Hl : FS.lookup (parent ++ [n]) (fs w) = None) by (now rewrite lookup_app, Hp).
    unfold CompressDirectory, os_Create, bind, ask, get_fs, set_fs, emit, ret. cbn.
    rewrite Hl, (put_no_parent parent n _ _ Hp). cbn. now split.
  - intros old Hdst Hdisj Hsrc.
    destruct (put_existing dst (File EmptyString) (fs w) _ Hdst) as [t1 Ht1].
    pose proof (lookup_put_same _ _ _ _ Ht1) as Hdst1.
    pose proof (lookup_put_disjoint _ _ _ _ Ht1 src (disjoint_sym _ _ Hdisj)) as Hsrc1.
    rewrite Hsrc in Hsrc1.
    destruct (put_existing dst (File (EmptyString +:+ env_targz env [])) t1 _ Hdst1)
      as [t2 Ht2].
    unfold CompressDirectory, os_Create, File_Write, bind, ask, get_fs, set_fs, emit, ret.
    cbn. rewrite Hdst, Ht1. cbn. rewrite Hsrc1. cbn. rewrite Hdst1, Ht2. cbn.
    split; [reflexivity | exact (lookup_put_same _ _ _ _ Ht2)].
  - intros old d Hdst Hdisj Hsrc.
    destruct (put_existing dst (File EmptyString) (fs w) _ Hdst) as [t1 Ht1].
    pose proof (lookup_put_same _ _ _ _ Ht1) as Hdst1.
    pose proof (lookup_put_disjoint _ _ _ _ Ht1 src (disjoint_sym _ _ Hdisj)) as Hsrc1.
    rewrite Hsrc in Hsrc1.
    destruct (put_existing dst (File (EmptyString +:+ env_targz env [])) t1 _ Hdst1)
      as [t2 Ht2].
    unfold CompressDirectory, os_Create, File_Write, bind, ask, get_fs, set_fs, emit, ret.
    cbn. rewrite Hdst, Ht1. cbn. rewrite Hsrc1. cbn.
    change (Tar.archive_of (File d)) with (@nil tar_entry).
    rewrite Hdst1, Ht2. cbn.
    split; [reflexivity | exact (lookup_put_same _ _ _ _ Ht2)].
Qed.

Lemma compress_directory_edges_witness :
  let w := initial (Dir [("out", File "previous archive"); ("dir", Dir [])]) in
  (fst (CompressDirectory ["missing"] ["out"] Sample.env w)
   = Val (Some (ErrNotExist ["missing"]))
   /\ FS.lookup ["out"] (fs (snd (CompressDirectory ["missing"] ["out"] Sample.env w)))
      = Some (File EmptyString))
  /\ fst (CompressDirectory ["missing"] ["dir"] Sample.env w)
     = Val (Some (ErrIsDir ["dir"]))
  /\ fst (CompressDirectory ["dir"] ["nowhere"; "out"] Sample.env w)
     = Val (Some (ErrNotExist ["nowhere"; "out"])).
Proof.
  intros w. split; [|split].
  - apply (proj1 (proj2 (proj2 (compress_directory_edges Sample.env w ["missing"] ["out"])))
             "previous archive"); [reflexivity | split; reflexivity | reflexivity].
  - apply (proj1 (compress_directory_edges Sample.env w ["missing"] ["dir"]) []).
    reflexivity.
  - apply (proj1 (proj2 (compress_directory_edges Sample.env w ["dir"] ["nowhere"; "out"]))
             ["nowhere"] "out"); reflexivity.
Defined.

(** X8: [EncodeBase64] only reads: the file system is as it was,
    whatever the outcome.  A file that does not exist, or a directory,
    gives the empty text with the error of [os.ReadFile]; a nil file and
    the zero [os.File] make [Name] panic before anything is read; and the
    empty text without an error means that the file is empty. *)
Theorem encode_base64_edges (env : Env) (w : World) (f : OsFile) :
  let out := fst (EncodeBase64 f env w) in
  let w' := snd (EncodeBase64 f env w) in
  fs w' = fs w
  /\ (forall p, f = Handle p -> FS.lookup p (fs w) = None ->
                out = Val (EmptyString, Some (ErrNotExist p)))
  /\ (forall p es, f = Handle p -> FS.lookup p (fs w) = Some (Dir es) ->
                   out = Val (EmptyString, Some (ErrIsDir p)))
  /\ (f = NilFile \/ f = ZeroFile -> (exists msg, out = Panic msg) /\ w' = w)
  /\ (forall p data, f = Handle p -> FS.lookup p (fs w) = Some (File data) ->
                     out = Val (EmptyString, None) -> data = EmptyString).
Proof.
  cbv zeta. unfold EncodeBase64, File_Name, os_ReadFile, bind, ret, get_fs, emit, panic.
  destruct f as [| | p]; cbn.
  - repeat split; try discriminate; eauto.
  - repeat split; try discriminate; eauto.
  - destruct (FS.lookup p (fs w)) as [[d | es]|] eqn:Hl; cbn;
      (split; [reflexivity|]);
      (split; [intros p' [= <-] Hn; first [congruence | reflexivity]|]);
      (split; [intros p' es' [= <-] Hn; first [congruence | reflexivity]|]);
      (split; [intros [H | H]; discriminate|]);
      intros p' data [= <-] Hd E; try congruence.
    assert (d = data) as -> by congruence.
    injection E as E.
    destruct data as [|[a0 a1 a2 a3 a4 a5 a6 a7] [|b [|c rest]]];
      [reflexivity | | |]; try destruct b; try destruct c; discriminate.
Qed.

Lemma encode_base64_edges_witness :
  fst (EncodeBase64 (Handle ["missing"]) Sample.env (initial Sample.disk))
  = Val (EmptyString, Some (ErrNotExist ["missing"]))
  /\ fst (EncodeBase64 (Handle ["tmp"]) Sample.env (initial Sample.disk))
     = Val (EmptyString, Some (ErrIsDir ["tmp"]))
  /\ exists msg, fst (EncodeBase64 ZeroFile Sample.env (initial Sample.disk)) = Panic msg.
Proof.
  split; [|split].
  - apply (proj1 (proj2 (encode_base64_edges Sample.env (initial Sample.disk)
                           (Handle ["missing"]))) ["missing"]); reflexivity.
  - apply (proj1 (proj2 (proj2 (encode_base64_edges Sample.env (initial Sample.disk)
                                  (Handle ["tmp"])))) ["tmp"] []); reflexivity.
  - apply (proj1 (proj2 (proj2 (proj2 (encode_base64_edges Sample.env
                                         (initial Sample.disk) ZeroFile))))).
    now right.
Defined.


(** ** The archive and the manifest *)

Lemma stdout_of_app (a b : list event) :
  stdout_of (a ++ b) = stdout_of a ++ stdout_of b.
Proof.
  induction a as [|e a IH]; [reflexivity|].
  destruct e; cbn [app stdout_of]; rewrite IH; reflexivity.
Qed.

(** X9: from the working directory to the manifest.  When the name drawn
    for the archive is free in the temporary directory, the working
    directory holds [tree] and the root file holds [d], [packageAndEmit]
    returns and prints one text: the manifest whose [root] field is the
    base64 text of [d] and whose [mirrorFS] field is the base64 text of
    the archive of [tree]; both fields decode to these bytes.  The archive
    file stays in the temporary directory, the working directory and the
    root file are as they were. *)
Theorem package_and_emit_manifest (env : Env) (mirror : string)
    (tmp rp : path) (w : World) (tree : node) (d : string) :
  let arch := env_tmpdir env ++ ["repository-" +:+ env_rand env (temps w) +:+ ".tar.gz"] in
  let bytes := env_targz env (Tar.archive_of tree) in
  FS.stat (env_tmpdir env) (fs w) = Some FS.KDir ->
  FS.lookup arch (fs w) = None ->
  FS.lookup tmp (fs w) = Some tree -> FS.disjoint tmp arch ->
  FS.lookup rp (fs w) = Some (File d) -> FS.disjoint rp arch ->
  exists w',
    packageAndEmit mirror tmp (Handle rp) env w = (Val tt, w')
    /\ stdout_of (trace w')
       = stdout_of (trace w)
         ++ [trustRootYAML mirror (env_now env) (Base64.EncodeToString d)
               (Base64.EncodeToString bytes) +:+ nl]
    /\ Base64.DecodeString (Base64.EncodeToString d) = Some d
    /\ Base64.DecodeString (Base64.EncodeToString bytes) = Some bytes
    /\ FS.lookup arch (fs w') = Some (File bytes)
    /\ FS.lookup tmp (fs w') = Some tree
    /\ FS.lookup rp (fs w') = Some (File d).
Proof.
  intros arch bytes Hdir Hfree Htmp Hta Hrp Hra.
  destruct (put_in_directory (env_tmpdir env)
              ("repository-" +:+ env_rand env (temps w) +:+ ".tar.gz")
              (File EmptyString) (fs w) Hdir) as [T1 HT1].
  fold arch in HT1.
  pose proof (lookup_put_same _ _ _ _ HT1) as Ha1.
  destruct (put_existing arch (File EmptyString) T1 _ Ha1) as [T2 HT2].
  pose proof (lookup_put_same _ _ _ _ HT2) as Ha2.
  destruct (put_existing arch (File (EmptyString +:+ bytes)) T2 _ Ha2) as [T3 HT3].
  pose proof (lookup_put_same _ _ _ _ HT3) as Ha3.
  assert (Hkeep : forall q, FS.disjoint q arch -> FS.lookup q T3 = FS.lookup q (fs w)).
  { intros q Hq. apply disjoint_sym in Hq.
    rewrite (lookup_put_disjoint _ _ _ _ HT3 q Hq).
    rewrite (lookup_put_disjoint _ _ _ _ HT2 q Hq).
    exact (lookup_put_disjoint _ _ _ _ HT1 q Hq). }
  assert (Htmp2 : FS.lookup tmp T2 = Some tree).
  { rewrite (lookup_put_disjoint _ _ _ _ HT2 tmp (disjoint_sym _ _ Hta)).
    now rewrite (lookup_put_disjoint _ _ _ _ HT1 tmp (disjoint_sym _ _ Hta)). }
  exists (mkWorld T3 (gets w) (S (temps w))
            (trace w ++ [EvCreateTemp arch None; EvCreate arch None;
                         EvWrite arch bytes None;
                         EvReturned "CompressDirectory" None;
                         EvReadFile arch None; EvReturned "EncodeBase64" None;
                         EvReadFile rp None; EvReturned "EncodeBase64" None;
                         EvStdout (trustRootYAML mirror (env_now env)
                                     (Base64.EncodeToString d)
                                     (Base64.EncodeToString bytes) +:+ nl)])).
  split; [|split; [|split; [|split; [|split; [|split]]]]].
  - unfold packageAndEmit, os_CreateTemp, fresh_name, defer, File_Close,
      CompressDirectory, os_Create, File_Write, EncodeBase64, File_Name, os_ReadFile,
      time_Now_Unix, fmt_Println, bind, ask, get_fs, set_fs, emit, ret.
    cbn. fold arch. rewrite Hfree, HT1. cbn. rewrite Ha1, HT2. cbn.
    rewrite Htmp2. cbn. rewrite Ha2. fold bytes. rewrite HT3. cbn.
    rewrite Ha3. cbn. rewrite (Hkeep rp Hra), Hrp. cbn.
    rewrite <- !List.app_assoc. reflexivity.
  - cbn [trace]. rewrite stdout_of_app. reflexivity.
  - apply decode_encode.
  - apply decode_encode.
  - exact Ha3.
  - cbn [fs]. now rewrite (Hkeep tmp Hta).
  - cbn [fs]. now rewrite (Hkeep rp Hra).
Qed.

Lemma package_and_emit_manifest_witness :
  let w := initial (Dir [("tmp", Dir [("work", Dir [("1.root.json", File "r")])])]) in
  exists w',
    packageAndEmit Sample.mirror ["tmp"; "work"] (Handle ["tmp"; "work"; "1.root.json"])
      Sample.env w = (Val tt, w')
    /\ stdout_of (trace w')
       = [trustRootYAML Sample.mirror 1700000000 (Base64.EncodeToString "r")
            (Base64.EncodeToString "1.root.json:r;") +:+ nl]
    /\ FS.lookup ["tmp"; "repository-0.tar.gz"] (fs w') = Some (File "1.root.json:r;").
Proof.
  intros w.
  destruct (package_and_emit_manifest Sample.env Sample.mirror ["tmp"; "work"]
              ["tmp"; "work"; "1.root.json"] w (Dir [("1.root.json", File "r")]) "r")
    as (w' & Hrun & Hout & _ & _ & Harch & _);
    try reflexivity; try (split; reflexivity).
  exists w'. split; [exact Hrun|]. split; [exact Hout | exact Harch].
Defined.


(** ** Counting the events of a run *)

Section SpendFacts.

Variable f : event -> bool.

Lemma count_app (a b : list event) : count f (a ++ b) = (count f a + count f b)%nat.
Proof. unfold count. now rewrite List.filter_app, List.length_app. Qed.

Lemma spends_ret {A} (a : A) : spends f 0 (ret a).
Proof.
  intros env w. exists []. cbn. rewrite List.app_nil_r. repeat split; auto.
Qed.

Lemma spends_pure {A} (m : M A) :
  (forall env w, trace (snd (m env w)) = trace w) -> spends f 0 m.
Proof.
  intros H env w. exists []. rewrite List.app_nil_r. repeat split; auto.
Qed.

Lemma spends_emit (e : event) : spends f (if f e then 1 else 0) (emit e).
Proof.
  intros env w. exists [e]. cbn [emit snd fst trace]. unfold count. cbn [List.filter].
  destruct (f e); repeat split; auto.
Qed.

Lemma spends_http_Get (url : string) :
  (forall r, f (EvGet url r) = true) -> spends f 1 (http_Get url).
Proof.
  intros H env w. exists [EvGet url (env_http env (gets w) url)].
  cbn [http_Get snd fst trace]. unfold count. cbn [List.filter]. rewrite H.
  repeat split; auto.
Qed.

Lemma spends_http_Get_free (url : string) :
  (forall r, f (EvGet url r) = false) -> spends f 0 (http_Get url).
Proof.
  intros H env w. exists [EvGet url (env_http env (gets w) url)].
  cbn [http_Get snd fst trace]. unfold count. cbn [List.filter]. rewrite H.
  repeat split; auto.
Qed.

Lemma spends_bind {A B} (n k : nat) (m : M A) (g : A -> M B) :
  spends f n m -> (forall a, spends f k (g a)) -> spends f (n + k) (bind m g).
Proof.
  intros Hm Hg env w. destruct (Hm env w) as (d1 & Ht1 & Hle1 & Hv1).
  rewrite bind_unfold. destruct (m env w) as [[a | c | msg] w1]; cbn [fst snd] in *.
  - destruct (Hg a env w1) as (d2 & Ht2 & Hle2 & Hv2).
    exists (d1 ++ d2). rewrite Ht2, Ht1, List.app_assoc, count_app.
    rewrite (Hv1 a eq_refl). split; [reflexivity|]. split; [lia|].
    intros b Hb. now rewrite (Hv2 b Hb).
  - exists d1. split; [exact Ht1|]. split; [lia | discriminate].
  - exists d1. split; [exact Ht1|]. split; [lia | discriminate].
Qed.

Lemma spends_defer {A} (n : nat) (d : M unit) (body : M A) :
  spends f 0 d -> spends f n body -> spends f n (defer d body).
Proof.
  intros Hd Hb env w. destruct (Hb env w) as (d1 & Ht1 & Hle1 & Hv1).
  unfold defer. destruct (body env w) as [[a | c | msg] w1]; cbn [fst snd] in *.
  - destruct (Hd env w1) as (d2 & Ht2 & Hle2 & _).
    exists (d1 ++ d2). rewrite Ht2, Ht1, List.app_assoc, count_app.
    split; [reflexivity|]. rewrite (Hv1 a eq_refl). split; [lia|]. intros _ _. lia.
  - exists d1. split; [exact Ht1|]. split; [lia | discriminate].
  - destruct (Hd env w1) as (d2 & Ht2 & Hle2 & _).
    exists (d1 ++ d2). rewrite Ht2, Ht1, List.app_assoc, count_app.
    split; [reflexivity|]. split; [lia | discriminate].
Qed.

(** What does not return may be given any budget it keeps. *)
Lemma spends_aborts {A} (n k : nat) (m : M A) :
  spends f n m -> aborts m -> (n <= k)%nat -> spends f k m.
Proof.
  intros Hm Ha Hle env w. destruct (Hm env w) as (d & Ht & Hd & _).
  exists d. split; [exact Ht|]. split; [lia|].
  intros a Hv. now apply Ha in Hv.
Qed.

Lemma spends_eq {A} (n k : nat) (m : M A) : spends f n m -> n = k -> spends f k m.
Proof. now intros H <-. Qed.

End SpendFacts.

Section AbortFacts.

Lemma aborts_Exit {A} (c : Z) : aborts (@os_Exit A c).
Proof. intros env w a. discriminate. Qed.

Lemma aborts_panic {A} (msg : string) : aborts (@panic A msg).
Proof. intros env w a. discriminate. Qed.

Lemma aborts_bind_r {A B} (m : M A) (g : A -> M B) :
  (forall a, aborts (g a)) -> aborts (bind m g).
Proof.
  intros H env w b. rewrite bind_unfold.
  destruct (m env w) as [[a | c | msg] w1]; [apply H | discriminate | discriminate].
Qed.

Lemma aborts_log_Fatalf {A} (msg : string) : aborts (@log_Fatalf A msg).
Proof. apply aborts_bind_r. intros _. apply aborts_Exit. Qed.

End AbortFacts.


(** The budget of a program, read off its structure. *)
Ltac spend :=
  lazymatch goal with
  | |- spends _ _ (bind _ _) =>
      eapply spends_eq; [eapply spends_bind; [spend | intro; spend] | reflexivity]
  | |- spends _ _ (defer _ _) => apply spends_defer; spend
  | |- spends _ _ (ret _) => apply spends_ret
  | |- spends _ _ (emit _) => eapply spends_eq; [apply spends_emit | cbn; reflexivity]
  | |- spends _ _ get_fs => apply spends_pure; reflexivity
  | |- spends _ _ (set_fs _) => apply spends_pure; reflexivity
  | |- spends _ _ ask => apply spends_pure; reflexivity
  | |- spends _ _ (fresh_name _ _) => apply spends_pure; reflexivity
  | |- spends _ _ (http_Get _) =>
      first [ apply spends_http_Get; intro; reflexivity
            | apply spends_http_Get_free; intro; reflexivity ]
  | |- spends _ _ (os_Exit _) =>
      eapply spends_aborts;
      [apply spends_pure; reflexivity | apply aborts_Exit | apply Nat.le_0_l]
  | |- spends _ _ (panic _) =>
      eapply spends_aborts;
      [apply spends_pure; reflexivity | apply aborts_panic | apply Nat.le_0_l]
  | |- spends _ _ (if ?c then _ else _) =>
      first [ let v := eval vm_compute in c in
              lazymatch v with
              | true => change c with true; cbv iota
              | false => change c with false; cbv iota
              end
            | destruct c ];
      spend
  | |- spends _ _ (match ?x with _ => _ end) => destruct x; spend
  | |- spends _ _ _ =>
      progress (cbv beta delta
        [main assembleRepository resolveAndFetch madatadas fetchOne
         initializeTrust moveTargets packageAndEmit GetLatestMetadataName DownloadFile
         io_Copy cleanupLocalTUFRepository CompressDirectory EncodeBase64
         log_Printf log_Fatalf fmt_Println File_Name File_Close File_Write
         os_MkdirTemp os_CreateTemp os_Create os_ReadFile os_RemoveAll os_Rename
         tuf_Initialize tuf_GetRootStatus json_MarshalIndent time_Now_Unix];
        cbn [fetchLoop]);
      spend
  end.


Section PrintFacts.

Variable P : string -> Prop.

Lemma count_stdout_0 (d : list event) : count is_stdout d = 0%nat -> stdout_of d = [].
Proof.
  unfold count. induction d as [|e d IH]; [reflexivity|].
  destruct e; cbn [List.filter is_stdout stdout_of List.length]; auto. discriminate.
Qed.

Lemma silent_stdout {A} (m : M A) (env : Env) (w : World) :
  spends is_stdout 0 m ->
  exists d, trace (snd (m env w)) = trace w ++ d /\ stdout_of d = [].
Proof.
  intros H. destruct (H env w) as (d & Ht & Hle & _).
  exists d. split; [exact Ht|]. apply count_stdout_0. lia.
Qed.

Lemma late_bind {A B} (m : M A) (g : A -> M B) :
  spends is_stdout 0 m -> (forall a, prints_last P (g a)) -> prints_last P (bind m g).
Proof.
  intros Hm Hg env w. destruct (silent_stdout m env w Hm) as (d1 & Ht1 & Hs1).
  rewrite bind_unfold. destruct (m env w) as [[a | c | msg] w1]; cbn [fst snd] in *.
  - destruct (Hg a env w1) as (d2 & Ht2 & Hs2).
    exists (d1 ++ d2). rewrite Ht2, Ht1, List.app_assoc. split; [reflexivity|].
    rewrite stdout_of_app, Hs1. exact Hs2.
  - exists d1. now split.
  - exists d1. now split.
Qed.

Lemma late_defer {A} (d : M unit) (body : M A) :
  spends is_stdout 0 d -> prints_last P body -> prints_last P (defer d body).
Proof.
  intros Hd Hb env w. destruct (Hb env w) as (d1 & Ht1 & Hs1).
  unfold defer. destruct (body env w) as [[a | c | msg] w1]; cbn [fst snd] in *.
  - destruct (silent_stdout d env w1 Hd) as (d2 & Ht2 & Hs2).
    exists (d1 ++ d2). rewrite Ht2, Ht1, List.app_assoc. split; [reflexivity|].
    rewrite stdout_of_app, Hs2, List.app_nil_r. exact Hs1.
  - exists d1. now split.
  - destruct (silent_stdout d env w1 Hd) as (d2 & Ht2 & Hs2).
    exists (d1 ++ d2). rewrite Ht2, Ht1, List.app_assoc. split; [reflexivity|].
    now rewrite stdout_of_app, Hs2, Hs1.
Qed.

Lemma late_aborts {A} (m : M A) :
  spends is_stdout 0 m -> aborts m -> prints_last P m.
Proof.
  intros Hm Ha env w. destruct (silent_stdout m env w Hm) as (d & Ht & Hs).
  exists d. split; [exact Ht|].
  pose proof (Ha env w) as Hv. destruct (fst (m env w)); [now destruct (Hv a) | auto | auto].
Qed.

Lemma late_Println (s : string) : P (s +:+ nl) -> prints_last P (fmt_Println s).
Proof.
  intros H env w. exists [EvStdout (s +:+ nl)]. split; [reflexivity|].
  cbn. eauto.
Qed.

End PrintFacts.

Ltac silent := eapply spends_eq; [spend | reflexivity].

Ltac late :=
  lazymatch goal with
  | |- prints_last _ (bind _ (fun _ => os_Exit _)) =>
      apply late_aborts; [silent | apply aborts_bind_r; intro; apply aborts_Exit]
  | |- prints_last _ (bind _ _) => apply late_bind; [silent | intro; late]
  | |- prints_last _ (defer _ _) => apply late_defer; [silent | late]
  | |- prints_last _ (log_Fatalf _) => apply late_aborts; [silent | apply aborts_log_Fatalf]
  | |- prints_last _ (fmt_Println _) => apply late_Println; eauto
  | |- prints_last _ (match ?x with _ => _ end) => destruct x; late
  | |- prints_last _ _ => progress (cbv beta delta [main packageAndEmit]); late
  end.

Section RunFacts.

Lemma main_sends_eight (mirror : string) : spends is_get 8 (main mirror false).
Proof. eapply spends_eq; [spend | reflexivity]. Qed.

Lemma main_resolves_root_twice (mirror : string) :
  spends is_root_resolution 2 (main mirror false).
Proof. eapply spends_eq; [spend | reflexivity]. Qed.

Lemma main_prints_last (mirror : string) (help : bool) :
  prints_last (fun s => exists now r a, s = trustRootYAML mirror now r a +:+ nl)
    (main mirror help).
Proof. late. Qed.

End RunFacts.


(** ** The run as a whole *)

(** X10: no retry in the code of [main.go]: in a run,
    [GetLatestMetadataName] and [DownloadFile] together call [http.Get]
    at most eight times, and [root.json] is resolved at most twice; in a
    run that returns they have called [http.Get] exactly eight times and
    [root.json] has been resolved exactly twice, once before the loop and
    once inside it.  The requests that the TUF client sends inside
    [tuf.Initialize] are its own: they are not calls of [main.go] and are
    no events of the trace. *)
Theorem run_request_budget (env : Env) (mirror : string) (t : node) :
  let tr := trace (snd (run env mirror t)) in
  (count is_get tr <= 8)%nat
  /\ (count is_root_resolution tr <= 2)%nat
  /\ (forall a, fst (run env mirror t) = Val a ->
                count is_get tr = 8%nat /\ count is_root_resolution tr = 2%nat).
Proof.
  cbv zeta. unfold run.
  destruct (main_sends_eight mirror env (initial t)) as (d1 & Ht1 & Hle1 & Hv1).
  destruct (main_resolves_root_twice mirror env (initial t)) as (d2 & Ht2 & Hle2 & Hv2).
  cbn [initial trace app] in Ht1, Ht2. rewrite Ht1 in *. subst d2.
  split; [exact Hle1|]. split; [exact Hle2|].
  intros a Ha. split; [exact (Hv1 a Ha) | exact (Hv2 a Ha)].
Qed.

Lemma run_request_budget_witness :
  count is_get (trace (snd (run Sample.env Sample.mirror Sample.disk))) = 8%nat
  /\ count is_root_resolution (trace (snd (run Sample.env Sample.mirror Sample.disk)))
     = 2%nat.
Proof.
  apply (proj2 (proj2 (run_request_budget Sample.env Sample.mirror Sample.disk)) tt).
  vm_compute. reflexivity.
Defined.

(** X11: [main] writes to standard output at one place only: a run that
    does not return (a fatal error, a panic, the help text) has written
    nothing to standard output, and a run that returns has written
    exactly one text, the manifest. *)
Theorem manifest_is_the_only_output (env : Env) (mirror : string) (help : bool)
    (w : World) :
  exists d,
    trace (snd (main mirror help env w)) = trace w ++ d
    /\ (forall a, fst (main mirror help env w) = Val a ->
                  exists now r a', stdout_of d = [trustRootYAML mirror now r a' +:+ nl])
    /\ ((forall a, fst (main mirror help env w) <> Val a) -> stdout_of d = []).
Proof.
  destruct (main_prints_last mirror help env w) as (d & Ht & Hs).
  exists d. split; [exact Ht|].
  destruct (fst (main mirror help env w)) as [u | c | msg].
  - destruct Hs as (s & Hs & now & r & a' & ->).
    split; [eauto | intros H; now destruct (H u)].
  - split; [discriminate | auto].
  - split; [discriminate | auto].
Qed.

Lemma manifest_is_the_only_output_witness :
  stdout_of (trace (snd (run Sample.files_missing Sample.mirror Sample.disk))) = []
  /\ exists now r a,
       stdout_of (trace (snd (run Sample.env Sample.mirror Sample.disk)))
       = [trustRootYAML Sample.mirror now r a +:+ nl].
Proof.
  split.
  - destruct (manifest_is_the_only_output Sample.files_missing Sample.mirror false
                (initial Sample.disk)) as (d & Ht & _ & Hno).
    unfold run. rewrite Ht. cbn [initial trace app]. apply Hno.
    intros a. vm_compute. discriminate.
  - destruct (manifest_is_the_only_output Sample.env Sample.mirror false
                (initial Sample.disk)) as (d & Ht & Hyes & _).
    unfold run. rewrite Ht. cbn [initial trace app]. apply (Hyes tt).
    vm_compute. reflexivity.
Defined.

(** X12: the working directory is removed when [main] returns or
    panics, provided [os.RemoveAll] can remove it; it is the directory
    [tuf-repository-] followed by the first random name, in the temporary
    directory. *)
Theorem working_directory_removed (env : Env) (mirror : string) (t : node) :
  let tmp := env_tmpdir env ++ ["tuf-repository-" +:+ env_rand env 0 +:+ EmptyString] in
  (forall c, fst (run env mirror t) <> Exit c) ->
  env_remove_fault env tmp = None ->
  FS.lookup tmp (fs (snd (run env mirror t))) = None
  /\ exists pre, trace (snd (run env mirror t)) = pre ++ [EvRemoveAll tmp None].
Proof.
  intros tmp Hne Hfault. revert Hne. unfold run, main.
  destruct (os_MkdirTemp_cases env (initial t) "tuf-repository-" EmptyString)
    as [(T1 & _ & HT1 & Hmk) | (e & Hmk)]; cbv zeta in Hmk.
  2:{ rewrite bind_unfold, Hmk. cbv beta iota.
      rewrite bind_unfold, log_Fatalf_run. cbn [fst]. intros H. now destruct (H 1%Z). }
  change (env_tmpdir env ++ ["tuf-repository-" +:+ env_rand env (temps (initial t))
                              +:+ EmptyString]) with tmp in *.
  rewrite bind_unfold, Hmk. cbv beta iota.
  rewrite bind_unfold. cbv beta iota delta [ret].
  unfold defer.
  match goal with
  | |- context [?body env (drawn (initial t) T1 [EvMkdirTemp tmp None])] =>
      destruct (body env (drawn (initial t) T1 [EvMkdirTemp tmp None]))
        as [[a | c | msg] w2]
  end; cbn [fst snd].
  - intros _. rewrite bind_unfold.
    destruct (os_RemoveAll_cases env w2 tmp) as [H | (e & H)].
    + rewrite H. cbn [snd logged fs trace]. split; [|eauto].
      apply lookup_remove_same. unfold tmp. intros E.
      apply app_eq_nil in E as [_ E]. discriminate.
    + exfalso. revert H. unfold os_RemoveAll, bind, ask. cbn. rewrite Hfault. cbn.
      discriminate.
  - intros H. now destruct (H c).
  - intros _. rewrite bind_unfold.
    destruct (os_RemoveAll_cases env w2 tmp) as [H | (e & H)].
    + rewrite H. cbn [snd logged fs trace]. split; [|eauto].
      apply lookup_remove_same. unfold tmp. intros E.
      apply app_eq_nil in E as [_ E]. discriminate.
    + exfalso. revert H. unfold os_RemoveAll, bind, ask. cbn. rewrite Hfault. cbn.
      discriminate.
Qed.

Lemma working_directory_removed_witness :
  FS.lookup ["tmp"; "tuf-repository-0"]
    (fs (snd (run Sample.roots_only Sample.mirror Sample.disk))) = None
  /\ FS.lookup ["tmp"; "tuf-repository-0"]
       (fs (snd (run Sample.env Sample.mirror Sample.disk))) = None.
Proof.
  split.
  - apply (working_directory_removed Sample.roots_only Sample.mirror Sample.disk);
      [intros c; vm_compute; discriminate | reflexivity].
  - apply (working_directory_removed Sample.env Sample.mirror Sample.disk);
      [intros c; vm_compute; discriminate | reflexivity].
Defined.


(** ** What the stages leave, whatever the outcome *)

Lemma rename_fs_put (old new : path) (T T' : node) :
  rename_fs old new T = inl T' ->
  exists src, FS.lookup old T = Some src /\
              FS.put new src (FS.remove old T) = Some T'.
Proof.
  unfold rename_fs. intros H.
  destruct (FS.lookup old T) as [src|]; [|discriminate].
  exists src. split; [reflexivity|].
  destruct (FS.lookup new T) as [[d | es]|]; [destruct src| |];
    try discriminate;
    destruct (FS.put new _ (FS.remove old T)); congruence.
Qed.

(** The working directory after the four downloads and the move. *)
Lemma working_directory_listing (n1 n2 n3 b1 b2 b3 b4 : string) (x : node) :
  candidate "root.json" n1 -> candidate "snapshot.json" n2 ->
  candidate "targets.json" n3 ->
  let fetched := FS.assoc_set "timestamp.json" (File b4)
                   (FS.assoc_set n3 (File b3)
                     (FS.assoc_set n2 (File b2)
                       (FS.assoc_set n1 (File b1) []))) in
  FS.assoc n1 fetched = Some (File b1)
  /\ FS.assoc_set "targets" x fetched
     = [(n1, File b1); (n2, File b2); (n3, File b3); ("timestamp.json", File b4);
        ("targets", x)].
Proof.
  intros Hc1 Hc2 Hc3.
  destruct (candidate_starts_with_digit _ _ Hc1) as (c1 & r1 & -> & Hd1).
  destruct (candidate_starts_with_digit _ _ Hc2) as (c2 & r2 & -> & Hd2).
  destruct (candidate_starts_with_digit _ _ Hc3) as (c3 & r3 & -> & Hd3).
  assert (H12 : String.eqb (String c1 r1) (String c2 r2) = false).
  { apply String.eqb_neq. intros E. rewrite E in Hc1.
    pose proof (candidate_pattern_unique _ _ _ Hc1 Hc2). discriminate. }
  assert (H13 : String.eqb (String c1 r1) (String c3 r3) = false).
  { apply String.eqb_neq. intros E. rewrite E in Hc1.
    pose proof (candidate_pattern_unique _ _ _ Hc1 Hc3). discriminate. }
  assert (H23 : String.eqb (String c2 r2) (String c3 r3) = false).
  { apply String.eqb_neq. intros E. rewrite E in Hc2.
    pose proof (candidate_pattern_unique _ _ _ Hc2 Hc3). discriminate. }
  assert (Ht : forall c r, Str.is_digit c = true ->
               String.eqb (String c r) "timestamp.json" = false
               /\ String.eqb (String c r) "targets" = false).
  { intros c r Hc. split; apply String.eqb_neq; intros E; injection E as -> _;
      discriminate. }
  destruct (Ht c1 r1 Hd1) as [Ht1 Hg1].
  destruct (Ht c2 r2 Hd2) as [Ht2 Hg2].
  destruct (Ht c3 r3 Hd3) as [Ht3 Hg3].
  cbv zeta. cbn [FS.assoc_set]. rewrite H12. cbn [FS.assoc_set]. rewrite H13, H23.
  cbn [FS.assoc_set]. rewrite Ht1, Ht2, Ht3. cbn [FS.assoc_set FS.assoc].
  rewrite String.eqb_refl, Hg1, Hg2, Hg3. split; reflexivity.
Qed.

Lemma latest_in_candidate (env : Env) (k : nat) (mirror p name : string) :
  latest_in env k mirror p name -> candidate p name.
Proof.
  intros (resp & _ & _ & _ & Hin & _).
  exact (listMetadataFilenames_candidate (Body resp) p name Hin).
Qed.

Section EndFacts.

Variables (env : Env) (mirror : string) (tmp : path).

(** A property of the file system that the writes of [main] keep: files
    put into the working directory, the archive file, the trust store put
    or removed, the targets directory taken out of the trust store. *)
Variable I : node -> Prop.

Hypothesis I_work :
  forall T T' name x, name <> EmptyString -> I T ->
    FS.put (tmp ++ [name]) x T = Some T' -> I T'.
Hypothesis I_temp :
  forall T T' name x, I T -> FS.put (archive_path env name) x T = Some T' -> I T'.
Hypothesis I_store :
  forall T T' s, I T -> FS.put (sigstore_dir env) s T = Some T' -> I T'.
Hypothesis I_wipe : forall T, I T -> I (FS.remove (sigstore_dir env) T).
Hypothesis I_take :
  forall T, I T -> I (FS.remove (FS.Join (env_home env) [".sigstore"; "root"; "targets"]) T).

Lemma ends_bind {A B} (m : M A) (k : A -> M B) (w : World)
    (Q : A -> World -> Prop) (R : B -> World -> Prop) (E : World -> Prop) :
  ends (m env w) Q E ->
  (forall a w1, Q a w1 -> ends (k a env w1) R E) ->
  ends (bind m k env w) R E.
Proof.
  intros Hm Hk. rewrite bind_unfold.
  destruct (m env w) as [[a | c | msg] w1]; cbn [ends] in *; auto.
Qed.

Lemma ends_weaken {A} (r : outcome A * World) (Q Q' : A -> World -> Prop)
    (E : World -> Prop) :
  ends r Q E -> (forall a w, Q a w -> Q' a w) -> ends r Q' E.
Proof. destruct r as [[a | c | msg] w]; cbn [ends]; auto. Qed.

(** [DownloadFile] on an open file: the outcome, the counters and the
    file system. *)
Lemma DownloadFile_leaves (p : path) (url : string) (w : World) :
  exists err w',
    DownloadFile (Handle p) url env w = (Val err, w') /\
    gets w' = S (gets w) /\ temps w' = temps w /\
    (fs w' = fs w \/ exists x, FS.put p x (fs w) = Some (fs w')) /\
    (err = None ->
     exists old body,
       served env (gets w) url body /\ FS.lookup p (fs w) = Some (File old) /\
       FS.put p (File (old +:+ body)) (fs w) = Some (fs w')).
Proof.
  unfold DownloadFile, io_Copy, File_Write, http_Get, bind, ret, emit, get_fs, set_fs.
  cbn.
  destruct (env_http env (gets w) url) as [e | resp] eqn:Hr; cbn.
  { eexists _, _. split; [reflexivity|]. repeat split; auto. discriminate. }
  unfold StatusOK. destruct (StatusCode resp =? 200)%Z eqn:Hst; cbn.
  2:{ eexists _, _. split; [reflexivity|]. repeat split; auto. discriminate. }
  apply Z.eqb_eq in Hst.
  destruct (FS.lookup p (fs w)) as [[old | es]|] eqn:Hl; cbn.
  - destruct (FS.put p (File (old +:+ Body resp)) (fs w)) as [T'|] eqn:Hp; cbn.
    + destruct (BodyErr resp) as [e|] eqn:Hb; cbn.
      * eexists _, _. split; [reflexivity|]. cbn. repeat split; eauto. discriminate.
      * eexists _, _. split; [reflexivity|]. cbn. repeat split; eauto.
        intros _. exists old, (Body resp). repeat split; auto.
        exists resp. now repeat split.
    + eexists _, _. split; [reflexivity|]. repeat split; auto. discriminate.
  - eexists _, _. split; [reflexivity|]. repeat split; auto. discriminate.
  - eexists _, _. split; [reflexivity|]. repeat split; auto. discriminate.
Qed.

(** One round of the loop. *)
Lemma fetchOne_ends (metadata : string) (rf : OsFile) (w : World)
    (es : list (string * node)) :
  I (fs w) -> FS.lookup tmp (fs w) = Some (Dir es) ->
  ends (fetchOne mirror tmp metadata rf env w)
    (fun f w' =>
       I (fs w') /\ temps w' = temps w /\
       exists name body,
         name <> EmptyString /\
         (if String.eqb metadata "timestamp.json"
          then name = "timestamp.json" /\ gets w' = S (gets w) /\
               served env (gets w) (mirror +:+ "/" +:+ name) body
          else latest_in env (gets w) mirror metadata name /\
               gets w' = S (S (gets w)) /\
               served env (S (gets w)) (mirror +:+ "/" +:+ name) body) /\
         FS.lookup tmp (fs w') = Some (Dir (FS.assoc_set name (File body) es)) /\
         f = if String.eqb metadata "root.json" then Handle (tmp ++ [name]) else rf)
    (fun w' => I (fs w')).
Proof.
  intros HI Hdir.
  (* the name *)
  assert (Hname : exists name w1,
    (if String.eqb metadata "timestamp.json" then ret "timestamp.json"
     else bind (GetLatestMetadataName mirror metadata)
            (fun x => let (name, _) := x in ret name)) env w = (Val name, w1)
    /\ fs w1 = fs w /\ temps w1 = temps w
    /\ (name = EmptyString
        \/ (name <> EmptyString /\
            if String.eqb metadata "timestamp.json"
            then name = "timestamp.json" /\ gets w1 = gets w
            else latest_in env (gets w) mirror metadata name /\ gets w1 = S (gets w)))).
  { destruct (String.eqb metadata "timestamp.json") eqn:Ets.
    - exists "timestamp.json", w. repeat split. right. split; [discriminate | now split].
    - destruct (GetLatestMetadataName_cases env w mirror metadata)
        as (name & err & Hres & Hcase).
      eexists name, _. rewrite bind_unfold, Hres. split; [reflexivity|].
      split; [reflexivity|]. split; [reflexivity|].
      destruct (String.eqb_spec name EmptyString) as [-> | Hne]; [now left | right].
      split; [exact Hne|]. split; [|reflexivity].
      destruct (env_http env (gets w) mirror) as [e | resp] eqn:Hr;
        [now destruct Hcase|].
      destruct (StatusCode resp =? 200)%Z eqn:Hst; [|now destruct Hcase].
      apply Z.eqb_eq in Hst.
      destruct (BodyErr resp) eqn:Hb; [now destruct Hcase|].
      cbv zeta in Hcase. destruct Hcase as [(_ & -> & _) | (_ & _ & Hin & Hmax)];
        [congruence|].
      exists resp. now repeat split. }
  destruct Hname as (name & w1 & Hres & Hfs1 & Htemps1 & Hcase).
  unfold fetchOne. rewrite bind_unfold, Hres. cbv beta iota.
  rewrite <- Hfs1 in Hdir, HI.
  destruct Hcase as [-> | (Hne & Hcase)].
  { (* no name: the path is the directory itself, and the file is nil *)
    rewrite Join_empty.
    rewrite bind_unfold, (os_Create_directory env w1 tmp es Hdir). cbn. exact HI. }
  rewrite (Join_name tmp name Hne).
  destruct (os_Create_cases env w1 (tmp ++ [name])) as [(T1 & HT1 & _ & Hcr) | (e & Hcr)];
    rewrite bind_unfold, Hcr; cbv beta iota.
  2:{ cbn. exact HI. }
  pose proof (I_work _ _ _ _ Hne HI HT1) as HI1.
  pose proof (lookup_put_child _ _ _ _ _ _ Hdir HT1) as Hdir1.
  pose proof (lookup_put_same _ _ _ _ HT1) as Hfile1.
  set (w2 := logged w1 T1 [EvCreate (tmp ++ [name]) None]) in *.
  destruct (DownloadFile_leaves (tmp ++ [name]) (mirror +:+ "/" +:+ name) w2)
    as (err & w3 & Hdl & Hg3 & Ht3 & Hfs3 & Hok).
  rewrite bind_unfold, Hdl. cbv beta iota.
  assert (HI3 : I (fs w3)).
  { destruct Hfs3 as [-> | (x & Hx)]; [exact HI1|].
    exact (I_work _ _ _ _ Hne HI1 Hx). }
  destruct err as [e|].
  { cbn. exact HI3. }
  destruct (Hok eq_refl) as (old & body & Hserved & Hold & Hput).
  unfold w2 in Hold at 1. cbn [logged fs] in Hold.
  rewrite Hfile1 in Hold. injection Hold as <-.
  rewrite if_ret. cbn [ends].
  split; [exact HI3|]. split; [now rewrite Ht3|].
  exists name, body. split; [exact Hne|]. split.
  - unfold w2 in Hg3, Hserved. cbn [logged gets] in Hg3, Hserved.
    destruct (String.eqb metadata "timestamp.json").
    + destruct Hcase as [-> Hg1]. rewrite Hg1 in *. now repeat split.
    + destruct Hcase as [Hl Hg1]. rewrite Hg1 in *. now repeat split.
  - split; [|reflexivity].
    rewrite (lookup_put_child _ _ _ _ _ _ Hdir1 Hput), assoc_set_set. reflexivity.
Qed.


(** Lines 49-86. *)
Lemma resolveAndFetch_ends (w : World) (es : list (string * node)) :
  I (fs w) -> FS.lookup tmp (fs w) = Some (Dir es) ->
  ends (resolveAndFetch mirror tmp env w)
    (fun f w' =>
       I (fs w') /\ temps w' = temps w /\ gets w' = (gets w + 8)%nat /\
       exists n0 n1 b1 n2 b2 n3 b3 b4,
         latest_in env (gets w) mirror "root.json" n0 /\
         latest_in env (gets w + 1) mirror "root.json" n1 /\
         served env (gets w + 2) (mirror +:+ "/" +:+ n1) b1 /\
         latest_in env (gets w + 3) mirror "snapshot.json" n2 /\
         served env (gets w + 4) (mirror +:+ "/" +:+ n2) b2 /\
         latest_in env (gets w + 5) mirror "targets.json" n3 /\
         served env (gets w + 6) (mirror +:+ "/" +:+ n3) b3 /\
         served env (gets w + 7) (mirror +:+ "/" +:+ "timestamp.json") b4 /\
         f = Handle (tmp ++ [n1]) /\
         FS.lookup tmp (fs w')
         = Some (Dir (FS.assoc_set "timestamp.json" (File b4)
                       (FS.assoc_set n3 (File b3)
                         (FS.assoc_set n2 (File b2)
                           (FS.assoc_set n1 (File b1) es))))))
    (fun w' => I (fs w')).
Proof.
  intros HI Hdir. unfold resolveAndFetch.
  destruct (GetLatestMetadataName_cases env w mirror "root.json")
    as (n0 & err & Hres & Hcase).
  rewrite bind_unfold, Hres. cbv beta iota.
  set (w1 := resolved_world w mirror "root.json" (env_http env (gets w) mirror) n0 err)
    in *.
  destruct (String.eqb_spec n0 EmptyString) as [-> | Hne]; rewrite bind_unfold.
  { rewrite log_Fatalf_run. cbn. exact HI. }
  assert (Hl0 : latest_in env (gets w) mirror "root.json" n0).
  { destruct (env_http env (gets w) mirror) as [e | resp] eqn:Hr;
      [now destruct Hcase|].
    destruct (StatusCode resp =? 200)%Z eqn:Hst; [|now destruct Hcase].
    apply Z.eqb_eq in Hst.
    destruct (BodyErr resp) eqn:Hb; [now destruct Hcase|].
    cbv zeta in Hcase. destruct Hcase as [(_ & -> & _) | (_ & _ & Hin & Hmax)];
      [congruence|].
    exists resp. now repeat split. }
  cbv beta iota delta [ret].
  rewrite bind_unfold, log_Printf_run. cbv beta iota.
  match goal with
  | |- ends (_ env ?w2') _ _ => set (w2 := w2')
  end.
  assert (Hw2 : fs w2 = fs w /\ gets w2 = S (gets w) /\ temps w2 = temps w)
    by now repeat split.
  destruct Hw2 as (Hfs2 & Hg2 & Ht2). clearbody w2. clear w1 Hres Hcase.
  unfold madatadas. cbn [fetchLoop].
  rewrite <- Hfs2 in HI, Hdir.
  eapply ends_bind; [apply (fetchOne_ends "root.json" ZeroFile w2 es HI Hdir)|].
  cbv beta. intros f1 w3 (HI3 & Ht3 & n1 & b1 & Hn1 & Hr1 & Hd3 & ->).
  cbn [String.eqb Ascii.eqb Bool.eqb] in Hr1. destruct Hr1 as (Hl1 & Hg3 & Hs1).
  eapply ends_bind; [apply (fetchOne_ends "snapshot.json" _ w3 _ HI3 Hd3)|].
  cbv beta. intros f2 w4 (HI4 & Ht4 & n2 & b2 & Hn2 & Hr2 & Hd4 & ->).
  cbn [String.eqb Ascii.eqb Bool.eqb] in Hr2. destruct Hr2 as (Hl2 & Hg4 & Hs2).
  eapply ends_bind; [apply (fetchOne_ends "targets.json" _ w4 _ HI4 Hd4)|].
  cbv beta. intros f3 w5 (HI5 & Ht5 & n3 & b3 & Hn3 & Hr3 & Hd5 & ->).
  cbn [String.eqb Ascii.eqb Bool.eqb] in Hr3. destruct Hr3 as (Hl3 & Hg5 & Hs3).
  eapply ends_bind; [apply (fetchOne_ends "timestamp.json" _ w5 _ HI5 Hd5)|].
  cbv beta. intros f4 w6 (HI6 & Ht6 & n4 & b4 & Hn4 & Hr4 & Hd6 & ->).
  cbn [String.eqb Ascii.eqb Bool.eqb] in Hr4. destruct Hr4 as (-> & Hg6 & Hs4).
  cbn [ends ret String.eqb Ascii.eqb Bool.eqb].
  split; [exact HI6|]. split; [congruence|]. split; [lia|].
  exists n0, n1, b1, n2, b2, n3, b3, b4.
  replace (gets w + 1)%nat with (gets w2) by lia.
  replace (gets w + 2)%nat with (S (gets w2)) by lia.
  replace (gets w + 3)%nat with (gets w3) by lia.
  replace (gets w + 4)%nat with (S (gets w3)) by lia.
  replace (gets w + 5)%nat with (gets w4) by lia.
  replace (gets w + 6)%nat with (S (gets w4)) by lia.
  replace (gets w + 7)%nat with (gets w5) by lia.
  repeat split; auto.
Qed.


(** Lines 88-109. *)
Lemma initializeTrust_ends (p : path) (w : World) :
  I (fs w) ->
  ends (initializeTrust mirror (Handle p) env w)
    (fun _ w' =>
       I (fs w') /\ temps w' = temps w /\ gets w' = gets w /\
       env_remove_fault env (sigstore_dir env) = None /\
       let T0 := FS.remove (sigstore_dir env) (fs w) in
       let root := match FS.lookup p T0 with
                   | Some (File d) => Some d
                   | _ => None
                   end in
       exists store,
         env_tuf_initialize env mirror root = (store, None) /\
         fs w' = match store with
                 | Some s =>
                     match FS.put (sigstore_dir env) s T0 with
                     | Some T => T
                     | None => T0
                     end
                 | None => T0
                 end)
    (fun w' => I (fs w')).
Proof.
  intros HI.
  unfold initializeTrust, cleanupLocalTUFRepository, os_RemoveAll, File_Name,
    os_ReadFile, tuf_Initialize, tuf_GetRootStatus, json_MarshalIndent, log_Printf,
    log_Fatalf, os_Exit, bind, ask, get_fs, set_fs, emit, ret.
  cbv zeta. cbn. change (FS.Join (env_home env) [".sigstore"]) with (sigstore_dir env).
  destruct (env_remove_fault env (sigstore_dir env)) as [e|] eqn:Hfault; cbn;
    [exact HI|].
  pose proof (I_wipe _ HI) as HI0.
  set (T0 := FS.remove (sigstore_dir env) (fs w)) in *.
  destruct (FS.lookup p T0) as [[d | es]|] eqn:Hl; cbn;
    destruct (env_tuf_initialize env mirror _) as [[s|] [e1|]] eqn:Hinit; cbn;
    try destruct (FS.put (sigstore_dir env) s T0) as [T|] eqn:Hp; cbn;
    try (first [exact HI0 | exact (I_store _ _ _ HI0 Hp)]);
    destruct (env_tuf_status env) as [st | e2]; cbn;
    try (first [exact HI0 | exact (I_store _ _ _ HI0 Hp)]);
    match goal with
    | |- context [env_marshal env ?x] => destruct (env_marshal env x) as [js | e3]
    end; cbn;
    try (first [exact HI0 | exact (I_store _ _ _ HI0 Hp)]);
    (split; [first [exact HI0 | exact (I_store _ _ _ HI0 Hp)]|]);
    (split; [reflexivity|]); (split; [reflexivity|]); (split; [reflexivity|]);
    eexists; (split; [reflexivity|]);
    first [cbv iota; rewrite Hp; reflexivity | reflexivity].
Qed.


(** Lines 111-117. *)
Lemma moveTargets_ends (w : World) :
  I (fs w) ->
  ends (moveTargets tmp env w)
    (fun _ w' =>
       I (fs w') /\ temps w' = temps w /\ gets w' = gets w /\
       exists src,
         FS.lookup (FS.Join (env_home env) [".sigstore"; "root"; "targets"]) (fs w)
         = Some src /\
         FS.put (tmp ++ ["targets"]) src
           (FS.remove (FS.Join (env_home env) [".sigstore"; "root"; "targets"]) (fs w))
         = Some (fs w'))
    (fun w' => I (fs w')).
Proof.
  intros HI.
  destruct (moveTargets_cases env tmp w) as [(T' & HT' & Hmv) | (e & _ & Hmv)];
    cbv zeta in *; rewrite Hmv; cbn [ends logged fs temps gets]; [|exact HI].
  apply rename_fs_put in HT' as (src & Hsrc & Hput).
  change (FS.Join tmp ["targets"]) with (tmp ++ ["targets"]) in Hput.
  split; [|eauto 6].
  refine (I_work _ _ "targets" src _ (I_take _ HI) Hput). discriminate.
Qed.

(** Lines 119-154. *)
Lemma packageAndEmit_ends (rp : path) (w : World) :
  I (fs w) ->
  (forall name, FS.disjoint tmp (archive_path env name)) ->
  (forall name, FS.disjoint rp (archive_path env name)) ->
  ends (packageAndEmit mirror tmp (Handle rp) env w)
    (fun _ w' =>
       I (fs w') /\ temps w' = S (temps w) /\ gets w' = gets w /\
       exists tree d,
         let arch := archive_path env (env_rand env (temps w)) in
         let bytes := env_targz env (Tar.archive_of tree) in
         FS.lookup tmp (fs w) = Some tree /\
         FS.lookup rp (fs w) = Some (File d) /\
         FS.lookup arch (fs w) = None /\
         stdout_of (trace w')
         = stdout_of (trace w)
           ++ [trustRootYAML mirror (env_now env) (Base64.EncodeToString d)
                 (Base64.EncodeToString bytes) +:+ nl] /\
         FS.lookup arch (fs w') = Some (File bytes) /\
         forall q, FS.disjoint arch q -> FS.lookup q (fs w') = FS.lookup q (fs w))
    (fun w' => I (fs w')).
Proof.
  intros HI Hta Hra. cbv zeta.
  set (arch := archive_path env (env_rand env (temps w))).
  specialize (Hta (env_rand env (temps w))). specialize (Hra (env_rand env (temps w))).
  fold arch in Hta, Hra.
  unfold packageAndEmit, os_CreateTemp, fresh_name, defer, File_Close,
    CompressDirectory, os_Create, File_Write, EncodeBase64, File_Name, os_ReadFile,
    time_Now_Unix, fmt_Println, log_Fatalf, os_Exit, bind, ask, get_fs, set_fs, emit, ret.
  cbn. change (env_tmpdir env ++ ["repository-" +:+ env_rand env (temps w) +:+ ".tar.gz"])
    with arch.
  destruct (FS.lookup arch (fs w)) as [x|] eqn:Hfree; cbn; [exact HI|].
  destruct (FS.put arch (File EmptyString) (fs w)) as [T1|] eqn:HT1; cbn; [|exact HI].
  pose proof (I_temp _ _ _ _ HI HT1) as HI1.
  pose proof (lookup_put_same _ _ _ _ HT1) as Ha1. rewrite Ha1.
  destruct (put_existing arch (File EmptyString) T1 _ Ha1) as [T2 HT2]. rewrite HT2. cbn.
  pose proof (I_temp _ _ _ _ HI1 HT2) as HI2.
  pose proof (lookup_put_same _ _ _ _ HT2) as Ha2.
  assert (Hkeep2 : forall q, FS.disjoint arch q -> FS.lookup q T2 = FS.lookup q (fs w)).
  { intros q Hq. rewrite (lookup_put_disjoint _ _ _ _ HT2 q Hq).
    exact (lookup_put_disjoint _ _ _ _ HT1 q Hq). }
  rewrite (Hkeep2 tmp (disjoint_sym _ _ Hta)).
  destruct (FS.lookup tmp (fs w)) as [tree|] eqn:Htmp; cbn; rewrite Ha2.
  2:{ destruct (put_existing arch (File (EmptyString +:+ env_targz env [])) T2 _ Ha2)
        as [T3 HT3].
      rewrite HT3. cbn. exact (I_temp _ _ _ _ HI2 HT3). }
  set (bytes := env_targz env (Tar.archive_of tree)).
  destruct (put_existing arch (File (EmptyString +:+ bytes)) T2 _ Ha2) as [T3 HT3].
  rewrite HT3. cbn.
  pose proof (I_temp _ _ _ _ HI2 HT3) as HI3.
  pose proof (lookup_put_same _ _ _ _ HT3) as Ha3. rewrite Ha3. cbn.
  assert (Hkeep3 : forall q, FS.disjoint arch q -> FS.lookup q T3 = FS.lookup q (fs w)).
  { intros q Hq. rewrite (lookup_put_disjoint _ _ _ _ HT3 q Hq). now apply Hkeep2. }
  rewrite (Hkeep3 rp (disjoint_sym _ _ Hra)).
  destruct (FS.lookup rp (fs w)) as [[d | es]|] eqn:Hrp; cbn; try exact HI3.
  split; [exact HI3|]. split; [reflexivity|]. split; [reflexivity|].
  exists tree, d. repeat split; auto.
  rewrite !stdout_of_app. cbn. now rewrite !List.app_nil_r.
Qed.


(** From the empty working directory to the move. *)
Lemma assembleRepository_ends (w : World) :
  I (fs w) -> FS.lookup tmp (fs w) = Some (Dir []) ->
  ends (assembleRepository mirror tmp env w)
    (fun f w' =>
       I (fs w') /\ temps w' = temps w /\
       exists n0 n1 b1 n2 b2 n3 b3 b4,
         latest_in env (gets w) mirror "root.json" n0 /\
         latest_in env (gets w + 1) mirror "root.json" n1 /\
         served env (gets w + 2) (mirror +:+ "/" +:+ n1) b1 /\
         latest_in env (gets w + 3) mirror "snapshot.json" n2 /\
         served env (gets w + 4) (mirror +:+ "/" +:+ n2) b2 /\
         latest_in env (gets w + 5) mirror "targets.json" n3 /\
         served env (gets w + 6) (mirror +:+ "/" +:+ n3) b3 /\
         served env (gets w + 7) (mirror +:+ "/" +:+ "timestamp.json") b4 /\
         f = Handle (tmp ++ [n1]) /\
         (FS.disjoint (sigstore_dir env) tmp ->
          exists store targets,
            env_tuf_initialize env mirror (Some b1) = (Some store, None) /\
            FS.lookup ["root"; "targets"] store = Some targets /\
            FS.lookup (sigstore_dir env ++ ["root"; "targets"]) (fs w') = None /\
            FS.lookup tmp (fs w')
            = Some (Dir [(n1, File b1); (n2, File b2); (n3, File b3);
                         ("timestamp.json", File b4); ("targets", targets)])))
    (fun w' => I (fs w')).
Proof.
  intros HI Hdir. unfold assembleRepository.
  eapply ends_bind; [apply (resolveAndFetch_ends w [] HI Hdir)|].
  cbv beta.
  intros f w1 (HI1 & Ht1 & Hg1 & n0 & n1 & b1 & n2 & b2 & n3 & b3 & b4
               & Hl0 & Hl1 & Hs1 & Hl2 & Hs2 & Hl3 & Hs3 & Hs4 & -> & Hd1).
  eapply ends_bind; [apply (initializeTrust_ends (tmp ++ [n1]) w1 HI1)|].
  cbv beta zeta. intros _ w2 (HI2 & Ht2 & Hg2 & Hfault & store & Hinit & Hfs2).
  eapply ends_bind; [apply (moveTargets_ends w2 HI2)|].
  cbv beta. intros _ w3 (HI3 & Ht3 & Hg3 & src & Hsrc & Hput).
  cbn [ends ret]. split; [exact HI3|]. split; [congruence|].
  exists n0, n1, b1, n2, b2, n3, b3, b4. repeat split; auto.
  intros Hdisj.
  destruct (working_directory_listing n1 n2 n3 b1 b2 b3 b4 src
              (latest_in_candidate _ _ _ _ _ Hl1) (latest_in_candidate _ _ _ _ _ Hl2)
              (latest_in_candidate _ _ _ _ _ Hl3)) as [Hroot Hlist].
  cbv zeta in Hroot, Hlist.
  set (T0 := FS.remove (sigstore_dir env) (fs w1)) in *.
  assert (Hd0 : FS.lookup tmp T0 = FS.lookup tmp (fs w1))
    by (apply lookup_remove_disjoint; exact Hdisj).
  assert (Hr0 : FS.lookup (tmp ++ [n1]) T0 = Some (File b1)).
  { rewrite lookup_app, Hd0, Hd1. rewrite lookup_cons_Dir, Hroot. reflexivity. }
  rewrite Hr0 in Hinit.
  assert (Horig : FS.Join (env_home env) [".sigstore"; "root"; "targets"]
                  = sigstore_dir env ++ ["root"; "targets"]).
  { unfold sigstore_dir, FS.Join. cbn [List.filter String.eqb Ascii.eqb Bool.eqb negb].
    now rewrite <- List.app_assoc. }
  rewrite Horig in Hsrc, Hput.
  assert (Hgone0 : FS.lookup (sigstore_dir env ++ ["root"; "targets"]) T0 = None).
  { rewrite lookup_app. unfold T0. rewrite lookup_remove_same; [reflexivity|].
    unfold sigstore_dir, FS.Join. intros E. apply app_eq_nil in E as [_ E]. discriminate. }
  destruct store as [s|]; [|rewrite Hfs2 in Hsrc; congruence].
  destruct (FS.put (sigstore_dir env) s T0) as [T|] eqn:Hps;
    [|rewrite Hfs2 in Hsrc; congruence].
  rewrite Hfs2 in Hsrc, Hput.
  rewrite (lookup_put_below _ _ _ _ Hps) in Hsrc.
  assert (Hdo : FS.disjoint (sigstore_dir env ++ ["root"; "targets"]) tmp).
  { rewrite <- (List.app_nil_r tmp). now apply disjoint_app. }
  assert (Hdd : FS.disjoint (sigstore_dir env ++ ["root"; "targets"]) (tmp ++ ["targets"]))
    by now apply disjoint_app.
  exists s, src. split; [exact Hinit|]. split; [exact Hsrc|]. split.
  - rewrite (lookup_put_disjoint _ _ _ _ Hput _ (disjoint_sym _ _ Hdd)).
    apply lookup_remove_same. intros E. apply app_eq_nil in E as [_ E]. discriminate.
  - assert (Hd2 : FS.lookup tmp (FS.remove (sigstore_dir env ++ ["root"; "targets"]) T)
                  = FS.lookup tmp (fs w1)).
    { rewrite (lookup_remove_disjoint _ _ _ Hdo).
      rewrite (lookup_put_disjoint _ _ _ _ Hps tmp Hdisj). exact Hd0. }
    rewrite Hd1 in Hd2.
    rewrite (lookup_put_child tmp "targets" src _ _ _ Hd2 Hput). now rewrite Hlist.
Qed.


Lemma assembleRepository_silent :
  spends is_stdout 0 (assembleRepository mirror tmp).
Proof. silent. Qed.

(** The body of [main] below the deferred removal. *)
Lemma main_body_ends (w : World) :
  I (fs w) -> FS.lookup tmp (fs w) = Some (Dir []) ->
  (forall name, FS.disjoint tmp (archive_path env name)) ->
  ends ((let* rootJSONFile := assembleRepository mirror tmp in
         packageAndEmit mirror tmp rootJSONFile) env w)
    (fun _ w' =>
       I (fs w') /\ temps w' = S (temps w) /\
       exists n0 n1 b1 n2 b2 n3 b3 b4,
         latest_in env (gets w) mirror "root.json" n0 /\
         latest_in env (gets w + 1) mirror "root.json" n1 /\
         served env (gets w + 2) (mirror +:+ "/" +:+ n1) b1 /\
         latest_in env (gets w + 3) mirror "snapshot.json" n2 /\
         served env (gets w + 4) (mirror +:+ "/" +:+ n2) b2 /\
         latest_in env (gets w + 5) mirror "targets.json" n3 /\
         served env (gets w + 6) (mirror +:+ "/" +:+ n3) b3 /\
         served env (gets w + 7) (mirror +:+ "/" +:+ "timestamp.json") b4 /\
         (FS.disjoint (sigstore_dir env) tmp ->
          exists store targets,
            let tree := Dir [(n1, File b1); (n2, File b2); (n3, File b3);
                             ("timestamp.json", File b4); ("targets", targets)] in
            let bytes := env_targz env (Tar.archive_of tree) in
            let arch := archive_path env (env_rand env (temps w)) in
            env_tuf_initialize env mirror (Some b1) = (Some store, None) /\
            FS.lookup ["root"; "targets"] store = Some targets /\
            stdout_of (trace w')
            = stdout_of (trace w)
              ++ [trustRootYAML mirror (env_now env) (Base64.EncodeToString b1)
                    (Base64.EncodeToString bytes) +:+ nl] /\
            FS.lookup tmp (fs w') = Some tree /\
            FS.lookup arch (fs w') = Some (File bytes) /\
            (FS.disjoint (sigstore_dir env) arch ->
             FS.lookup (sigstore_dir env ++ ["root"; "targets"]) (fs w') = None)))
    (fun w' => I (fs w')).
Proof.
  intros HI Hdir Hta.
  pose proof (assembleRepository_ends w HI Hdir) as Ha.
  destruct (assembleRepository_silent env w) as (d3 & Htr3 & Hc3 & _).
  rewrite bind_unfold.
  destruct (assembleRepository mirror tmp env w) as [[f | c | msg] w3];
    cbn [ends fst snd] in *; [|exact Ha | exact Ha].
  destruct Ha as (HI3 & Ht3 & n0 & n1 & b1 & n2 & b2 & n3 & b3 & b4
                  & Hl0 & Hl1 & Hs1 & Hl2 & Hs2 & Hl3 & Hs3 & Hs4 & -> & Hfacts).
  assert (Hra : forall name, FS.disjoint (tmp ++ [n1]) (archive_path env name)).
  { intros name. rewrite <- (List.app_nil_r (archive_path env name)).
    apply disjoint_app. apply Hta. }
  eapply ends_weaken; [apply (packageAndEmit_ends (tmp ++ [n1]) w3 HI3 Hta Hra)|].
  cbv beta zeta. intros _ w4 (HI4 & Ht4 & Hg4 & tree & d & Htree & Hd & Hfree & Hout & Harch & Hkeep).
  split; [exact HI4|]. split; [congruence|].
  exists n0, n1, b1, n2, b2, n3, b3, b4. repeat split; auto.
  intros Hdisj. destruct (Hfacts Hdisj) as (store & targets & Hinit & Htg & Hgone & Hlist).
  exists store, targets. cbv zeta.
  rewrite Hlist in Htree. injection Htree as <-.
  destruct (working_directory_listing n1 n2 n3 b1 b2 b3 b4 targets
              (latest_in_candidate _ _ _ _ _ Hl1) (latest_in_candidate _ _ _ _ _ Hl2)
              (latest_in_candidate _ _ _ _ _ Hl3)) as [_ Hlist5].
  cbv zeta in Hlist5.
  assert (Hd1 : d = b1).
  { rewrite lookup_app, Hlist, lookup_cons_Dir in Hd.
    cbn [FS.assoc] in Hd. rewrite String.eqb_refl in Hd. cbn in Hd. congruence. }
  subst d. rewrite Ht3 in *.
  split; [exact Hinit|]. split; [exact Htg|]. split.
  - rewrite Hout, Htr3, stdout_of_app.
    rewrite (count_stdout_0 d3) by lia. now rewrite List.app_nil_r.
  - split; [|split; [exact Harch|]].
    + rewrite (Hkeep tmp (disjoint_sym _ _ (Hta _))). exact Hlist.
    + intros Hsa. rewrite Hkeep; [exact Hgone|].
      apply disjoint_sym. rewrite <- (List.app_nil_r (archive_path env _)).
      now apply disjoint_app.
Qed.

End EndFacts.


(** ** The run that returns *)

Lemma disjoint_siblings (p : path) (a b : string) :
  a <> b -> FS.disjoint (p ++ [a]) (p ++ [b]).
Proof.
  intros Hne.
  assert (H : forall x y, x <> y -> FS.strip (p ++ [x]) (p ++ [y]) = None).
  { intros x y Hxy. induction p as [|c p IH]; cbn [app FS.strip].
    - apply String.eqb_neq in Hxy. now rewrite Hxy.
    - now rewrite String.eqb_refl. }
  split; apply H; congruence.
Qed.

(** The working directory and the archive file have different names. *)
Lemma working_directory_not_archive (env : Env) (r name : string) :
  FS.disjoint (env_tmpdir env ++ ["tuf-repository-" +:+ r]) (archive_path env name).
Proof.
  apply disjoint_siblings. intros E. vm_compute in E. discriminate.
Qed.

(** X13: what a run that returns has done.  The second resolution of
    [root.json] gave [n1], the resolutions of [snapshot.json] and
    [targets.json] gave [n2] and [n3]; the downloads, the GET requests
    number 2, 4, 6 and 7 of the run (counted from 0), gave the bodies [b1]
    to [b4]; the TUF
    client was initialized with [b1] and left a trust store with a
    [root/targets] directory.  The one text on standard output is the
    manifest whose [root] field is the base64 text of [b1] and whose
    [mirrorFS] field is the base64 text of the archive of the four files
    and that directory; the archive file stays in the temporary
    directory. *)
Theorem run_success_manifest (env : Env) (mirror : string) (t : node) :
  let tmp := env_tmpdir env ++ ["tuf-repository-" +:+ env_rand env 0 +:+ EmptyString] in
  let arch := archive_path env (env_rand env 1) in
  FS.disjoint (sigstore_dir env) tmp ->
  fst (run env mirror t) = Val tt ->
  exists n0 n1 b1 n2 b2 n3 b3 b4 store targets,
    latest_in env 0 mirror "root.json" n0 /\
    latest_in env 1 mirror "root.json" n1 /\
    served env 2 (mirror +:+ "/" +:+ n1) b1 /\
    latest_in env 3 mirror "snapshot.json" n2 /\
    served env 4 (mirror +:+ "/" +:+ n2) b2 /\
    latest_in env 5 mirror "targets.json" n3 /\
    served env 6 (mirror +:+ "/" +:+ n3) b3 /\
    served env 7 (mirror +:+ "/" +:+ "timestamp.json") b4 /\
    env_tuf_initialize env mirror (Some b1) = (Some store, None) /\
    FS.lookup ["root"; "targets"] store = Some targets /\
    let tree := Dir [(n1, File b1); (n2, File b2); (n3, File b3);
                     ("timestamp.json", File b4); ("targets", targets)] in
    let bytes := env_targz env (Tar.archive_of tree) in
    stdout_of (trace (snd (run env mirror t)))
    = [trustRootYAML mirror (env_now env) (Base64.EncodeToString b1)
         (Base64.EncodeToString bytes) +:+ nl]
    /\ FS.lookup arch (fs (snd (run env mirror t))) = Some (File bytes).
Proof.
  intros tmp arch Hdisj. unfold run, main.
  destruct (os_MkdirTemp_cases env (initial t) "tuf-repository-" EmptyString)
    as [(T1 & _ & HT1 & Hmk) | (e & Hmk)]; cbv zeta in Hmk.
  2:{ rewrite bind_unfold, Hmk. cbv beta iota.
      rewrite bind_unfold, log_Fatalf_run. discriminate. }
  change (env_tmpdir env ++ ["tuf-repository-" +:+ env_rand env (temps (initial t))
                              +:+ EmptyString]) with tmp in *.
  set (w1 := drawn (initial t) T1 [EvMkdirTemp tmp None]) in *.
  assert (Hta : forall name, FS.disjoint tmp (archive_path env name))
    by (intros name; apply working_directory_not_archive).
  pose proof (main_body_ends env mirror tmp (fun _ => True)
                (fun _ _ _ _ _ _ _ => Logic.I) (fun _ _ _ _ _ _ => Logic.I)
                (fun _ _ _ _ _ => Logic.I) (fun _ _ => Logic.I) (fun _ _ => Logic.I)
                w1 Logic.I (lookup_put_same _ _ _ _ HT1) Hta) as Hbody.
  rewrite bind_unfold, Hmk. cbv beta iota.
  rewrite bind_unfold. cbv beta iota delta [ret]. unfold defer.
  match type of Hbody with
  | ends ?r _ _ => destruct r as [[u | c | msg] w4]
  end; cbn [ends fst snd] in *; try discriminate.
  intros _.
  destruct Hbody as (_ & _ & n0 & n1 & b1 & n2 & b2 & n3 & b3 & b4
                     & Hl0 & Hl1 & Hs1 & Hl2 & Hs2 & Hl3 & Hs3 & Hs4 & Hfacts).
  destruct (Hfacts Hdisj) as (store & targets & Hinit & Htg & Hout & _ & Harch & _).
  exists n0, n1, b1, n2, b2, n3, b3, b4, store, targets.
  repeat (split; [assumption|]). cbv zeta.
  unfold arch. change (temps w1) with 1%nat in Harch.
  rewrite bind_unfold.
  destruct (os_RemoveAll_cases env w4 tmp) as [H | (e & H)]; rewrite H;
    cbn [snd logged trace fs]; rewrite stdout_of_app, Hout; (split; [reflexivity|]).
  - rewrite (lookup_remove_disjoint _ _ _ (Hta _)). exact Harch.
  - exact Harch.
Qed.

Lemma run_success_manifest_witness :
  exists n1 b1 n2 b2 n3 b3 b4 targets,
    served Sample.env 2 (Sample.mirror +:+ "/" +:+ n1) b1
    /\ stdout_of (trace (snd (run Sample.env Sample.mirror Sample.disk)))
       = [trustRootYAML Sample.mirror 1700000000 (Base64.EncodeToString b1)
            (Base64.EncodeToString
               (Sample.targz
                  (Tar.archive_of
                     (Dir [(n1, File b1); (n2, File b2); (n3, File b3);
                           ("timestamp.json", File b4); ("targets", targets)]))))
          +:+ nl].
Proof.
  destruct (run_success_manifest Sample.env Sample.mirror Sample.disk)
    as (n0 & n1 & b1 & n2 & b2 & n3 & b3 & b4 & store & targets & _ & _ & Hs1 & _ & _
        & _ & _ & _ & _ & _ & Hout & _).
  - split; reflexivity.
  - vm_compute. reflexivity.
  - exists n1, b1, n2, b2, n3, b3, b4, targets. split; [exact Hs1 | exact Hout].
Defined.


(** ** What a run changes on disk *)

Lemma sigstore_targets_path (env : Env) :
  FS.Join (env_home env) [".sigstore"; "root"; "targets"]
  = sigstore_dir env ++ ["root"; "targets"].
Proof.
  unfold sigstore_dir, FS.Join. cbn [List.filter String.eqb Ascii.eqb Bool.eqb negb].
  now rewrite <- List.app_assoc.
Qed.

Lemma disjoint_below (p q a : path) : FS.disjoint p q -> FS.disjoint (p ++ a) q.
Proof. intros H. rewrite <- (List.app_nil_r q). now apply disjoint_app. Qed.

(** X14: a run changes nothing outside the trust store and the temporary
    directory: whatever the outcome, every path that is neither above nor
    below [$HOME/.sigstore] and neither above nor below the temporary
    directory leads, after the run, where it led before. *)
Theorem run_writes_only_store_and_temp (env : Env) (mirror : string) (t : node)
    (q : path) :
  FS.disjoint (sigstore_dir env) q -> FS.disjoint (env_tmpdir env) q ->
  FS.lookup q (fs (snd (run env mirror t))) = FS.lookup q t.
Proof.
  intros Hsq Htq. unfold run, main.
  destruct (os_MkdirTemp_cases env (initial t) "tuf-repository-" EmptyString)
    as [(T1 & _ & HT1 & Hmk) | (e & Hmk)]; cbv zeta in Hmk.
  2:{ rewrite bind_unfold, Hmk. cbv beta iota.
      rewrite bind_unfold, log_Fatalf_run. reflexivity. }
  set (tmp := env_tmpdir env ++ ["tuf-repository-" +:+ env_rand env (temps (initial t))
                                  +:+ EmptyString]) in *.
  set (w1 := drawn (initial t) T1 [EvMkdirTemp tmp None]) in *.
  assert (Htmp : forall a, FS.disjoint (tmp ++ a) q).
  { intros a. unfold tmp. rewrite <- List.app_assoc. now apply disjoint_below. }
  assert (Hbody : ends ((let* rootJSONFile := assembleRepository mirror tmp in
                         packageAndEmit mirror tmp rootJSONFile) env w1)
                    (fun _ w' => FS.lookup q (fs w') = FS.lookup q t)
                    (fun w' => FS.lookup q (fs w') = FS.lookup q t)).
  { eapply ends_weaken.
    - apply (main_body_ends env mirror tmp (fun T => FS.lookup q T = FS.lookup q t)).
      + intros T T' name x _ HT Hp.
        now rewrite (lookup_put_disjoint _ _ _ _ Hp q (Htmp [name])).
      + intros T T' name x HT Hp.
        now rewrite (lookup_put_disjoint _ _ _ _ Hp q (disjoint_below _ _ _ Htq)).
      + intros T T' s HT Hp. now rewrite (lookup_put_disjoint _ _ _ _ Hp q Hsq).
      + intros T HT. now rewrite (lookup_remove_disjoint _ _ _ Hsq).
      + intros T HT. rewrite sigstore_targets_path.
        now rewrite (lookup_remove_disjoint _ _ _ (disjoint_below _ _ _ Hsq)).
      + cbn [w1 drawn fs]. rewrite <- (List.app_nil_r tmp) in HT1.
        rewrite (lookup_put_disjoint _ _ _ _ HT1 q (Htmp [])). reflexivity.
      + apply (lookup_put_same _ _ _ _ HT1).
      + intros name. apply working_directory_not_archive.
    - cbv beta. intros _ w' [H _]. exact H. }
  rewrite bind_unfold, Hmk. cbv beta iota.
  rewrite bind_unfold. cbv beta iota delta [ret]. unfold defer.
  match type of Hbody with
  | ends ?r _ _ => destruct r as [[u | c | msg] w4]
  end; cbn [ends fst snd] in *; try exact Hbody;
    rewrite bind_unfold;
    (destruct (os_RemoveAll_cases env w4 tmp) as [H | (e & H)]; rewrite H;
     cbn [snd logged fs]; [|exact Hbody]);
    rewrite <- (List.app_nil_r tmp);
    now rewrite (lookup_remove_disjoint _ _ _ (Htmp [])).
Qed.

Lemma run_writes_only_store_and_temp_witness :
  let t := Dir [("home", Dir [("user", Dir [("notes", File "n")])]); ("tmp", Dir [])] in
  FS.lookup ["home"; "user"; "notes"] (fs (snd (run Sample.env Sample.mirror t)))
  = Some (File "n")
  /\ FS.lookup ["home"; "user"; "notes"]
       (fs (snd (run Sample.files_missing Sample.mirror t)))
     = Some (File "n").
Proof.
  intros t. split.
  - apply (run_writes_only_store_and_temp Sample.env Sample.mirror t
             ["home"; "user"; "notes"]); split; reflexivity.
  - apply (run_writes_only_store_and_temp Sample.files_missing Sample.mirror t
             ["home"; "user"; "notes"]); split; reflexivity.
Defined.

(** X15: [log.Fatalf] ends the process without running the deferred
    removal: when the working directory was created and the run ends
    through [os.Exit], the working directory is still on disk after the
    run (the trust store and the working directory being on separate
    paths). *)
Theorem fatal_exit_leaves_working_directory (env : Env) (mirror : string) (t : node) :
  let tmp := env_tmpdir env ++ ["tuf-repository-" +:+ env_rand env 0 +:+ EmptyString] in
  FS.disjoint (sigstore_dir env) tmp ->
  FS.stat (env_tmpdir env) t = Some FS.KDir -> FS.lookup tmp t = None ->
  forall c, fst (run env mirror t) = Exit c ->
  exists es, FS.lookup tmp (fs (snd (run env mirror t))) = Some (Dir es).
Proof.
  intros tmp Hdisj Hparent Hfree c. unfold run, main.
  destruct (os_MkdirTemp_cases env (initial t) "tuf-repository-" EmptyString)
    as [(T1 & _ & HT1 & Hmk) | (e & Hmk)]; cbv zeta in Hmk.
  2:{ exfalso. revert Hmk.
      unfold os_MkdirTemp, fresh_name, bind, ask, get_fs, set_fs, emit, ret. cbn.
      change (env_tmpdir env ++ ["tuf-repository-" +:+ env_rand env 0 +:+ EmptyString])
        with tmp.
      rewrite Hfree.
      destruct (put_in_directory (env_tmpdir env)
                  ("tuf-repository-" +:+ env_rand env 0 +:+ EmptyString) (Dir []) t Hparent)
        as [T1 HT1].
      fold tmp in HT1. rewrite HT1. cbn. discriminate. }
  change (env_tmpdir env ++ ["tuf-repository-" +:+ env_rand env (temps (initial t))
                              +:+ EmptyString]) with tmp in *.
  set (w1 := drawn (initial t) T1 [EvMkdirTemp tmp None]) in *.
  assert (Hbody : ends ((let* rootJSONFile := assembleRepository mirror tmp in
                         packageAndEmit mirror tmp rootJSONFile) env w1)
                    (fun _ _ => True)
                    (fun w' => exists es, FS.lookup tmp (fs w') = Some (Dir es))).
  { eapply ends_weaken.
    - apply (main_body_ends env mirror tmp
               (fun T => exists es, FS.lookup tmp T = Some (Dir es))).
      + intros T T' name x _ [es HT] Hp.
        eexists. exact (lookup_put_child _ _ _ _ _ _ HT Hp).
      + intros T T' name x [es HT] Hp. exists es.
        rewrite (lookup_put_disjoint _ _ _ _ Hp tmp); [exact HT|].
        apply disjoint_sym, working_directory_not_archive.
      + intros T T' s [es HT] Hp. exists es.
        now rewrite (lookup_put_disjoint _ _ _ _ Hp tmp Hdisj).
      + intros T [es HT]. exists es. now rewrite (lookup_remove_disjoint _ _ _ Hdisj).
      + intros T [es HT]. exists es. rewrite sigstore_targets_path.
        now rewrite (lookup_remove_disjoint _ _ _ (disjoint_below _ _ _ Hdisj)).
      + exists []. apply (lookup_put_same _ _ _ _ HT1).
      + apply (lookup_put_same _ _ _ _ HT1).
      + intros name. apply working_directory_not_archive.
    - auto. }
  rewrite bind_unfold, Hmk. cbv beta iota.
  rewrite bind_unfold. cbv beta iota delta [ret]. unfold defer.
  match type of Hbody with
  | ends ?r _ _ => destruct r as [[u | c' | msg] w4]
  end; cbn [ends fst snd] in *; try discriminate.
  intros _. exact Hbody.
Qed.

Lemma fatal_exit_leaves_working_directory_witness :
  exists es,
    FS.lookup ["tmp"; "tuf-repository-0"]
      (fs (snd (run Sample.files_missing Sample.mirror Sample.disk))) = Some (Dir es).
Proof.
  apply (fatal_exit_leaves_working_directory Sample.files_missing Sample.mirror
           Sample.disk) with (c := 1%Z).
  - split; reflexivity.
  - reflexivity.
  - reflexivity.
  - vm_compute. reflexivity.
Defined.


(** ** How a run ends *)

(** When [main] returns or panics, the deferred removal is the last
    event. *)
Lemma run_last_removal (env : Env) (mirror : string) (t : node) :
  (forall c, fst (run env mirror t) <> Exit c) ->
  exists pre p e, trace (snd (run env mirror t)) = pre ++ [EvRemoveAll p e].
Proof.
  unfold run, main.
  destruct (os_MkdirTemp_cases env (initial t) "tuf-repository-" EmptyString)
    as [(T1 & _ & HT1 & Hmk) | (e & Hmk)]; cbv zeta in Hmk.
  2:{ rewrite bind_unfold, Hmk. cbv beta iota.
      rewrite bind_unfold, log_Fatalf_run. cbn [fst]. intros H. now destruct (H 1%Z). }
  rewrite bind_unfold, Hmk. cbv beta iota.
  rewrite bind_unfold. cbv beta iota delta [ret]. unfold defer.
  match goal with
  | |- context [?body env (drawn (initial t) T1 ?d)] =>
      destruct (body env (drawn (initial t) T1 d)) as [[a | c | msg] w2]
  end; cbn [fst snd]; intros Hne; try (now destruct (Hne c));
    rewrite bind_unfold;
    match goal with
    | |- context [os_RemoveAll ?p env ?w] =>
        destruct (os_RemoveAll_cases env w p) as [H | (e & H)]; rewrite H
    end; cbn [snd logged trace]; eauto.
Qed.

(** A panic follows a failed [os.Create]. *)
Lemma panic_after_create (mirror : string) (ok tail : list event) :
  abort_tail mirror KPanic tail ->
  exists pre q e, ok ++ tail = pre ++ [EvCreate q (Some e)].
Proof.
  intros H. inversion H; subst.
  - exists (ok ++ [EvGet mirror r; EvResolved p name err]), q, e.
    now rewrite <- List.app_assoc.
  - now exists ok, q, e.
Qed.

(** X16: the three ways a run ends.  An exit through [os.Exit] has
    status 1 and the fatal message on standard error is the last event; a
    panic can only follow a failed [os.Create] in the loop, where [Name] is
    called on the nil file: the failed creation and the deferred removal
    are then the last two events; the exit status is 0, 1 or 2. *)
Theorem run_ends_in_three_ways (env : Env) (mirror : string) (t : node) :
  let out := fst (run env mirror t) in
  let tr := trace (snd (run env mirror t)) in
  (forall c, out = Exit c -> c = 1%Z /\ exists pre msg, tr = pre ++ [EvStderr msg])
  /\ (forall msg, out = Panic msg ->
        exists pre q e p re, tr = pre ++ [EvCreate q (Some e); EvRemoveAll p re])
  /\ (exit_status out = 0%Z \/ exit_status out = 1%Z \/ exit_status out = 2%Z).
Proof.
  cbv zeta.
  destruct (run_shape env mirror t)
    as (body & deferred & s & Htr & (ok & tail & -> & _ & Ht) & _ & Hdef & Hexit).
  pose proof (run_last_removal env mirror t) as Hlast.
  destruct (fst (run env mirror t)) as [a | c | msg]; cbn [kind exit_status] in *.
  - split; [discriminate|]. split; [discriminate|]. now left.
  - pose proof (exit_code_of_abort mirror c tail Ht) as ->.
    split; [|split; [discriminate | now right; left]].
    intros c' [= <-]. split; [reflexivity|].
    rewrite Htr, (Hexit 1%Z eq_refl), List.app_nil_r.
    inversion Ht; subst;
      match goal with
      | |- exists pre msg, ok ++ ?l = _ =>
          exists (ok ++ removelast l); cbn [removelast app];
          eexists; rewrite <- List.app_assoc; reflexivity
      end.
  - split; [discriminate|]. split; [|now right; right].
    intros msg' _.
    destruct Hlast as (pre & p & re & Hl); [discriminate|].
    rewrite Htr in Hl.
    destruct (panic_after_create mirror ok tail Ht) as (pre' & q & e & Hbody).
    rewrite Hbody in Hl.
    destruct Hdef as [-> | (p' & e' & ->)].
    + exfalso. rewrite List.app_nil_r in Hl.
      apply app_inj_tail in Hl as [_ Hl]. discriminate.
    + rewrite Htr, Hbody. exists pre', q, e, p', e'. now rewrite <- List.app_assoc.
Qed.

Lemma run_ends_in_three_ways_witness :
  (exists pre msg,
     trace (snd (run Sample.files_missing Sample.mirror Sample.disk))
     = pre ++ [EvStderr msg])
  /\ exists pre q e p re,
       trace (snd (run Sample.roots_only Sample.mirror Sample.disk))
       = pre ++ [EvCreate q (Some e); EvRemoveAll p re].
Proof.
  split.
  - apply (proj1 (run_ends_in_three_ways Sample.files_missing Sample.mirror Sample.disk)
             1%Z).
    vm_compute. reflexivity.
  - apply (proj1 (proj2 (run_ends_in_three_ways Sample.roots_only Sample.mirror
                           Sample.disk))
             "invalid memory address or nil pointer dereference").
    vm_compute. reflexivity.
Defined.


(** ** The order of the stages *)

Section PhaseFacts.

Variables f g : event -> bool.

Lemma count_0_no (d pre post : list event) (x : event) :
  count g d = 0%nat -> d = pre ++ x :: post -> g x = true -> False.
Proof.
  intros H -> Hx. rewrite count_app in H. unfold count in H at 2.
  cbn [List.filter] in H. rewrite Hx in H. cbn [List.length] in H. lia.
Qed.

(** Where an event of the kind [g] lies when the first part has none. *)
Lemma split_after_free (a b pre post : list event) (x : event) :
  count g a = 0%nat -> g x = true -> a ++ b = pre ++ x :: post ->
  exists t1, pre = a ++ t1 /\ b = t1 ++ x :: post.
Proof.
  revert pre. induction a as [|e a IH]; intros pre Ha Hx E.
  - exists pre. now split.
  - assert (He : g e = false /\ count g a = 0%nat).
    { unfold count in *. cbn [List.filter] in Ha. destruct (g e); [discriminate|].
      now split. }
    destruct He as [He Ha'].
    destruct pre as [|e' pre]; cbn [app] in E; injection E as -> E.
    + congruence.
    + destruct (IH pre Ha' Hx E) as (t1 & -> & ->). now exists t1.
Qed.

(** Where it lies when the second part has none. *)
Lemma split_before_free (a b pre post : list event) (x : event) :
  count g b = 0%nat -> g x = true -> a ++ b = pre ++ x :: post ->
  exists t2, a = pre ++ x :: t2 /\ post = t2 ++ b.
Proof.
  revert pre. induction a as [|e a IH]; intros pre Hb Hx E.
  - exfalso. cbn [app] in E. exact (count_0_no b pre post x Hb E Hx).
  - destruct pre as [|e' pre]; cbn [app] in E; injection E as -> E.
    + now exists a.
    + destruct (IH pre Hb Hx E) as (t2 & -> & ->). now exists t2.
Qed.

Lemma spends_same_delta {A} (n k : nat) (h : event -> bool) (m : M A)
    (env : Env) (w : World) (d : list event) :
  spends h n m -> trace (snd (m env w)) = trace w ++ d ->
  (count h d <= n)%nat /\ (forall a, fst (m env w) = Val a -> count h d = n).
Proof.
  intros H Hd. destruct (H env w) as (d' & Hd' & Hle & Hv).
  rewrite Hd in Hd'. apply List.app_inv_head in Hd'. now subst d'.
Qed.

(** The stage that produces the [f] events, followed by the rest. *)
Lemma phased_head {A B} (n : nat) (m : M A) (k : A -> M B) :
  spends g 0 m -> spends f n m -> (forall a, spends f 0 (k a)) ->
  phased f g n (bind m k).
Proof.
  intros Hg Hf Hk env w.
  destruct (Hf env w) as (d1 & Ht1 & Hle1 & Hv1).
  destruct (spends_same_delta 0 0 g m env w d1 Hg Ht1) as [Hg1 _].
  rewrite bind_unfold.
  destruct (m env w) as [[a | c | msg] w1]; cbn [fst snd] in *.
  - destruct (Hk a env w1) as (d2 & Ht2 & Hle2 & _).
    exists (d1 ++ d2). rewrite Ht2, Ht1, List.app_assoc. split; [reflexivity|].
    intros pre x post E Hx.
    destruct (split_after_free d1 d2 pre post x ltac:(lia) Hx E) as (t1 & -> & ->).
    rewrite count_app, (Hv1 a eq_refl).
    rewrite count_app in Hle2. unfold count in Hle2 at 2. cbn [List.filter] in Hle2.
    destruct (f x); cbn [List.length] in Hle2; unfold count in *; split; lia.
  - exists d1. split; [exact Ht1|]. intros pre x post E Hx.
    exfalso. exact (count_0_no d1 pre post x ltac:(lia) E Hx).
  - exists d1. split; [exact Ht1|]. intros pre x post E Hx.
    exfalso. exact (count_0_no d1 pre post x ltac:(lia) E Hx).
Qed.

(** A stage without events of either kind, before. *)
Lemma phased_skip {A B} (n : nat) (m : M A) (k : A -> M B) :
  spends f 0 m -> spends g 0 m -> (forall a, phased f g n (k a)) ->
  phased f g n (bind m k).
Proof.
  intros Hf Hg Hk env w.
  destruct (Hf env w) as (d1 & Ht1 & Hle1 & _).
  destruct (spends_same_delta 0 0 g m env w d1 Hg Ht1) as [Hg1 _].
  rewrite bind_unfold.
  destruct (m env w) as [[a | c | msg] w1]; cbn [fst snd] in *.
  - destruct (Hk a env w1) as (d2 & Ht2 & Hph).
    exists (d1 ++ d2). rewrite Ht2, Ht1, List.app_assoc. split; [reflexivity|].
    intros pre x post E Hx.
    destruct (split_after_free d1 d2 pre post x ltac:(lia) Hx E) as (t1 & -> & E2).
    destruct (Hph t1 x post E2 Hx) as [Hpre Hpost].
    rewrite count_app. split; lia.
  - exists d1. split; [exact Ht1|]. intros pre x post E Hx.
    exfalso. exact (count_0_no d1 pre post x ltac:(lia) E Hx).
  - exists d1. split; [exact Ht1|]. intros pre x post E Hx.
    exfalso. exact (count_0_no d1 pre post x ltac:(lia) E Hx).
Qed.

(** Events of neither kind, after. *)
Lemma phased_then (n : nat) (d1 d2 : list event) :
  (forall pre x post, d1 = pre ++ x :: post -> g x = true ->
                      count f pre = n /\ count f post = 0%nat) ->
  count f d2 = 0%nat -> count g d2 = 0%nat ->
  forall pre x post, d1 ++ d2 = pre ++ x :: post -> g x = true ->
                     count f pre = n /\ count f post = 0%nat.
Proof.
  intros H1 Hf2 Hg2 pre x post E Hx.
  destruct (split_before_free d1 d2 pre post x Hg2 Hx E) as (t2 & E1 & ->).
  destruct (H1 pre x t2 E1 Hx) as [Hpre Hpost].
  rewrite count_app. split; lia.
Qed.

Lemma phased_before {A B} (n : nat) (m : M A) (k : A -> M B) :
  phased f g n m -> (forall a, spends f 0 (k a)) -> (forall a, spends g 0 (k a)) ->
  phased f g n (bind m k).
Proof.
  intros Hm Hf Hg env w. destruct (Hm env w) as (d1 & Ht1 & Hph).
  rewrite bind_unfold.
  destruct (m env w) as [[a | c | msg] w1]; cbn [fst snd] in *;
    [|exists d1; now split | exists d1; now split].
  destruct (Hf a env w1) as (d2 & Ht2 & Hle2 & _).
  destruct (spends_same_delta 0 0 g (k a) env w1 d2 (Hg a) Ht2) as [Hg2 _].
  exists (d1 ++ d2). rewrite Ht2, Ht1, List.app_assoc. split; [reflexivity|].
  apply phased_then; [exact Hph | lia | lia].
Qed.

Lemma phased_defer {A} (n : nat) (d : M unit) (body : M A) :
  spends f 0 d -> spends g 0 d -> phased f g n body -> phased f g n (defer d body).
Proof.
  intros Hf Hg Hb env w. destruct (Hb env w) as (d1 & Ht1 & Hph).
  unfold defer.
  destruct (body env w) as [[a | c | msg] w1]; cbn [fst snd] in *;
    [|exists d1; now split|];
    (destruct (Hf env w1) as (d2 & Ht2 & Hle2 & _);
     destruct (spends_same_delta 0 0 g d env w1 d2 Hg Ht2) as [Hg2 _];
     exists (d1 ++ d2); rewrite Ht2, Ht1, List.app_assoc; split; [reflexivity|];
     apply phased_then; [exact Hph | lia | lia]).
Qed.

Lemma phased_aborts {A} (n : nat) (m : M A) : spends g 0 m -> phased f g n m.
Proof.
  intros Hg env w. destruct (Hg env w) as (d & Ht & Hle & _).
  exists d. split; [exact Ht|]. intros pre x post E Hx.
  exfalso. exact (count_0_no d pre post x ltac:(lia) E Hx).
Qed.

End PhaseFacts.

Section OrderFacts.

Lemma main_downloads_then_initializes (mirror : string) :
  phased is_download_return is_initialize 4 (main mirror false).
Proof.
  unfold main. cbv iota.
  apply phased_skip; [silent | silent | intros [tmp err]].
  apply phased_skip; [silent | silent | intros _].
  apply phased_defer; [silent | silent |].
  apply phased_before; [| intro; silent | intro; silent].
  unfold assembleRepository.
  apply phased_head; [silent | silent | intro; silent].
Qed.

End OrderFacts.


Lemma prefix_or_beyond (ok rest pre post : list event) (x : event) :
  ok ++ rest = pre ++ x :: post ->
  (exists ok2, ok = pre ++ x :: ok2)
  \/ (exists t1, pre = ok ++ t1 /\ rest = t1 ++ x :: post).
Proof.
  revert pre. induction ok as [|e ok IH]; intros pre E.
  - right. now exists pre.
  - destruct pre as [|e' pre]; cbn [app] in E; injection E as -> E.
    + left. now exists ok.
    + destruct (IH pre E) as [(ok2 & ->) | (t1 & -> & ->)]; [left | right]; eauto.
Qed.

(** X17: [tuf.Initialize] is called only when all four metadata files
    are there: in every run, a call of [tuf.Initialize] has exactly four
    returns of [DownloadFile] before it, nothing before it has failed, and
    no download follows it. *)
Theorem trust_initialized_after_downloads (env : Env) (mirror : string) (t : node) :
  forall pre m root e post,
    trace (snd (run env mirror t)) = pre ++ EvTufInitialize m root e :: post ->
    count is_download_return pre = 4%nat
    /\ forallb (fun x => negb (failed_event x)) pre = true
    /\ count is_download_return post = 0%nat.
Proof.
  intros pre m root e post E.
  destruct (main_downloads_then_initializes mirror env (initial t)) as (d & Hd & Hph).
  fold (run env mirror t) in Hd. cbn [initial trace app] in Hd.
  rewrite Hd in E. destruct (Hph pre _ post E eq_refl) as [Hpre Hpost].
  split; [exact Hpre|]. split; [|exact Hpost].
  rewrite <- Hd in E. clear Hd Hph Hpre Hpost d.
  destruct (run_shape env mirror t)
    as (body & deferred & s & Htr & (ok & tail & -> & Hok & Ht) & _ & Hdef & Hexit).
  assert (Hben : forall l, forallb (benign mirror) l = true ->
                           forallb (fun x => negb (failed_event x)) l = true).
  { intros l Hl. rewrite forallb_forall in Hl. apply forallb_forall. intros x Hx.
    apply (benign_not_failed mirror). now apply Hl. }
  rewrite Htr, <- List.app_assoc in E.
  destruct (prefix_or_beyond _ _ _ _ _ E) as [(ok2 & ->) | (t1 & -> & E1)].
  - rewrite forallb_app in Hok. apply andb_true_iff in Hok as [Hok _]. now apply Hben.
  - assert (t1 = []) as ->; [|rewrite List.app_nil_r; now apply Hben].
    destruct (fst (run env mirror t)) as [a | c | msg]; cbn [kind] in Ht.
    + subst tail. cbn [app] in E1.
      destruct Hdef as [-> | (q & re & ->)]; locate E1.
    + pose proof (exit_code_of_abort mirror c tail Ht) as ->.
      rewrite (Hexit 1%Z eq_refl), List.app_nil_r in E1.
      revert E1; inversion Ht; subst; intros E1; locate E1; reflexivity.
    + revert E1; inversion Ht; subst;
        destruct Hdef as [-> | (q' & re & ->)]; intros E1; cbn [app] in E1; locate E1.
Qed.

Lemma trust_initialized_after_downloads_witness :
  let tr := trace (snd (run Sample.env Sample.mirror Sample.disk)) in
  count is_download_return (firstn 29 tr) = 4%nat
  /\ forallb (fun x => negb (failed_event x)) (firstn 29 tr) = true
  /\ count is_download_return (skipn 30 tr) = 0%nat.
Proof.
  intros tr.
  refine (trust_initialized_after_downloads Sample.env Sample.mirror Sample.disk
            (firstn 29 tr) Sample.mirror
            (Some ("contents of " +:+ Sample.mirror +:+ "/2.root.json")) None
            (skipn 30 tr) _).
  vm_compute. reflexivity.
Defined.


(** ** The parser takes whole version numbers *)

Lemma ends_with_digit_split (s : string) :
  ends_with_digit s = true ->
  exists s' c, s = s' +:+ String c EmptyString /\ Str.is_digit c = true.
Proof.
  induction s as [|a s IH]; [discriminate|].
  destruct s as [|b s'].
  - cbn. intros H. now exists EmptyString, a.
  - intros H. change (ends_with_digit (String b s') = true) in H.
    destruct (IH H) as (r & c & E & Hc). exists (String a r), c.
    rewrite sapp_cons, <- E. now split.
Qed.

(** X18: a version number is never cut on the left: every name the
    parser collects stands in its line right after the start of the line
    or after a character that is not a digit, so a line with
    [12.root.json] never yields [2.root.json]. *)
Theorem parser_takes_whole_version_number (body metadataPattern m : string) :
  In m (listMetadataFilenames body metadataPattern) ->
  exists line pre post,
    In line (Str.Split newline body) /\
    line = pre +:+ m +:+ post /\ ends_with_digit pre = false.
Proof.
  intros H. apply listMetadataFilenames_In in H as (line & Hline & i & Hm & Hmin).
  destruct Hm as [Hc (pre & post & -> & Hlen)].
  exists (pre +:+ m +:+ post), pre, post. split; [exact Hline|]. split; [reflexivity|].
  destruct (ends_with_digit pre) eqn:E; [exfalso | reflexivity].
  apply ends_with_digit_split in E as (pre' & c & -> & Hd).
  destruct Hc as (ds & Hne & Hds & ->).
  assert (Hm' : match_at metadataPattern
                  ((pre' +:+ String c EmptyString)
                   +:+ (ds +:+ Regexp.literal metadataPattern) +:+ post)
                  (String.length pre')
                  (String c ds +:+ Regexp.literal metadataPattern)).
  { split.
    - exists (String c ds). split; [discriminate|]. split; [|reflexivity].
      rewrite all_digits_cons. now rewrite Hd, Hds.
    - exists pre', post. split; [|reflexivity].
      rewrite !sapp_assoc, !sapp_cons, sapp_nil_l. reflexivity. }
  apply Hmin in Hm'. rewrite <- Hlen, sapp_length in Hm'. cbn [String.length] in Hm'. lia.
Qed.

Lemma parser_takes_whole_version_number_witness :
  exists line pre post,
    In line (Str.Split newline ("x12.root.json" +:+ nl +:+ "3.root.json")) /\
    line = pre +:+ "12.root.json" +:+ post /\ ends_with_digit pre = false.
Proof.
  apply (parser_takes_whole_version_number
           ("x12.root.json" +:+ nl +:+ "3.root.json") "root.json" "12.root.json").
  vm_compute. now left.
Defined.


(* ================================================================== *)
(** * Part IV: the trust store from its initialization to the end of the run *)
(* ================================================================== *)

(** ** Directories that stay *)

(** A write at [q] leaves a directory at [p] a directory, unless [q] is
    [p] or above it. *)
Lemma put_keeps_directory (q : path) (x : node) :
  forall p T T' es,
    FS.strip q p = None -> FS.put q x T = Some T' ->
    FS.lookup p T = Some (Dir es) ->
    exists es', FS.lookup p T' = Some (Dir es').
Proof.
  induction q as [|a q IH]; intros p T T' es Hs Hput Hl; [discriminate|].
  destruct T as [d | es0]; [discriminate|]. cbn [FS.put] in Hput.
  destruct p as [|b p].
  - destruct q as [|a' q'].
    + injection Hput as <-. cbn [FS.lookup]. eauto.
    + destruct (FS.assoc a es0) as [c|]; [|discriminate].
      destruct (FS.put (a' :: q') x c) as [c'|]; [|discriminate].
      injection Hput as <-. cbn [FS.lookup]. eauto.
  - cbn [FS.strip] in Hs. rewrite lookup_cons_Dir in Hl.
    destruct q as [|a' q'].
    + injection Hput as <-. rewrite lookup_cons_Dir.
      destruct (String.eqb_spec a b) as [-> | Hne]; [discriminate|].
      rewrite assoc_set_other by exact Hne. eauto.
    + destruct (FS.assoc a es0) as [c|] eqn:Hc; [|discriminate].
      destruct (FS.put (a' :: q') x c) as [c'|] eqn:Hc'; [|discriminate].
      injection Hput as <-. rewrite lookup_cons_Dir.
      destruct (String.eqb_spec a b) as [-> | Hne].
      * rewrite assoc_set_same. rewrite Hc in Hl. exact (IH p c c' es Hs Hc' Hl).
      * rewrite assoc_set_other by exact Hne. eauto.
Qed.

(** So does a removal at [q]. *)
Lemma remove_keeps_directory (q : path) :
  forall p T es,
    FS.strip q p = None -> FS.lookup p T = Some (Dir es) ->
    exists es', FS.lookup p (FS.remove q T) = Some (Dir es').
Proof.
  induction q as [|a q IH]; intros p T es Hs Hl; [discriminate|].
  destruct T as [d | es0]; [cbn [FS.remove]; eauto|]. cbn [FS.remove].
  destruct p as [|b p].
  - destruct q as [|a' q']; [cbn [FS.lookup]; eauto|].
    destruct (FS.assoc a es0) as [c|]; cbn [FS.lookup]; eauto.
  - cbn [FS.strip] in Hs. rewrite lookup_cons_Dir in Hl.
    destruct q as [|a' q'].
    + rewrite lookup_cons_Dir.
      destruct (String.eqb_spec a b) as [-> | Hne]; [discriminate|].
      rewrite assoc_del_other by exact Hne. eauto.
    + destruct (FS.assoc a es0) as [c|] eqn:Hc.
      * rewrite lookup_cons_Dir.
        destruct (String.eqb_spec a b) as [-> | Hne].
        -- rewrite assoc_set_same. rewrite Hc in Hl. exact (IH p c es Hs Hl).
        -- rewrite assoc_set_other by exact Hne. eauto.
      * rewrite lookup_cons_Dir. eauto.
Qed.

Lemma remove_cons_below (a : string) (r : path) (es : list (string * node)) :
  r <> [] ->
  FS.remove (a :: r) (Dir es)
  = match FS.assoc a es with
    | Some c => Dir (FS.assoc_set a (FS.remove r c) es)
    | None => Dir es
    end.
Proof. destruct r; [congruence | reflexivity]. Qed.

(** A removal below [p] shows at [p] as a removal in what was there. *)
Lemma lookup_remove_below (p q : path) :
  q <> [] ->
  forall T s, FS.lookup p T = Some s ->
              FS.lookup p (FS.remove (p ++ q) T) = Some (FS.remove q s).
Proof.
  intros Hq. induction p as [|a p IH]; intros T s Hl.
  - cbn in Hl. injection Hl as <-. reflexivity.
  - destruct T as [d | es]; [discriminate|]. rewrite lookup_cons_Dir in Hl.
    destruct (FS.assoc a es) as [c|] eqn:Hc; [|discriminate].
    cbn [app]. rewrite remove_cons_below.
    + rewrite Hc, lookup_cons_Dir, assoc_set_same. now apply IH.
    + intros E. apply app_eq_nil in E as [_ E]. contradiction.
Qed.

Lemma remove_twice (p : path) (T : node) :
  p <> [] -> FS.remove p (FS.remove p T) = FS.remove p T.
Proof. intros Hp. apply remove_absent. now apply lookup_remove_same. Qed.

Lemma stat_directory (p : path) (T : node) :
  FS.stat p T = Some FS.KDir <-> exists es, FS.lookup p T = Some (Dir es).
Proof.
  unfold FS.stat. destruct (FS.lookup p T) as [[d | es]|]; cbn [FS.kind_of].
  - split; [discriminate | intros [es H]; discriminate].
  - split; eauto.
  - split; [discriminate | intros [es H]; discriminate].
Qed.

(** ** The trust store and the events of a run *)

Lemma no_initialize_In (d : list event) :
  count is_initialize d = 0%nat ->
  forall m root e, ~ In (EvTufInitialize m root e) d.
Proof.
  intros H m root e Hin. apply in_split in Hin as (pre & post & E).
  exact (count_0_no is_initialize d pre post _ H E eq_refl).
Qed.

Lemma uninitialized_step (w w' : World) (d : list event) :
  uninitialized w -> trace w' = trace w ++ d -> count is_initialize d = 0%nat ->
  uninitialized w'.
Proof.
  intros Hun Htr Hd m root e Hin. rewrite Htr in Hin.
  apply in_app_or in Hin as [Hin | Hin]; [exact (Hun m root e Hin)|].
  exact (no_initialize_In d Hd m root e Hin).
Qed.

Lemma uninitialized_kept (env : Env) (mirror : string) (w : World) :
  uninitialized w -> store_kept env mirror w.
Proof. intros Hun root e s Hin _. now destruct (Hun mirror root e). Qed.

Lemma store_kept_step (env : Env) (mirror : string) (w w' : World) (d : list event) :
  store_kept env mirror w -> trace w' = trace w ++ d ->
  count is_initialize d = 0%nat ->
  (forall s, store_left env s (fs w) -> store_left env s (fs w')) ->
  store_kept env mirror w'.
Proof.
  intros Hk Htr Hd Hfs root e s Hin Hs. apply Hfs. apply (Hk root e s); [|exact Hs].
  rewrite Htr in Hin. apply in_app_or in Hin as [Hin | Hin]; [exact Hin|].
  now destruct (no_initialize_In d Hd mirror root e).
Qed.

(** What [ends] gives whatever the outcome. *)
Lemma ends_anyway {A} (r : outcome A * World) (Q : A -> World -> Prop)
    (E P : World -> Prop) :
  ends r Q E -> (forall a w, Q a w -> P w) -> (forall w, E w -> P w) -> P (snd r).
Proof. destruct r as [[a | c | msg] w]; cbn [ends snd]; eauto. Qed.

Section StoreKeptFacts.

Variables (env : Env) (mirror : string).

(** The trust store and the temporary directory are apart. *)
Hypothesis Hsep : FS.disjoint (sigstore_dir env) (env_tmpdir env).

Lemma sigstore_dir_home : sigstore_dir env = env_home env ++ [".sigstore"].
Proof. reflexivity. Qed.

Lemma temporary_not_above_home (a : path) :
  FS.strip (env_tmpdir env ++ a) (env_home env) = None.
Proof.
  rewrite strip_app_l.
  destruct (FS.strip (env_tmpdir env) (env_home env)) as [r|] eqn:E; [|reflexivity].
  exfalso. apply strip_Some in E. destruct Hsep as [_ H].
  rewrite sigstore_dir_home, E, <- List.app_assoc, strip_app in H. discriminate.
Qed.

Lemma store_not_above_home : FS.strip (sigstore_dir env) (env_home env) = None.
Proof.
  destruct (FS.strip (sigstore_dir env) (env_home env)) as [r|] eqn:E; [|reflexivity].
  exfalso. apply strip_Some in E. rewrite sigstore_dir_home in E.
  apply (f_equal (@List.length string)) in E.
  rewrite !List.length_app in E. cbn [List.length] in E. lia.
Qed.

Lemma temporary_apart_from_store (a : path) :
  FS.disjoint (env_tmpdir env ++ a) (sigstore_dir env).
Proof. apply disjoint_below. now apply disjoint_sym. Qed.

(** [$HOME] stays a directory under the writes of the fetch stage and
    under the removal of the trust store. *)
Lemma home_kept_by_put (a : path) (x T T' : node) :
  FS.stat (env_home env) T = Some FS.KDir ->
  FS.put (env_tmpdir env ++ a) x T = Some T' ->
  FS.stat (env_home env) T' = Some FS.KDir.
Proof.
  intros Hh Hp. apply stat_directory in Hh as [es Hes]. apply stat_directory.
  exact (put_keeps_directory _ x _ T T' es (temporary_not_above_home a) Hp Hes).
Qed.

Lemma home_kept_by_wipe (T : node) :
  FS.stat (env_home env) T = Some FS.KDir ->
  FS.stat (env_home env) (FS.remove (sigstore_dir env) T) = Some FS.KDir.
Proof.
  intros Hh. apply stat_directory in Hh as [es Hes]. apply stat_directory.
  exact (remove_keeps_directory _ _ T es store_not_above_home Hes).
Qed.

(** The trust store stays under the writes in the temporary directory
    and loses at most its targets directory. *)
Lemma store_left_by_put (s : node) (a : path) (x T T' : node) :
  store_left env s T -> FS.put (env_tmpdir env ++ a) x T = Some T' ->
  store_left env s T'.
Proof.
  unfold store_left. intros H Hp.
  now rewrite (lookup_put_disjoint _ _ _ _ Hp _ (temporary_apart_from_store a)).
Qed.

Lemma store_left_by_removal (s : node) (a : path) (T : node) :
  store_left env s T -> store_left env s (FS.remove (env_tmpdir env ++ a) T).
Proof.
  unfold store_left. intros H.
  now rewrite (lookup_remove_disjoint _ T _ (temporary_apart_from_store a)).
Qed.

Lemma store_left_by_take (s T : node) :
  store_left env s T ->
  store_left env s (FS.remove (FS.Join (env_home env) [".sigstore"; "root"; "targets"]) T).
Proof.
  rewrite sigstore_targets_path. intros [H | H]; right.
  - now apply lookup_remove_below.
  - rewrite (lookup_remove_below _ ["root"; "targets"] ltac:(discriminate) T _ H).
    now rewrite remove_twice.
Qed.

Lemma store_can_be_put (s T : node) :
  FS.stat (env_home env) T = Some FS.KDir ->
  exists T', FS.put (sigstore_dir env) s (FS.remove (sigstore_dir env) T) = Some T'.
Proof.
  intros Hh.
  exact (put_in_directory (env_home env) ".sigstore" s _ (home_kept_by_wipe T Hh)).
Qed.

(** Lines 88-109: whatever the outcome, a trust store that
    [tuf.Initialize] left is on disk. *)
Lemma initializeTrust_keeps (p : path) (w : World) :
  uninitialized w -> FS.stat (env_home env) (fs w) = Some FS.KDir ->
  ends (initializeTrust mirror (Handle p) env w)
    (fun _ w' => store_kept env mirror w')
    (fun w' => store_kept env mirror w').
Proof.
  intros Hun Hhome.
  unfold initializeTrust, cleanupLocalTUFRepository, os_RemoveAll, File_Name,
    os_ReadFile, tuf_Initialize, tuf_GetRootStatus, json_MarshalIndent, log_Printf,
    log_Fatalf, os_Exit, bind, ask, get_fs, set_fs, emit, ret.
  cbv zeta. cbn. change (FS.Join (env_home env) [".sigstore"]) with (sigstore_dir env).
  destruct (env_remove_fault env (sigstore_dir env)) as [e|] eqn:Hfault; cbn.
  { unfold store_kept. cbn [trace fs]. intros root e0 s Hin _. exfalso.
    repeat match goal with
           | H : In _ (_ ++ _) |- _ => apply in_app_or in H as [H | H]
           | H : In _ (_ :: _) |- _ => destruct H as [H | H]
           | H : In _ [] |- _ => destruct H
           end; try discriminate.
    exact (Hun _ _ _ Hin). }
  set (T0 := FS.remove (sigstore_dir env) (fs w)) in *.
  destruct (FS.lookup p T0) as [[d | es]|] eqn:Hl; cbn;
    destruct (env_tuf_initialize env mirror _) as [[s|] e1] eqn:Hinit; cbn;
    try (destruct (store_can_be_put s (fs w) Hhome) as [T HT]; fold T0 in HT;
         rewrite HT; cbn);
    destruct e1 as [e1|]; cbn;
    try (destruct (env_tuf_status env) as [st | e2]; cbn);
    try match goal with
        | |- context [env_marshal env ?x] => destruct (env_marshal env x) as [js | e3]; cbn
        end;
    unfold store_kept; cbn [trace fs]; intros root e0 s0 Hin Hgiven;
    repeat match goal with
           | H : In _ (_ ++ _) |- _ => apply in_app_or in H as [H | H]
           | H : In _ (_ :: _) |- _ => destruct H as [H | H]
           | H : In _ [] |- _ => destruct H
           end; try discriminate; try (exfalso; exact (Hun _ _ _ Hin));
    injection Hin as <- <-; rewrite Hinit in Hgiven; cbn [fst] in Hgiven;
    try discriminate; injection Hgiven as <-;
    left; exact (lookup_put_same _ _ _ _ HT).
Qed.

Section Stages.

(** The working directory, in the temporary directory. *)
Variables (r : string) (tmp : path).

Hypothesis Htmp : tmp = env_tmpdir env ++ ["tuf-repository-" +:+ r].

Lemma home_kept_in_work (name : string) (x T T' : node) :
  FS.stat (env_home env) T = Some FS.KDir ->
  FS.put (tmp ++ [name]) x T = Some T' ->
  FS.stat (env_home env) T' = Some FS.KDir.
Proof.
  rewrite Htmp, <- List.app_assoc. apply home_kept_by_put.
Qed.

Lemma store_left_in_work (s : node) (name : string) (x T T' : node) :
  store_left env s T -> FS.put (tmp ++ [name]) x T = Some T' ->
  store_left env s T'.
Proof.
  rewrite Htmp, <- List.app_assoc. apply store_left_by_put.
Qed.

Lemma resolveAndFetch_keeps (w : World) (es : list (string * node)) :
  uninitialized w -> FS.stat (env_home env) (fs w) = Some FS.KDir ->
  FS.lookup tmp (fs w) = Some (Dir es) ->
  ends (resolveAndFetch mirror tmp env w)
    (fun f w' =>
       uninitialized w' /\ FS.stat (env_home env) (fs w') = Some FS.KDir /\
       exists n1, f = Handle (tmp ++ [n1]))
    (fun w' => store_kept env mirror w').
Proof.
  intros Hun Hhome Hdir.
  assert (Hspend : spends is_initialize 0 (resolveAndFetch mirror tmp)) by silent.
  destruct (Hspend env w) as (d & Htr & Hle & _).
  assert (Hun' : uninitialized (snd (resolveAndFetch mirror tmp env w))).
  { apply (uninitialized_step w _ d Hun Htr). lia. }
  pose proof (resolveAndFetch_ends env mirror tmp
                (fun T => FS.stat (env_home env) T = Some FS.KDir)
                (fun T T' name x _ HT Hp => home_kept_in_work name x T T' HT Hp)
                w es Hhome Hdir) as He.
  destruct (resolveAndFetch mirror tmp env w) as [[f | c | msg] w'];
    cbn [ends snd] in *; try (now apply uninitialized_kept).
  destruct He as (Hh & _ & _ & n0 & n1 & b1 & n2 & b2 & n3 & b3 & b4 & He).
  split; [exact Hun'|]. split; [exact Hh|]. exists n1. tauto.
Qed.

(** Lines 111-117. *)
Lemma moveTargets_keeps (w : World) :
  store_kept env mirror w ->
  ends (moveTargets tmp env w)
    (fun _ w' => store_kept env mirror w')
    (fun w' => store_kept env mirror w').
Proof.
  intros Hk.
  assert (Hspend : spends is_initialize 0 (moveTargets tmp)) by silent.
  destruct (Hspend env w) as (d & Htr & Hle & _).
  assert (Hk' : store_kept env mirror (snd (moveTargets tmp env w))).
  { apply (store_kept_step env mirror w _ d Hk Htr); [lia|]. intros s Hs.
    apply (ends_anyway _ _ _ (fun w' => store_left env s (fs w'))
             (moveTargets_ends env tmp (store_left env s)
                (fun T T' name x _ HT Hp => store_left_in_work s name x T T' HT Hp)
                (store_left_by_take s) w Hs)); [|auto].
    now intros _ w' [H _]. }
  destruct (moveTargets tmp env w) as [[u | c | msg] w']; exact Hk'.
Qed.

(** Lines 119-154. *)
Lemma packageAndEmit_keeps (rp : path) (w : World) :
  store_kept env mirror w ->
  (forall name, FS.disjoint rp (archive_path env name)) ->
  ends (packageAndEmit mirror tmp (Handle rp) env w)
    (fun _ w' => store_kept env mirror w')
    (fun w' => store_kept env mirror w').
Proof.
  intros Hk Hrp.
  assert (Hta : forall name, FS.disjoint tmp (archive_path env name)).
  { intros name. rewrite Htmp. apply working_directory_not_archive. }
  assert (Hspend : spends is_initialize 0 (packageAndEmit mirror tmp (Handle rp)))
    by silent.
  destruct (Hspend env w) as (d & Htr & Hle & _).
  assert (Hk' : store_kept env mirror
                  (snd (packageAndEmit mirror tmp (Handle rp) env w))).
  { apply (store_kept_step env mirror w _ d Hk Htr); [lia|]. intros s Hs.
    apply (ends_anyway _ _ _ (fun w' => store_left env s (fs w'))
             (packageAndEmit_ends env mirror tmp (store_left env s)
                (fun T T' name x HT Hp => store_left_by_put s _ x T T' HT Hp)
                rp w Hs Hta Hrp));
      [|auto].
    now intros _ w' [H _]. }
  destruct (packageAndEmit mirror tmp (Handle rp) env w) as [[u | c | msg] w'];
    exact Hk'.
Qed.

(** The body of [main] below the deferred removal. *)
Lemma main_body_keeps (w : World) :
  uninitialized w -> FS.stat (env_home env) (fs w) = Some FS.KDir ->
  FS.lookup tmp (fs w) = Some (Dir []) ->
  ends ((let* rootJSONFile := assembleRepository mirror tmp in
         packageAndEmit mirror tmp rootJSONFile) env w)
    (fun _ w' => store_kept env mirror w')
    (fun w' => store_kept env mirror w').
Proof.
  intros Hun Hhome Hdir.
  apply (ends_bind env _ _ w
           (fun f w' => store_kept env mirror w' /\ exists n1, f = Handle (tmp ++ [n1]))).
  - unfold assembleRepository.
    eapply ends_bind; [exact (resolveAndFetch_keeps w [] Hun Hhome Hdir)|].
    cbv beta. intros f w2 (Hun2 & Hhome2 & n1 & ->).
    eapply ends_bind; [exact (initializeTrust_keeps _ w2 Hun2 Hhome2)|].
    cbv beta. intros _ w3 Hk3.
    eapply ends_bind; [exact (moveTargets_keeps w3 Hk3)|].
    cbv beta. intros _ w4 Hk4. cbn [ret ends]. split; [exact Hk4 | eauto].
  - cbv beta. intros f w4 [Hk4 (n1 & ->)].
    apply (packageAndEmit_keeps _ w4 Hk4). intros name.
    apply disjoint_below. rewrite Htmp. apply working_directory_not_archive.
Qed.

End Stages.

(** A run, whatever its outcome. *)
Lemma run_keeps_store (t : node) :
  FS.stat (env_home env) t = Some FS.KDir ->
  store_kept env mirror (snd (run env mirror t)).
Proof.
  intros Hhome. unfold run, main.
  destruct (os_MkdirTemp_cases env (initial t) "tuf-repository-" EmptyString)
    as [(T1 & _ & HT1 & Hmk) | (e & Hmk)]; cbv zeta in Hmk.
  2:{ rewrite bind_unfold, Hmk. cbv beta iota.
      rewrite bind_unfold, log_Fatalf_run. apply uninitialized_kept.
      intros m root e0 Hin. cbn in Hin. intuition discriminate. }
  set (r := env_rand env (temps (initial t)) +:+ EmptyString) in *.
  set (tmp := env_tmpdir env ++ ["tuf-repository-" +:+ r]) in *.
  set (w1 := drawn (initial t) T1 [EvMkdirTemp tmp None]) in *.
  assert (Hbody := main_body_keeps r tmp eq_refl w1).
  rewrite bind_unfold, Hmk. cbv beta iota.
  rewrite bind_unfold. cbv beta iota delta [ret]. unfold defer.
  assert (Hun1 : uninitialized w1).
  { intros m root e0 Hin. cbn in Hin. intuition discriminate. }
  assert (Hhome1 : FS.stat (env_home env) (fs w1) = Some FS.KDir).
  { exact (home_kept_by_put _ (Dir []) t T1 Hhome HT1). }
  specialize (Hbody Hun1 Hhome1 (lookup_put_same _ _ _ _ HT1)).
  match type of Hbody with
  | ends ?r _ _ => destruct r as [[u | c | msg] w4]
  end; cbn [ends fst snd] in *; try exact Hbody;
    rewrite bind_unfold;
    (destruct (os_RemoveAll_cases env w4 tmp) as [H | (e & H)];
     rewrite H; cbn [snd];
     (eapply (store_kept_step env mirror w4); [exact Hbody | reflexivity | reflexivity |]);
     cbn [logged fs]; [|auto]; intros s Hs; now apply store_left_by_removal).
Qed.

End StoreKeptFacts.

(** ** Removals after the initialization *)

Section RemovalFacts.

(** Below the deferred removal, [main] calls [os.RemoveAll] once, in the
    cleanup, before [tuf.Initialize]. *)
Lemma body_wipes_then_initializes (mirror : string) (tmp : path) :
  phased is_removal is_initialize 1
    (let* rootJSONFile := assembleRepository mirror tmp in
     packageAndEmit mirror tmp rootJSONFile).
Proof.
  apply phased_before; [| intro; silent | intro; silent].
  unfold assembleRepository.
  apply phased_skip; [silent | silent | intros f].
  apply phased_before; [| intro; silent | intro; silent].
  unfold initializeTrust.
  apply phased_head; [silent | silent | intro; silent].
Qed.

(** In a run, what follows a call of [tuf.Initialize] holds no removal
    but the deferred removal of the working directory, at the end. *)
Lemma run_removals_after_initialize (env : Env) (mirror : string) (t : node) :
  let tmp := env_tmpdir env ++ ["tuf-repository-" +:+ env_rand env 0 +:+ EmptyString] in
  forall pre m root e post,
    trace (snd (run env mirror t)) = pre ++ EvTufInitialize m root e :: post ->
    exists rest last,
      post = rest ++ last /\ count is_removal rest = 0%nat /\
      (last = [] \/ exists err, last = [EvRemoveAll tmp err]).
Proof.
  intros tmp pre m root e post. unfold run, main.
  destruct (os_MkdirTemp_cases env (initial t) "tuf-repository-" EmptyString)
    as [(T1 & _ & HT1 & Hmk) | (e1 & Hmk)]; cbv zeta in Hmk.
  2:{ rewrite bind_unfold, Hmk. cbv beta iota.
      rewrite bind_unfold, log_Fatalf_run. cbn [snd logged drawn trace initial app].
      intros E. locate E. }
  change (env_tmpdir env ++ ["tuf-repository-" +:+ env_rand env (temps (initial t))
                              +:+ EmptyString]) with tmp in *.
  rewrite bind_unfold, Hmk. cbv beta iota.
  rewrite bind_unfold. cbv beta iota delta [ret]. unfold defer.
  set (w1 := drawn (initial t) T1 [EvMkdirTemp tmp None]).
  destruct (body_wipes_then_initializes mirror tmp env w1) as (d & Hd & Hph).
  assert (Hsplit : forall last,
            count is_initialize last = 0%nat ->
            (trace w1 ++ d) ++ last = pre ++ EvTufInitialize m root e :: post ->
            exists rest, post = rest ++ last /\ count is_removal rest = 0%nat).
  { intros last Hlast E.
    destruct (split_before_free is_initialize _ _ _ _ (EvTufInitialize m root e)
                Hlast eq_refl E)
      as (t2 & E1 & ->).
    exists t2. split; [reflexivity|].
    cbn [w1 drawn trace initial app] in E1.
    destruct pre as [|x pre]; cbn [app] in E1; injection E1 as Hx E1;
      [discriminate Hx|].
    exact (proj2 (Hph pre (EvTufInitialize m root e) t2 E1 eq_refl)). }
  destruct ((let* rootJSONFile := assembleRepository mirror tmp in
             packageAndEmit mirror tmp rootJSONFile) env w1) as [[u | c | msg] w4];
    cbn [fst snd] in *.
  - rewrite bind_unfold.
    destruct (os_RemoveAll_cases env w4 tmp) as [H | (e1 & H)]; rewrite H;
      cbn [snd logged trace]; rewrite Hd; intros E;
      match type of E with
      | _ ++ ?l = _ => destruct (Hsplit l eq_refl E) as (rest & -> & Hrest)
      end;
      exists rest; eexists; (split; [reflexivity|]); split; eauto.
  - rewrite Hd. intros E. rewrite <- (List.app_nil_r (trace w1 ++ d)) in E.
    destruct (Hsplit [] eq_refl E) as (rest & -> & Hrest).
    exists rest, []. split; [reflexivity|]. split; [exact Hrest | now left].
  - rewrite bind_unfold.
    destruct (os_RemoveAll_cases env w4 tmp) as [H | (e1 & H)]; rewrite H;
      cbn [snd logged trace]; rewrite Hd; intros E;
      match type of E with
      | _ ++ ?l = _ => destruct (Hsplit l eq_refl E) as (rest & -> & Hrest)
      end;
      exists rest; eexists; (split; [reflexivity|]); split; eauto.
Qed.

End RemovalFacts.

(** ** Claims about the trust store *)

(** C10, as the claim puts it: after the run the trust store is removed.
    Here a run that succeeds and a run that fails after the initialization
    both end with the trust store on disk. *)
Lemma trust_store_remains_after_run :
  (fst (run Sample.env Sample.mirror Sample.disk) = Val tt /\
   FS.lookup (sigstore_dir Sample.env)
     (fs (snd (run Sample.env Sample.mirror Sample.disk)))
   = Some (Dir [("root", Dir [("tuf.db", File "DB")])]))
  /\ (fst (run Sample.status_fails Sample.mirror Sample.disk) = Exit 1 /\
      FS.lookup (sigstore_dir Sample.status_fails)
        (fs (snd (run Sample.status_fails Sample.mirror Sample.disk)))
      = Some Sample.store).
Proof. vm_compute. repeat split. Qed.

(** C10, amended: when [cleanupLocalTUFRepository] returns no error the
    trust store does not exist; in every run, a call of [tuf.Initialize]
    comes right after the removal of the trust store that reported no
    error, the return of the cleanup and the read of the root document;
    what follows the call holds no other call of [tuf.Initialize] and no
    call of [os.RemoveAll] on the path of the trust store, and the only
    removal in it is the deferred removal of the working directory, the
    last event when there is one.  So the trust store is not removed
    after the run: where [$HOME] is a directory and the trust store and
    the temporary directory lie apart, the trust store that a call of
    [tuf.Initialize] left is on disk when the run ends, whole or without
    the targets directory that [main] moves away, whether the run returns
    or not. *)
Theorem trust_store_wiped_before_initialization (env : Env) (mirror : string) (t : node) :
  let tr := trace (snd (run env mirror t)) in
  let final := fs (snd (run env mirror t)) in
  let tmp := env_tmpdir env ++ ["tuf-repository-" +:+ env_rand env 0 +:+ EmptyString] in
  (forall w w1,
      cleanupLocalTUFRepository env w = (Val None, w1) ->
      FS.lookup (sigstore_dir env) (fs w1) = None)
  /\ (forall pre m root e post,
        tr = pre ++ EvTufInitialize m root e :: post ->
        (exists pre' fn p re,
            pre = pre' ++ [EvRemoveAll (sigstore_dir env) None; EvReturned fn None;
                           EvReadFile p re])
        /\ forallb (calm env) post = true
        /\ exists rest last,
             post = rest ++ last /\ count is_removal rest = 0%nat /\
             (last = [] \/ exists err, last = [EvRemoveAll tmp err]))
  /\ (FS.disjoint (sigstore_dir env) (env_tmpdir env) ->
      FS.stat (env_home env) t = Some FS.KDir ->
      forall root e s,
        In (EvTufInitialize mirror root e) tr ->
        fst (env_tuf_initialize env mirror root) = Some s ->
        FS.lookup (sigstore_dir env) final = Some s
        \/ FS.lookup (sigstore_dir env) final = Some (FS.remove ["root"; "targets"] s)).
Proof.
  cbv zeta. split; [|split].
  - intros w w1 Hrun.
    destruct (cleanup_cases env w) as [H | (e & e' & H)]; cbv zeta in H;
      rewrite H in Hrun; [|discriminate].
    injection Hrun as <-. cbn [logged fs].
    apply lookup_remove_same. unfold sigstore_dir, FS.Join.
    intros E. apply app_eq_nil in E as [_ E]. discriminate.
  - intros pre m root e post E.
    destruct (run_shape env mirror t) as (body & deferred & s & _ & _ & Hst & _).
    pose proof (run_removals_after_initialize env mirror t pre m root e post E) as Hrm.
    rewrite E in Hst.
    apply store_run_split in Hst as (s1 & Hpre & Hpost).
    cbn [store_run] in Hpost.
    destruct (store_step env s1 (EvTufInitialize m root e)) as [s2|] eqn:Hs;
      [|discriminate].
    cbn [store_step] in Hs. destruct s1; try discriminate. injection Hs as <-.
    split; [|split].
    + exact (store_run_history env pre Fresh RootRead [] Hpre I).
    + exact (initialized_calm env post s Hpost).
    + exact Hrm.
  - intros Hsep Hhome root e s Hin Hs.
    exact (run_keeps_store env mirror Hsep t Hhome root e s Hin Hs).
Qed.

Lemma trust_store_wiped_before_initialization_witness :
  let tr := trace (snd (run Sample.status_fails Sample.mirror Sample.disk)) in
  FS.lookup (sigstore_dir Sample.status_fails)
    (fs (snd (cleanupLocalTUFRepository Sample.status_fails
                (initial (Dir [("home", Dir [("user", Dir [(".sigstore", Sample.store)])])])))))
  = None
  /\ ((exists pre' fn p re,
       firstn 29 tr
       = pre' ++ [EvRemoveAll (sigstore_dir Sample.status_fails) None;
                  EvReturned fn None; EvReadFile p re])
   /\ forallb (calm Sample.status_fails) (skipn 30 tr) = true
   /\ exists rest last,
        skipn 30 tr = rest ++ last /\ count is_removal rest = 0%nat /\
        (last = [] \/ exists err, last = [EvRemoveAll ["tmp"; "tuf-repository-0"] err]))
  /\ (FS.lookup (sigstore_dir Sample.status_fails)
        (fs (snd (run Sample.status_fails Sample.mirror Sample.disk)))
      = Some Sample.store
      \/ FS.lookup (sigstore_dir Sample.status_fails)
           (fs (snd (run Sample.status_fails Sample.mirror Sample.disk)))
         = Some (FS.remove ["root"; "targets"] Sample.store)).
Proof.
  intros tr.
  pose proof (trust_store_wiped_before_initialization
                Sample.status_fails Sample.mirror Sample.disk) as (Hgone & Hwipe & Hkeep).
  split; [|split].
  - exact (Hgone (initial (Dir [("home", Dir [("user", Dir [(".sigstore", Sample.store)])])]))
             _ eq_refl).
  - refine (Hwipe (firstn 29 tr) Sample.mirror
              (Some ("contents of " +:+ Sample.mirror +:+ "/2.root.json")) None
              (skipn 30 tr) _).
    vm_compute. reflexivity.
  - refine (Hkeep _ _ (Some ("contents of " +:+ Sample.mirror +:+ "/2.root.json")) None
              Sample.store _ _).
    + split; reflexivity.
    + reflexivity.
    + apply (List.nth_error_In _ 29). vm_compute. reflexivity.
    + reflexivity.
Defined.
